(** * Movie-Mania-Agent: the tool-calling conversation loop, its tools and
      the chat endpoint, embedded in Rocq.

    The development follows the three source files:
    - [tools.py]: the seven TMDB lookups (module [Tools] part of the
      section below);
    - [agent.py]: the system prompt, [llm_node], [should_continue], the
      tool node and the graph wiring;
    - [main.py]: the in-memory session map and the [/chat] endpoint.

    Everything outside the process (the chat-model service, the TMDB
    HTTP API, the clock and the uuid generator) is a [World] that is
    threaded through the code; every call to the outside is also
    appended to a log of events so that statements can speak about the
    calls that were made. *)

From Stdlib Require Import ZArith QArith String Ascii List DecimalString Lia.
From stdpp Require Import base option list strings gmap.

Set Warnings "-register-all".

Open Scope string_scope.
Open Scope list_scope.
Open Scope Z_scope.
Open Scope nat_scope.

(* ===================================================================== *)
(** ** Python values and exceptions *)
(* ===================================================================== *)

(** The objects [requests.Response.json()] produces and the tools return:
    [None], [bool], [int], [float], [str], [list] and [dict].  A float is
    represented by the rational it denotes.  A dict is the list of its
    items in insertion order; looking a key up returns its first
    binding. *)
Inductive value : Type :=
| PyNone
| PyBool (b : bool)
| PyInt (z : Z)
| PyFloat (q : Q)
| PyStr (s : string)
| PyList (l : list value)
| PyDict (items : list (string * value)).

(** The exception classes that occur. *)
Inductive exn : Type :=
| TypeError
| KeyError (key : string)
| AttributeError
| IndexError
| ValueError
| ValidationError
| ConnectionError
| JSONDecodeError
| ProviderError (what : string)
| GraphRecursionError
| HTTPException (status_code : Z) (detail : string).

Inductive result (A : Type) : Type :=
| Ok (a : A)
| Raise (e : exn).
Arguments Ok {A} a.
Arguments Raise {A} e.

Definition bindR {A B} (r : result A) (k : A -> result B) : result B :=
  match r with
  | Ok a => k a
  | Raise e => Raise e
  end.

Notation "x <- c1 ;; c2" := (bindR c1 (fun x => c2))
  (at level 100, c1 at next level, right associativity).

(** A list comprehension whose body may raise: elements are evaluated
    left to right and the first exception ends the comprehension. *)
Fixpoint mapR {A B} (f : A -> result B) (l : list A) : result (list B) :=
  match l with
  | [] => Ok []
  | x :: xs => y <- f x ;; ys <- mapR f xs ;; Ok (y :: ys)
  end.

Fixpoint assoc (k : string) (items : list (string * value)) : option value :=
  match items with
  | [] => None
  | (k', v) :: rest => if String.eqb k k' then Some v else assoc k rest
  end.

(** [d[k] = v] on a dict: an existing key keeps its position. *)
Fixpoint dict_set (k : string) (v : value) (items : list (string * value))
  : list (string * value) :=
  match items with
  | [] => [(k, v)]
  | (k', v') :: rest =>
      if String.eqb k k' then (k, v) :: rest else (k', v') :: dict_set k v rest
  end.

Fixpoint is_substring (p s : string) : bool :=
  String.prefix p s ||
  match s with
  | EmptyString => false
  | String _ s' => is_substring p s'
  end.

(** A [str] is represented by its UTF-8 encoding, and Python counts,
    cuts and iterates a [str] by characters (code points), not by bytes.
    A byte of the form [10xxxxxx] continues the character before it. *)
Definition is_continuation (c : ascii) : bool :=
  match c with
  | Ascii _ _ _ _ _ _ b6 b7 => b7 && negb b6
  end.

(** The text starts in the middle of a character. *)
Definition continues (s : string) : bool :=
  match s with
  | String c _ => is_continuation c
  | EmptyString => false
  end.

(** The characters of a text, each with the bytes that encode it. *)
Fixpoint code_points (s : string) : list string :=
  match s with
  | EmptyString => []
  | String c s' =>
      match code_points s' with
      | p :: ps =>
          if continues p then String c p :: ps
          else String c EmptyString :: p :: ps
      | [] => [String c EmptyString]
      end
  end.

Definition join (l : list string) : string := fold_right append EmptyString l.

(** [len(s)] and [s[:n]] for a str. *)
Definition str_len (s : string) : nat := length (code_points s).

Definition str_take (n : nat) (s : string) : string :=
  join (firstn n (code_points s)).

(** The characters a loop over a str draws. *)
Definition chars (s : string) : list value := map PyStr (code_points s).

(** [d.get(k, default)]: only a dict has the method. *)
Definition py_get (d : value) (k : string) (default : value) : result value :=
  match d with
  | PyDict items =>
      match assoc k items with
      | Some v => Ok v
      | None => Ok default
      end
  | _ => Raise AttributeError
  end.

(** [d[k]] with a string key. *)
Definition py_getitem (d : value) (k : string) : result value :=
  match d with
  | PyDict items =>
      match assoc k items with
      | Some v => Ok v
      | None => Raise (KeyError k)
      end
  | _ => Raise TypeError
  end.

(** [k in c] for a string [k]: key membership on a dict, element
    membership on a list, substring test on a str. *)
Definition py_in (k : string) (c : value) : result bool :=
  match c with
  | PyDict items =>
      Ok (match assoc k items with Some _ => true | None => false end)
  | PyList l =>
      Ok (existsb (fun v => match v with
                            | PyStr s => String.eqb s k
                            | _ => false
                            end) l)
  | PyStr s => Ok (is_substring k s)
  | _ => Raise TypeError
  end.

(** [v[:n]]. *)
Definition py_slice (n : nat) (v : value) : result value :=
  match v with
  | PyList l => Ok (PyList (firstn n l))
  | PyStr s => Ok (PyStr (str_take n s))
  | _ => Raise TypeError
  end.

(** The elements a [for] loop or a comprehension draws from [v]. *)
Definition py_iter (v : value) : result (list value) :=
  match v with
  | PyList l => Ok l
  | PyStr s => Ok (chars s)
  | PyDict items => Ok (map (fun kv => PyStr (fst kv)) items)
  | _ => Raise TypeError
  end.

Definition py_len (v : value) : result nat :=
  match v with
  | PyList l => Ok (length l)
  | PyStr s => Ok (str_len s)
  | PyDict items => Ok (length items)
  | _ => Raise TypeError
  end.

(** [v + '...']. *)
Definition py_add_str (v : value) (suffix : string) : result value :=
  match v with
  | PyStr s => Ok (PyStr (s +:+ suffix))
  | _ => Raise TypeError
  end.

(** [min(v, 5)]: the second argument is returned only when it is strictly
    smaller; [bool] is a subclass of [int]. *)
Definition py_min5 (v : value) : result value :=
  match v with
  | PyInt z => Ok (if (5 <? z)%Z then PyInt 5 else PyInt z)
  | PyFloat q => Ok (if Qle_bool q (inject_Z 5) then PyFloat q else PyInt 5)
  | PyBool b => Ok (PyBool b)
  | _ => Raise TypeError
  end.

(** [v == s] for a string literal [s]. *)
Definition py_eq_str (v : value) (s : string) : bool :=
  match v with
  | PyStr s' => String.eqb s' s
  | _ => false
  end.

(** [f"{z}"] for an int. *)
Definition str_int (z : Z) : string := NilZero.string_of_int (Z.to_int z).

(* ===================================================================== *)
(** ** The outside world *)
(* ===================================================================== *)

(** [requests.get(url, params=params)]. *)
Record Request : Type := mkRequest {
  url : string;
  params : list (string * value)
}.

(** What comes back: no response at all (the call raises), or a response
    with a status code and a body, which may or may not be JSON. *)
Inductive HttpOutcome : Type :=
| NoResponse
| HttpResponse (status : Z) (body : option value).

(** A requested capability invocation as the chat model returns it. *)
Record ToolCall : Type := mkToolCall {
  tc_name : string;
  tc_args : value;
  tc_id : string
}.

(** The four message classes of [langchain_core.messages] that occur. *)
Inductive Message : Type :=
| SystemMessage (content : string)
| HumanMessage (content : string)
| AIMessage (content : string) (tool_calls : list ToolCall)
| ToolMessage (content : string) (name : string) (tool_call_id : string)
              (status : string).

Inductive Event : Type :=
| EvModelCall (messages : list Message)
| EvHttpGet (req : Request).

Definition Time : Type := Z.

(** The state of everything outside the process, and how it answers.
    [remote_llm] is the chat-completion service behind [llm.invoke]: it
    returns the content and the tool calls of the reply, or the call
    raises.  [remote_http] is the TMDB API behind [requests.get].
    [API_KEY] is [os.getenv('tmdb_api_key')] (tools.py, line 6).
    [recursion_limit] is the number of steps the graph runtime allows one
    run: [graph.invoke(state)] is called without a config (agent.py, line
    130; main.py, line 160), so it is the default of the library (25 in
    its releases so far), not a number the source chooses.  [json_dumps],
    [exn_repr] and [exn_str] are renderings fixed by the interpreter and
    its libraries: [json.dumps], [repr(e)] and [str(e)].  The [schema_]
    fields are the checks of the argument schema that [@tool] builds from
    a signature: what a parameter annotated [int], [str], [bool] and
    [int = None] makes of the value a call gives it.  Which values other
    than those of the annotated type the schema converts (the string
    ['27205'], the float [2.0] or [True] into an int, for instance) is the
    library's choice; that a value of the annotated type is taken as it is
    is all that is assumed here. *)
Class Environment : Type := {
  World : Type;
  remote_llm :
    World -> list Message -> World * result (string * list ToolCall);
  remote_http : World -> Request -> World * HttpOutcome;
  datetime_now : World -> World * Time;
  uuid4 : World -> World * string;
  API_KEY : value;
  recursion_limit : nat;
  json_dumps : value -> string;
  exn_repr : exn -> string;
  exn_str : exn -> string;
  schema_int : value -> result Z;
  schema_str : value -> result string;
  schema_bool : value -> result bool;
  schema_opt_int : value -> result (option Z);
  schema_int_exact : forall z, schema_int (PyInt z) = Ok z;
  schema_str_exact : forall s, schema_str (PyStr s) = Ok s;
  schema_bool_exact : forall b, schema_bool (PyBool b) = Ok b;
  schema_opt_int_exact : forall z, schema_opt_int (PyInt z) = Ok (Some z)
}.

Section MovieAgent.

Context {env : Environment}.

Record Sys : Type := mkSys {
  world : World;
  events : list Event
}.

(** Code that talks to the outside: it changes [Sys] and returns or raises. *)
Definition M (A : Type) : Type := Sys -> Sys * result A.

Definition retM {A} (a : A) : M A := fun s => (s, Ok a).

Definition bindM {A B} (m : M A) (k : A -> M B) : M B :=
  fun s =>
    match m s with
    | (s', Ok a) => k a s'
    | (s', Raise e) => (s', Raise e)
    end.

Definition liftR {A} (r : result A) : M A := fun s => (s, r).

Notation "x <~ c1 ;; c2" := (bindM c1 (fun x => c2))
  (at level 100, c1 at next level, right associativity).

(* ===================================================================== *)
(** ** tools.py *)
(* ===================================================================== *)

(** [requests.get(url, params=params).json()]: the status code is not
    looked at; an unreachable server and a body that is not JSON raise. *)
Definition requests_get_json (u : string) (ps : list (string * value))
  : M value :=
  fun s =>
    let req := mkRequest u ps in
    let (w', o) := remote_http (world s) req in
    let s' := mkSys w' (events s ++ [EvHttpGet req]) in
    match o with
    | NoResponse => (s', Raise ConnectionError)
    | HttpResponse _ None => (s', Raise JSONDecodeError)
    | HttpResponse _ (Some v) => (s', Ok v)
    end.

(** The [overview] entry of a filtered movie (tools.py, lines 146, 198,
    245, 290, 335): [ov[:limit] + '...' if len(ov) > limit else ov] with
    [ov = movie.get('overview', '')]. *)
Definition truncate_overview (limit : nat) (movie : value) : result value :=
  ov <- py_get movie "overview" (PyStr "") ;;
  n <- py_len ov ;;
  if limit <? n
  then (cut <- py_slice limit ov ;; py_add_str cut "...")
  else Ok ov.

(** The dict literal [filtered_movie]. *)
Definition filter_movie (limit : nat) (movie : value) : result value :=
  id <- py_get movie "id" PyNone ;;
  title <- py_get movie "title" PyNone ;;
  release_date <- py_get movie "release_date" PyNone ;;
  vote_average <- py_get movie "vote_average" PyNone ;;
  overview <- truncate_overview limit movie ;;
  Ok (PyDict [("id", id); ("title", title); ("release_date", release_date);
              ("vote_average", vote_average); ("overview", overview)]).

(** The block "Filter to only essential fields", which the five list
    tools share word for word except for the overview limit. *)
Definition filter_results (limit : nat) (response : value) : result value :=
  has_results <- py_in "results" response ;;
  if has_results : bool
  then
    results <- py_getitem response "results" ;;
    top <- py_slice 5 results ;;
    movies <- py_iter top ;;
    filtered_results <- mapR (filter_movie limit) movies ;;
    total <- py_get response "total_results" (PyInt 0) ;;
    total_results <- py_min5 total ;;
    Ok (PyDict [("results", PyList filtered_results);
                ("total_results", total_results)])
  else Ok response.

Definition tmdb : string := "https://api.themoviedb.org/3".

Definition search_movies (query : string) (page : Z) : M value :=
  response <~ requests_get_json (tmdb +:+ "/search/movie")
    [("api_key", API_KEY); ("query", PyStr query); ("page", PyInt page);
     ("language", PyStr "en-US")] ;;
  liftR (filter_results 200 response).

Definition discover_movies (genre_id : option Z) (sort_by : string) (page : Z)
  : M value :=
  let params :=
    [("api_key", API_KEY); ("language", PyStr "en-US");
     ("sort_by", PyStr sort_by); ("page", PyInt page);
     ("include_adult", PyBool false)] in
  let params :=
    match genre_id with
    | Some g => if (g =? 0)%Z then params
                else params ++ [("with_genres", PyInt g)]
    | None => params
    end in
  response <~ requests_get_json (tmdb +:+ "/discover/movie") params ;;
  liftR (filter_results 150 response).

Definition get_movie_lists (list_type : string) (page : Z) : M value :=
  response <~ requests_get_json (tmdb +:+ "/movie/" +:+ list_type)
    [("api_key", API_KEY); ("language", PyStr "en-US"); ("page", PyInt page)] ;;
  liftR (filter_results 150 response).

Definition get_trending_movies (time_window : string) (page : Z) : M value :=
  response <~ requests_get_json (tmdb +:+ "/trending/movie/" +:+ time_window)
    [("api_key", API_KEY); ("page", PyInt page)] ;;
  liftR (filter_results 150 response).

Definition get_movie_recommendations (movie_id : Z) (page : Z) : M value :=
  response <~ requests_get_json
    (tmdb +:+ "/movie/" +:+ str_int movie_id +:+ "/recommendations")
    [("api_key", API_KEY); ("language", PyStr "en-US"); ("page", PyInt page)] ;;
  liftR (filter_results 150 response).

(** [[person['name'] for person in crew if person['job'] == 'Director']]. *)
Fixpoint directors_of (crew : list value) : result (list value) :=
  match crew with
  | [] => Ok []
  | person :: rest =>
      job <- py_getitem person "job" ;;
      if py_eq_str job "Director"
      then (n <- py_getitem person "name" ;;
            ds <- directors_of rest ;; Ok (n :: ds))
      else directors_of rest
  end.

Definition cast_entry (person : value) : result value :=
  n <- py_getitem person "name" ;;
  c <- py_getitem person "character" ;;
  Ok (PyDict [("name", n); ("character", c)]).

(** The body of [get_movie_details] after the request (lines 77-108). *)
Definition filter_details (response : value) : result value :=
  id <- py_get response "id" PyNone ;;
  title <- py_get response "title" PyNone ;;
  overview <- py_get response "overview" PyNone ;;
  release_date <- py_get response "release_date" PyNone ;;
  runtime <- py_get response "runtime" PyNone ;;
  vote_average <- py_get response "vote_average" PyNone ;;
  vote_count <- py_get response "vote_count" PyNone ;;
  budget <- py_get response "budget" PyNone ;;
  revenue <- py_get response "revenue" PyNone ;;
  gs <- py_get response "genres" (PyList []) ;;
  gl <- py_iter gs ;;
  genres <- mapR (fun genre => py_getitem genre "name") gl ;;
  let filtered_response :=
    [("id", id); ("title", title); ("overview", overview);
     ("release_date", release_date); ("runtime", runtime);
     ("vote_average", vote_average); ("vote_count", vote_count);
     ("budget", budget); ("revenue", revenue); ("genres", PyList genres)] in
  has_credits <- py_in "credits" response ;;
  if has_credits : bool
  then
    credits <- py_getitem response "credits" ;;
    cs <- py_get credits "cast" (PyList []) ;;
    top <- py_slice 10 cs ;;
    cl <- py_iter top ;;
    cast <- mapR cast_entry cl ;;
    let filtered_response := dict_set "cast" (PyList cast) filtered_response in
    crew <- py_get credits "crew" (PyList []) ;;
    crl <- py_iter crew ;;
    directors <- directors_of crl ;;
    let director := match directors with d :: _ => d | [] => PyNone end in
    Ok (PyDict (dict_set "director" director filtered_response))
  else Ok (PyDict filtered_response).

Definition get_movie_details (movie_id : Z) (append_credits : bool) : M value :=
  let params := [("api_key", API_KEY); ("language", PyStr "en-US")] in
  let params :=
    if append_credits
    then dict_set "append_to_response" (PyStr "credits") params
    else params in
  response <~ requests_get_json (tmdb +:+ "/movie/" +:+ str_int movie_id)
    params ;;
  liftR (filter_details response).

(** The request of [get_watch_providers] (lines 364-370): built from
    [movie_id] alone. *)
Definition watch_providers_request (movie_id : Z) : Request :=
  mkRequest (tmdb +:+ "/movie/" +:+ str_int movie_id +:+ "/watch/providers")
            [("api_key", API_KEY); ("language", PyStr "en-US")].

(** [[provider['provider_name'] for provider in providers_data[kind]]],
    stored under [key] when [kind] is in [providers_data]. *)
Definition set_provider_names (kind key : string) (providers_data : value)
    (formatted_response : list (string * value))
  : result (list (string * value)) :=
  present <- py_in kind providers_data ;;
  if present : bool
  then
    ps <- py_getitem providers_data kind ;;
    pl <- py_iter ps ;;
    names <- mapR (fun provider => py_getitem provider "provider_name") pl ;;
    Ok (dict_set key (PyList names) formatted_response)
  else Ok formatted_response.

(** The body of [get_watch_providers] after the request (lines 372-414). *)
Definition format_providers (movie_id : Z) (region : string) (response : value)
  : result value :=
  has_results <- py_in "results" response ;;
  has_region <-
    (if has_results : bool
     then (results <- py_getitem response "results" ;; py_in region results)
     else Ok false) ;;
  if has_region : bool
  then
    results <- py_getitem response "results" ;;
    providers_data <- py_getitem results region ;;
    link <- py_get providers_data "link" (PyStr "") ;;
    let formatted_response :=
      [("movie_id", PyInt movie_id); ("region", PyStr region);
       ("streaming", PyList []); ("rent", PyList []); ("buy", PyList []);
       ("link", link)] in
    f1 <- set_provider_names "flatrate" "streaming" providers_data
            formatted_response ;;
    f2 <- set_provider_names "rent" "rent" providers_data f1 ;;
    f3 <- set_provider_names "buy" "buy" providers_data f2 ;;
    Ok (PyDict f3)
  else
    Ok (PyDict
          [("movie_id", PyInt movie_id); ("region", PyStr region);
           ("streaming", PyList []); ("rent", PyList []); ("buy", PyList []);
           ("message",
            PyStr ("No streaming information available for this movie in "
                   +:+ region));
           ("link", PyStr "")]).

Definition get_watch_providers (movie_id : Z) (region : string) : M value :=
  let req := watch_providers_request movie_id in
  response <~ requests_get_json (url req) (params req) ;;
  liftR (format_providers movie_id region response).

(* ===================================================================== *)
(** ** agent.py *)
(* ===================================================================== *)

(** *** The tools as the tool node sees them

    [@tool(parse_docstring=True)] turns each function into a tool with a
    name and an argument schema read off its signature; a call carries a
    dict of arguments, which is checked against the schema and completed
    with the defaults of the signature before the function runs.  A
    missing required argument is a validation error, and so is a value
    the schema of the parameter does not take. *)

Definition arg_int (args : list (string * value)) (k : string)
    (default : option Z) : result Z :=
  match assoc k args with
  | Some v => schema_int v
  | None =>
      match default with
      | Some z => Ok z
      | None => Raise ValidationError
      end
  end.

Definition arg_str (args : list (string * value)) (k : string)
    (default : option string) : result string :=
  match assoc k args with
  | Some v => schema_str v
  | None =>
      match default with
      | Some s => Ok s
      | None => Raise ValidationError
      end
  end.

Definition arg_bool (args : list (string * value)) (k : string)
    (default : bool) : result bool :=
  match assoc k args with
  | Some v => schema_bool v
  | None => Ok default
  end.

(** [genre_id: int = None]. *)
Definition arg_opt_int (args : list (string * value)) (k : string)
  : result (option Z) :=
  match assoc k args with
  | Some v => schema_opt_int v
  | None => Ok None
  end.

Definition Tool : Type := list (string * value) -> M value.

Definition tool_get_watch_providers : Tool := fun args =>
  movie_id <~ liftR (arg_int args "movie_id" None) ;;
  region <~ liftR (arg_str args "region" (Some "US")) ;;
  get_watch_providers movie_id region.

Definition tool_search_movies : Tool := fun args =>
  query <~ liftR (arg_str args "query" None) ;;
  page <~ liftR (arg_int args "page" (Some 1%Z)) ;;
  search_movies query page.

Definition tool_get_movie_details : Tool := fun args =>
  movie_id <~ liftR (arg_int args "movie_id" None) ;;
  append_credits <~ liftR (arg_bool args "append_credits" true) ;;
  get_movie_details movie_id append_credits.

Definition tool_discover_movies : Tool := fun args =>
  genre_id <~ liftR (arg_opt_int args "genre_id") ;;
  sort_by <~ liftR (arg_str args "sort_by" (Some "popularity.desc")) ;;
  page <~ liftR (arg_int args "page" (Some 1%Z)) ;;
  discover_movies genre_id sort_by page.

Definition tool_get_movie_lists : Tool := fun args =>
  list_type <~ liftR (arg_str args "list_type" (Some "popular")) ;;
  page <~ liftR (arg_int args "page" (Some 1%Z)) ;;
  get_movie_lists list_type page.

Definition tool_get_movie_recommendations : Tool := fun args =>
  movie_id <~ liftR (arg_int args "movie_id" None) ;;
  page <~ liftR (arg_int args "page" (Some 1%Z)) ;;
  get_movie_recommendations movie_id page.

Definition tool_get_trending_movies : Tool := fun args =>
  time_window <~ liftR (arg_str args "time_window" (Some "day")) ;;
  page <~ liftR (arg_int args "page" (Some 1%Z)) ;;
  get_trending_movies time_window page.

(** The list given to [ToolNode] (agent.py, lines 81-82), in its order. *)
Definition tools : list (string * Tool) :=
  [("get_watch_providers", tool_get_watch_providers);
   ("search_movies", tool_search_movies);
   ("get_movie_details", tool_get_movie_details);
   ("discover_movies", tool_discover_movies);
   ("get_movie_lists", tool_get_movie_lists);
   ("get_movie_recommendations", tool_get_movie_recommendations);
   ("get_trending_movies", tool_get_trending_movies)].

Fixpoint tools_by_name (registry : list (string * Tool)) (name : string)
  : option Tool :=
  match registry with
  | [] => None
  | (n, t) :: rest => if String.eqb name n then Some t else tools_by_name rest name
  end.

(** Invoking a tool with the argument mapping of a call. *)
Definition invoke_tool (t : Tool) (args : value) : M value :=
  match args with
  | PyDict items => t items
  | _ => liftR (Raise ValidationError)
  end.

Definition newline : string := String (ascii_of_nat 10) EmptyString.

Definition tool_error_content (e : exn) : string :=
  "Error: " +:+ exn_repr e +:+ newline +:+ " Please fix your mistakes.".

Definition invalid_tool_content (requested : string) : string :=
  "Error: " +:+ requested +:+ " is not a valid tool, try one of [" +:+
  String.concat ", " (map fst tools) +:+ "].".

(** Modelled from the spec: [ToolNode] is the prebuilt tool node of the
    LangGraph library, whose code is not part of the repository; agent.py
    only constructs it with the list of tools (lines 81-82).  Section 4.3
    of the specification describes what it does with one request: the
    capability is invoked and the outcome, success or failure, is wrapped
    in a capability-result message that carries the identifier of the
    request.  A failure is the message with status [error] whose content
    is the library's error text; an unknown tool name is such a failure
    too. *)
Definition run_one (call : ToolCall) : M Message :=
  match tools_by_name tools (tc_name call) with
  | None =>
      retM (ToolMessage (invalid_tool_content (tc_name call))
                        (tc_name call) (tc_id call) "error")
  | Some t =>
      fun s =>
        match invoke_tool t (tc_args call) s with
        | (s', Ok v) =>
            (s', Ok (ToolMessage (json_dumps v)
                                 (tc_name call) (tc_id call) "success"))
        | (s', Raise e) =>
            (s', Ok (ToolMessage (tool_error_content e)
                                 (tc_name call) (tc_id call) "error"))
        end
  end.

Fixpoint mapM {A B} (f : A -> M B) (l : list A) : M (list B) :=
  match l with
  | [] => retM []
  | x :: xs => y <~ f x ;; ys <~ mapM f xs ;; retM (y :: ys)
  end.

(** The state of the graph, [ChatState]: its one key [messages]. *)
Definition ChatState : Type := list Message.

(** Modelled from the spec: the node [tools] of the graph is the
    library's [ToolNode] applied to the state.  It reads the pending
    requests of the last message, which has to be an assistant message,
    runs them in the order they were requested and returns the resulting
    messages in that order. *)
Definition tool_node (state : ChatState) : M (list Message) :=
  match last state with
  | Some (AIMessage _ calls) => mapM run_one calls
  | _ => liftR (Raise ValueError)
  end.

(** [system_prompt] (agent.py, lines 16-38), line by line. *)
Definition dq : string := String (ascii_of_nat 34) EmptyString.

Definition system_prompt_lines : list string :=
  ["You are a Movie Assistant AI with access to TMDB movie database tools.";
   "";
   "Available Tools:";
   "- search_movies: Find movies by title";
   "- get_movie_details: Get full movie info (cast, crew, ratings)  ";
   "- discover_movies: Find movies by genre/popularity";
   "- get_movie_lists: Get popular/top-rated/trending lists";
   "- get_movie_recommendations: Get similar movies";
   "- get_trending_movies: Get current trending films";
   "- get_watch_providers: Find where to watch/stream movies";
   "";
   "Genres: Action(28), Comedy(35), Drama(18), Horror(27), Romance(10749), Sci-Fi(878), etc.";
   "";
   "Guidelines:";
   "- Use multiple tools for complete answers if needed";
   "- Be conversational and engaging";
   "- Provide cast, ratings, and plot when relevant";
   "- Offer recommendations when appropriate";
   "- Format responses clearly with key details";
   "- For " +:+ dq +:+ "where to watch" +:+ dq +:+
     " queries: search_movies → get_watch_providers";
   "- Don't answer if not related to your task, then explain why you can't answer this.";
   "";
   "Examples: 1. " +:+ dq +:+ "popular/ trending movies?" +:+ dq +:+
     " → get_trending_movies. 2. For " +:+ dq +:+
     "Where can I watch Inception?" +:+ dq +:+
     " → search_movies → get_watch_providers"].

Definition system_prompt : Message :=
  SystemMessage (String.concat newline system_prompt_lines).

(** [llm.invoke(messages)]: one call of the chat model with the tools
    bound (lines 49-56); the reply is an assistant message. *)
Definition llm_invoke (messages : list Message) : M Message :=
  fun s =>
    let (w', r) := remote_llm (world s) messages in
    let s' := mkSys w' (events s ++ [EvModelCall messages]) in
    match r with
    | Ok (content, calls) => (s', Ok (AIMessage content calls))
    | Raise e => (s', Raise e)
    end.

(** [llm_node] (lines 61-63): the update it returns for [messages]. *)
Definition llm_node (state : ChatState) : M (list Message) :=
  response <~ llm_invoke ([system_prompt] ++ state) ;;
  retM [response].

(** [should_continue] (lines 66-72): [state['messages'][-1]] needs a
    non-empty list and [.tool_calls] an assistant message. *)
Definition should_continue (state : ChatState) : result string :=
  match last state with
  | None => Raise IndexError
  | Some (AIMessage _ calls) =>
      match calls with
      | [] => Ok "end"
      | _ :: _ => Ok "continue"
      end
  | Some _ => Raise AttributeError
  end.

(** The reducer of [messages], [add_messages]: the update is appended.
    (The library replaces a message in place when the update carries the
    identifier of a stored message; messages carry no identifier here,
    which is the case the library treats as all fresh.) *)
Definition add_messages (left right : list Message) : list Message :=
  left ++ right.

(** The graph of lines 94-102: nodes [llm] and [tools], the edges
    [START -> llm] and [tools -> llm], and the conditional edges of [llm]
    chosen by [should_continue]. *)
Inductive Node : Type := START | N_llm | N_tools | END.

Definition conditional_edges (branch : string) : result Node :=
  if String.eqb branch "continue" then Ok N_tools
  else if String.eqb branch "end" then Ok END
  else Raise (KeyError branch).

(** One move of the compiled graph: run the node, merge its update into
    the state, follow the edge.  The runtime that walks the graph is the
    library's; the moves are those of the wiring above, which section 4.3
    of the specification describes as the transitions of the loop. *)
Definition step (n : Node) (state : ChatState) : M (Node * ChatState) :=
  match n with
  | START => retM (N_llm, state)
  | N_llm =>
      update <~ llm_node state ;;
      let state' := add_messages state update in
      branch <~ liftR (should_continue state') ;;
      next <~ liftR (conditional_edges branch) ;;
      retM (next, state')
  | N_tools =>
      update <~ tool_node state ;;
      retM (N_llm, add_messages state update)
  | END => retM (END, state)
  end.

(** Modelled from the spec: running the graph from a node with [steps]
    steps left.  The loop that walks the graph is the library's, whose
    code is not part of the repository.  Section 4.3 of the
    specification asks for a bound on the round trips of a turn and
    section 7 for an outcome of its own when the bound is hit; in the
    program the bound is the library's recursion limit and the outcome
    its [GraphRecursionError].  At each step the runtime first checks the
    limit, raising the error when the steps are used up, then looks
    whether anything is left to do, and if so runs the node.  The source
    sets no limit of its own. *)
Fixpoint run (steps : nat) (n : Node) (state : ChatState) : M ChatState :=
  match steps with
  | O => liftR (Raise GraphRecursionError)
  | S steps' =>
      match n with
      | END => retM state
      | _ =>
          next <~ step n state ;;
          run steps' (fst next) (snd next)
      end
  end.

(** [graph.invoke(state)]: the entry step, and then the steps the
    library's default limit allows. *)
Definition graph_invoke (state : ChatState) : M ChatState :=
  run (S recursion_limit) START state.

(* ===================================================================== *)
(** ** main.py *)
(* ===================================================================== *)

(** [ChatMessage] (lines 95-98). *)
Record ChatMessage : Type := mkChatMessage {
  role : string;
  cm_content : string;
  timestamp : Time
}.

(** Python lists are objects: two names may refer to the same list, and
    [append] through one is seen through the other.  The lists of graph
    messages live in a heap and are referred to by location. *)
Definition loc : Type := positive.

(** A session of [chat_sessions] (lines 148-153).  The dict under
    ['state'] has the one key ['messages']; [s_state] is the location of
    the list that key refers to. *)
Record Session : Type := mkSession {
  s_messages : list ChatMessage;
  s_created_at : Time;
  s_last_activity : Time;
  s_state : loc
}.

(** [ChatResponse] (lines 104-108). *)
Record ChatResponse : Type := mkChatResponse {
  cr_response : string;
  cr_session_id : string;
  cr_message_id : string;
  cr_timestamp : Time
}.

(** The process: the global [chat_sessions], the heap of message lists,
    and the outside. *)
Record Server : Type := mkServer {
  chat_sessions : gmap string Session;
  heap : gmap loc (list Message);
  sys : Sys
}.

Definition now (srv : Server) : Server * Time :=
  let (w', t) := datetime_now (world (sys srv)) in
  (mkServer (chat_sessions srv) (heap srv) (mkSys w' (events (sys srv))), t).

Definition new_uuid (srv : Server) : Server * string :=
  let (w', u) := uuid4 (world (sys srv)) in
  (mkServer (chat_sessions srv) (heap srv) (mkSys w' (events (sys srv))), u).

Definition set_session (sid : string) (session : Session) (srv : Server)
  : Server :=
  mkServer (<[sid := session]> (chat_sessions srv)) (heap srv) (sys srv).

(** The list a location refers to. *)
Definition deref (srv : Server) (l : loc) : list Message :=
  default [] (heap srv !! l).

(** A new list object holding [ms]. *)
Definition alloc (ms : list Message) (srv : Server) : Server * loc :=
  let l := fresh (dom (heap srv)) in
  (mkServer (chat_sessions srv) (<[l := ms]> (heap srv)) (sys srv), l).

(** [l.append(m)] on the list object at [l]. *)
Definition list_append (l : loc) (m : Message) (srv : Server) : Server :=
  mkServer (chat_sessions srv) (<[l := deref srv l ++ [m]]> (heap srv))
           (sys srv).

(** [session_id and session_id in chat_sessions] (line 141). *)
Definition known_session (session_id : option string) (srv : Server)
  : option string :=
  match session_id with
  | Some sid =>
      if negb (String.eqb sid "") &&
         bool_decide (is_Some (chat_sessions srv !! sid))
      then Some sid else None
  | None => None
  end.

(** [get_or_create_session] (lines 139-154). *)
Definition get_or_create_session (session_id : option string) (srv : Server)
  : Server * string :=
  match known_session session_id srv with
  | Some sid =>
      let (srv1, t) := now srv in
      match chat_sessions srv1 !! sid with
      | Some session =>
          (set_session sid
             (mkSession (s_messages session) (s_created_at session) t
                        (s_state session)) srv1, sid)
      | None => (srv1, sid)
      end
  | None =>
      let (srv1, new_session_id) := new_uuid srv in
      let (srv2, created) := now srv1 in
      let (srv3, active) := now srv2 in
      let (srv4, l) := alloc [] srv3 in
      (set_session new_session_id (mkSession [] created active l) srv4,
       new_session_id)
  end.

Definition message_content (m : Message) : string :=
  match m with
  | SystemMessage c => c
  | HumanMessage c => c
  | AIMessage c _ => c
  | ToolMessage c _ _ _ => c
  end.

(** What [/chat] raises for an exception that is not an [HTTPException]
    (lines 285-287). *)
Definition internal_server_error (e : exn) : exn :=
  HTTPException 500 ("Internal server error: " +:+ exn_str e).

(** What [run_agent_async] raises when [graph.invoke] raises (lines
    162-164). *)
Definition agent_processing_failed (e : exn) : exn :=
  HTTPException 500 ("Agent processing failed: " +:+ exn_str e).

(** [session['messages'].append(ChatMessage(role=..., content=...).dict())]
    on the session stored under [sid]. *)
Definition log_message (sid : string) (r c : string) (srv : Server) : Server :=
  let (srv1, t) := now srv in
  match chat_sessions srv1 !! sid with
  | Some session =>
      set_session sid
        (mkSession (s_messages session ++ [mkChatMessage r c t])
                   (s_created_at session) (s_last_activity session)
                   (s_state session)) srv1
  | None => srv1
  end.

(** [chat_with_agent] (lines 237-287). *)
Definition chat_with_agent (session_id : option string) (message : string)
    (srv : Server) : Server * result ChatResponse :=
  let (srv, sid) := get_or_create_session session_id srv in
  match chat_sessions srv !! sid with
  | None => (srv, Raise (internal_server_error (KeyError sid)))
  | Some session =>
      (* add user message to session *)
      let srv := log_message sid "user" message srv in
      (* agent_state = session['state'].copy(): a new dict whose key
         'messages' refers to the same list as session['state'] *)
      let agent_messages := s_state session in
      let srv := list_append agent_messages (HumanMessage message) srv in
      (* result = await run_agent_async(agent_state) *)
      match graph_invoke (deref srv agent_messages) (sys srv) with
      | (sys', Raise e) =>
          (mkServer (chat_sessions srv) (heap srv) sys',
           Raise (agent_processing_failed e))
      | (sys', Ok result) =>
          let srv := mkServer (chat_sessions srv) (heap srv) sys' in
          match last result with
          | None => (srv, Raise (internal_server_error IndexError))
          | Some last_message =>
              let ai_response := message_content last_message in
              (* session['state'] = result *)
              let (srv, l) := alloc result srv in
              let srv :=
                match chat_sessions srv !! sid with
                | Some session =>
                    set_session sid
                      (mkSession (s_messages session) (s_created_at session)
                                 (s_last_activity session) l) srv
                | None => srv
                end in
              let srv := log_message sid "assistant" ai_response srv in
              let (srv, t) := now srv in
              let srv :=
                match chat_sessions srv !! sid with
                | Some session =>
                    set_session sid
                      (mkSession (s_messages session) (s_created_at session) t
                                 (s_state session)) srv
                | None => srv
                end in
              let (srv, message_id) := new_uuid srv in
              let (srv, t') := now srv in
              (srv, Ok (mkChatResponse ai_response sid message_id t'))
          end
      end
  end.

(* ===================================================================== *)
(** ** agent.py, the rest *)
(* ===================================================================== *)

(** [router] (lines 75-78): [getattr(last_message, 'tool_calls', None)]
    is [None] for a message that is not an assistant message. *)
Definition router (state : ChatState) : result string :=
  match last state with
  | None => Raise IndexError
  | Some (AIMessage _ (_ :: _)) => Ok "tools"
  | Some _ => Ok "end"
  end.

(** [tools_node] (lines 85-91): the messages of the state followed by
    those the tool node returns. *)
Definition tools_node (state : ChatState) : M (list Message) :=
  result <~ tool_node state ;;
  retM (state ++ result).

(** [str.lower()] on the letters A to Z; the other characters are left
    as they are (none of them lowercases to a letter of ['quit'], which
    is all the result is compared with). *)
Definition lower_char (c : ascii) : ascii :=
  let n := nat_of_ascii c in
  if (65 <=? n) && (n <=? 90) then ascii_of_nat (n + 32) else c.

Fixpoint str_lower (s : string) : string :=
  match s with
  | EmptyString => EmptyString
  | String c s' => String (lower_char c) (str_lower s')
  end.

(** How the command-line loop of lines 114-134 ends: the user typed
    [quit], the input was exhausted ([input] raises), or a turn raised. *)
Inductive ReplEnd : Type :=
| ReplQuit
| ReplEndOfInput
| ReplCrashed (e : exn).

Record Repl : Type := mkRepl {
  repl_messages : ChatState;
  repl_stdout : list string;
  repl_end : ReplEnd
}.

(** [print('Type an instruction or "quit".\n')]. *)
Definition banner : string :=
  "Type an instruction or " +:+ dq +:+ "quit" +:+ dq +:+ "." +:+ newline
  +:+ newline.

(** [print(content, '\n')]. *)
Definition printed (content : string) : string :=
  content +:+ " " +:+ newline +:+ newline.

(** The [while True] loop over the lines the user types. *)
Fixpoint repl_loop (inputs : list string) (state : ChatState)
    (stdout : list string) (s : Sys) : Sys * Repl :=
  let stdout := stdout ++ ["> "] in
  match inputs with
  | [] => (s, mkRepl state stdout ReplEndOfInput)
  | user_message :: rest =>
      if String.eqb (str_lower user_message) "quit"
      then (s, mkRepl state stdout ReplQuit)
      else
        let state := state ++ [HumanMessage user_message] in
        match graph_invoke state s with
        | (s', Raise e) => (s', mkRepl state stdout (ReplCrashed e))
        | (s', Ok result) =>
            match last result with
            | None => (s', mkRepl result stdout (ReplCrashed IndexError))
            | Some m =>
                repl_loop rest result
                          (stdout ++ [printed (message_content m)]) s'
            end
        end
  end.

(** The program run as a script, on the lines of its standard input. *)
Definition repl (inputs : list string) (s : Sys) : Sys * Repl :=
  repl_loop inputs [] [banner] s.

(* ===================================================================== *)
(** ** main.py, the rest *)
(* ===================================================================== *)

(** [HTTPException(status_code=404, detail="Session not found")]. *)
Definition session_not_found : exn := HTTPException 404 "Session not found".

(** [get_session_messages] (lines 303-310). *)
Definition get_session_messages (session_id : string) (srv : Server)
  : result (list ChatMessage) :=
  match chat_sessions srv !! session_id with
  | None => Raise session_not_found
  | Some session => Ok (s_messages session)
  end.

(** [delete_session] (lines 312-320). *)
Definition delete_session (session_id : string) (srv : Server)
  : Server * result value :=
  match chat_sessions srv !! session_id with
  | None => (srv, Raise session_not_found)
  | Some _ =>
      (mkServer (delete session_id (chat_sessions srv)) (heap srv) (sys srv),
       Ok (PyDict [("message",
                    PyStr ("Session " +:+ session_id +:+
                           " deleted successfully"))]))
  end.

(** [clear_all_sessions] (lines 322-327). *)
Definition clear_all_sessions (srv : Server) : Server * result value :=
  (mkServer ∅ (heap srv) (sys srv),
   Ok (PyDict [("message", PyStr "All sessions cleared")])).

(** [reset_session] (lines 329-340): an empty log, a new state dict
    with a new empty list, the time of the reset. *)
Definition reset_session (session_id : string) (srv : Server)
  : Server * result value :=
  match chat_sessions srv !! session_id with
  | None => (srv, Raise session_not_found)
  | Some session =>
      let (srv1, l) := alloc [] srv in
      let (srv2, t) := now srv1 in
      (set_session session_id
         (mkSession [] (s_created_at session) t l) srv2,
       Ok (PyDict [("message",
                    PyStr ("Session " +:+ session_id +:+
                           " reset successfully"))]))
  end.

(** The body shared by the movie endpoints (lines 343-453):
    [try: return tool.invoke(args)] and, for any exception [e],
    [raise HTTPException(status_code=500, detail=str(e))]. *)
Definition movie_endpoint (t : Tool) (args : list (string * value)) : M value :=
  fun s =>
    match invoke_tool t (PyDict args) s with
    | (s', Ok v) => (s', Ok v)
    | (s', Raise e) => (s', Raise (HTTPException 500 (exn_str e)))
    end.

Definition search_movies_endpoint (query : string) : M value :=
  movie_endpoint tool_search_movies [("query", PyStr query)].

Definition get_popular_movies : M value :=
  movie_endpoint tool_get_movie_lists [("list_type", PyStr "popular")].

Definition get_top_rated_movies : M value :=
  movie_endpoint tool_get_movie_lists [("list_type", PyStr "top_rated")].

Definition get_now_playing_movies : M value :=
  movie_endpoint tool_get_movie_lists [("list_type", PyStr "now_playing")].

Definition get_upcoming_movies : M value :=
  movie_endpoint tool_get_movie_lists [("list_type", PyStr "upcoming")].

Definition get_movie_details_endpoint (movie_id : Z) : M value :=
  movie_endpoint tool_get_movie_details [("movie_id", PyInt movie_id)].

Definition get_watch_providers_endpoint (movie_id : Z) (region : string)
  : M value :=
  movie_endpoint tool_get_watch_providers
    [("movie_id", PyInt movie_id); ("region", PyStr region)].

Definition get_movie_recommendations_endpoint (movie_id : Z) : M value :=
  movie_endpoint tool_get_movie_recommendations [("movie_id", PyInt movie_id)].

Definition get_trending_movies_endpoint (time_window : string) : M value :=
  movie_endpoint tool_get_trending_movies [("time_window", PyStr time_window)].

End MovieAgent.

Notation "x <~ c1 ;; c2" := (bindM c1 (fun x => c2))
  (at level 100, c1 at next level, right associativity).

(* ===================================================================== *)
(** ** Concrete environments for examples *)
(* ===================================================================== *)

Module Stub.

(** A plain rendering of values, standing for [json.dumps]. *)
Fixpoint render (v : value) : string :=
  match v with
  | PyNone => "null"
  | PyBool true => "true"
  | PyBool false => "false"
  | PyInt z => str_int z
  | PyFloat q => str_int (Qnum q) +:+ "/" +:+ str_int (Zpos (Qden q))
  | PyStr s => "'" +:+ s +:+ "'"
  | PyList l => "[" +:+ String.concat ", " (map render l) +:+ "]"
  | PyDict items =>
      "{" +:+
      String.concat ", "
        (map (fun kv : string * value =>
                let (k, x) := kv in "'" +:+ k +:+ "': " +:+ render x)
             items) +:+ "}"
  end.

Definition class_name (e : exn) : string :=
  match e with
  | TypeError => "TypeError"
  | KeyError k => "KeyError: " +:+ k
  | AttributeError => "AttributeError"
  | IndexError => "IndexError"
  | ValueError => "ValueError"
  | ValidationError => "ValidationError"
  | ConnectionError => "ConnectionError"
  | JSONDecodeError => "JSONDecodeError"
  | ProviderError what => what
  | GraphRecursionError => "Recursion limit reached"
  | HTTPException _ detail => detail
  end.

(** An argument schema that takes the values of the annotated type and
    no others. *)
Definition strict_int (v : value) : result Z :=
  match v with
  | PyInt z => Ok z
  | _ => Raise ValidationError
  end.

Definition strict_str (v : value) : result string :=
  match v with
  | PyStr s => Ok s
  | _ => Raise ValidationError
  end.

Definition strict_bool (v : value) : result bool :=
  match v with
  | PyBool b => Ok b
  | _ => Raise ValidationError
  end.

Definition strict_opt_int (v : value) : result (option Z) :=
  match v with
  | PyInt z => Ok (Some z)
  | _ => Raise ValidationError
  end.

(** An environment from a chat model and a data provider that answer
    each call from its arguments alone; the world is a counter that the
    clock and the uuid generator advance. *)
Definition make (llm : list Message -> result (string * list ToolCall))
    (http : Request -> HttpOutcome) : Environment :=
  {| World := nat;
     remote_llm := fun w ms => (w, llm ms);
     remote_http := fun w r => (w, http r);
     datetime_now := fun w => (S w, Z.of_nat w);
     uuid4 := fun w => (S w, "session-" +:+ str_int (Z.of_nat w));
     API_KEY := PyStr "key";
     recursion_limit := 25;
     json_dumps := render;
     exn_repr := class_name;
     exn_str := class_name;
     schema_int := strict_int;
     schema_str := strict_str;
     schema_bool := strict_bool;
     schema_opt_int := strict_opt_int;
     schema_int_exact := fun _ => eq_refl;
     schema_str_exact := fun _ => eq_refl;
     schema_bool_exact := fun _ => eq_refl;
     schema_opt_int_exact := fun _ => eq_refl |}.

Definition search_call : ToolCall :=
  mkToolCall "search_movies" (PyDict [("query", PyStr "Inception")]) "call_1".

Definition providers_call : ToolCall :=
  mkToolCall "get_watch_providers" (PyDict [("movie_id", PyInt 27205)])
             "call_2".

Definition details_call : ToolCall :=
  mkToolCall "get_movie_details" (PyDict [("movie_id", PyInt 27205)])
             "call_3".

(** The stub client of the specification: one request on every call. *)
Definition always_requests (ms : list Message)
  : result (string * list ToolCall) :=
  Ok ("", [search_call]).

(** A chat model that cannot be reached. *)
Definition unavailable (ms : list Message) : result (string * list ToolCall) :=
  Raise (ProviderError "service unavailable").

(** A chat model that answers at once. *)
Definition answers_directly (ms : list Message)
  : result (string * list ToolCall) :=
  Ok ("I can only help with movies.", []).

Definition is_tool_message (m : Message) : bool :=
  match m with
  | ToolMessage _ _ _ _ => true
  | _ => false
  end.

(** The scenario of the specification: search, then watch providers,
    then the answer. *)
Definition inception_client (ms : list Message)
  : result (string * list ToolCall) :=
  match length (filter (fun m => is_tool_message m = true) ms) with
  | 0 => Ok ("", [search_call])
  | 1 => Ok ("", [providers_call])
  | _ => Ok ("Inception streams on Netflix.", [])
  end.

(** Two requests in one reply, then the answer. *)
Definition two_calls_client (ms : list Message)
  : result (string * list ToolCall) :=
  match length (filter (fun m => is_tool_message m = true) ms) with
  | 0 => Ok ("", [search_call; providers_call])
  | _ => Ok ("Here you are.", [])
  end.

Definition long_overview : string :=
  "Cobb, a skilled thief who commits corporate espionage by infiltrating " +:+
  "the subconscious of his targets is offered a chance to regain his old " +:+
  "life as payment for a task considered to be impossible: inception, the " +:+
  "implantation of another person's idea into a target's subconscious.".

Definition movie (id : Z) (title overview : string) : value :=
  PyDict [("adult", PyBool false); ("id", PyInt id); ("title", PyStr title);
          ("overview", PyStr overview); ("release_date", PyStr "2010-07-15");
          ("vote_average", PyFloat (84 # 10))].

Definition search_body : value :=
  PyDict [("page", PyInt 1);
          ("results",
           PyList [movie 27205 "Inception" long_overview;
                   movie 64956 "Inception: The Cobol Job" "A prequel.";
                   movie 3 "Three" ""; movie 4 "Four" ""; movie 5 "Five" "";
                   movie 6 "Six" ""; movie 7 "Seven" ""]);
          ("total_pages", PyInt 1); ("total_results", PyInt 7)].

Definition providers_body : value :=
  PyDict [("id", PyInt 27205);
          ("results",
           PyDict [("US",
                    PyDict [("link", PyStr "https://www.themoviedb.org/movie/27205/watch");
                            ("flatrate",
                             PyList [PyDict [("provider_id", PyInt 8);
                                             ("provider_name", PyStr "Netflix")]]);
                            ("rent",
                             PyList [PyDict [("provider_id", PyInt 2);
                                             ("provider_name", PyStr "Apple TV")];
                                     PyDict [("provider_id", PyInt 10);
                                             ("provider_name", PyStr "Amazon Video")]])])])].

(** The error body TMDB sends with status 404. *)
Definition not_found_body : value :=
  PyDict [("success", PyBool false); ("status_code", PyInt 34);
          ("status_message",
           PyStr "The resource you requested could not be found.")].

Definition ends_with (suffix s : string) : bool :=
  let n := String.length s in
  let k := String.length suffix in
  String.eqb (substring (n - k) k s) suffix.

(** A provider that knows one film. *)
Definition tmdb_api (r : Request) : HttpOutcome :=
  if ends_with "/watch/providers" (url r)
  then HttpResponse 200 (Some providers_body)
  else HttpResponse 200 (Some search_body).

(** A provider that answers every request with 404 and the error body. *)
Definition not_found_api (r : Request) : HttpOutcome :=
  HttpResponse 404 (Some not_found_body).

(** A gateway in front of the provider that answers with a page that
    is not JSON. *)
Definition bad_gateway (r : Request) : HttpOutcome := HttpResponse 502 None.

(** A provider that cannot be reached. *)
Definition offline (r : Request) : HttpOutcome := NoResponse.

Definition start (e : Environment) (w : @World e) : @Sys e := @mkSys e w [].

(** A server with one session ["s1"] that holds one finished turn. *)
Definition earlier_turn : list Message :=
  [HumanMessage "Hello"; AIMessage "Hi! Ask me about movies." []].

Definition one_session (e : Environment) (w : @World e) : @Server e :=
  @mkServer e
    (<["s1" := mkSession
                 [mkChatMessage "user" "Hello" 0%Z;
                  mkChatMessage "assistant" "Hi! Ask me about movies." 1%Z]
                 0%Z 2%Z 1%positive]> (∅ : gmap string Session))
    (<[1%positive := earlier_turn]> (∅ : gmap loc (list Message)))
    (@mkSys e w []).

(** The environments of the examples. *)
Definition scenario : Environment := make inception_client tmdb_api.
Definition looping : Environment := make always_requests tmdb_api.
Definition down : Environment := make unavailable tmdb_api.
Definition refusing : Environment := make answers_directly tmdb_api.
Definition missing : Environment := make inception_client not_found_api.
Definition cut_off : Environment := make two_calls_client offline.
Definition garbled : Environment := make inception_client bad_gateway.

Definition question : string := "Where can I watch Inception?".

(** [s * n]. *)
Fixpoint copies (n : nat) (s : string) : string :=
  match n with
  | O => EmptyString
  | S n' => s +:+ copies n' s
  end.


(** The details of one film, with its credits. *)
Definition details_body : value :=
  PyDict [("adult", PyBool false); ("id", PyInt 27205);
          ("title", PyStr "Inception"); ("overview", PyStr "A thief.");
          ("release_date", PyStr "2010-07-15"); ("runtime", PyInt 148);
          ("vote_average", PyFloat (84 # 10)); ("vote_count", PyInt 30000);
          ("budget", PyInt 160000000); ("revenue", PyInt 825532764);
          ("genres",
           PyList [PyDict [("id", PyInt 28); ("name", PyStr "Action")];
                   PyDict [("id", PyInt 878);
                           ("name", PyStr "Science Fiction")]]);
          ("credits",
           PyDict [("cast",
                    PyList [PyDict [("name", PyStr "Leonardo DiCaprio");
                                    ("character", PyStr "Dom Cobb")];
                            PyDict [("name", PyStr "Elliot Page");
                                    ("character", PyStr "Ariadne")]]);
                   ("crew",
                    PyList [PyDict [("job", PyStr "Producer");
                                    ("name", PyStr "Emma Thomas")];
                            PyDict [("job", PyStr "Director");
                                    ("name", PyStr "Christopher Nolan")]])])].

(** A provider that also knows the details of that film. *)
Definition details_api (r : Request) : HttpOutcome :=
  if ends_with "/movie/27205" (url r)
  then HttpResponse 200 (Some details_body)
  else tmdb_api r.

Definition catalogue : Environment := make answers_directly details_api.

End Stub.

(* ===================================================================== *)
(** ** Vocabulary of the statements *)
(* ===================================================================== *)

Section Vocabulary.

Context {env : Environment}.

Definition is_http_event (e : Event) : Prop :=
  match e with
  | EvHttpGet _ => True
  | EvModelCall _ => False
  end.

(** A model call whose first message is the system prompt. *)
Definition prompt_first (e : Event) : Prop :=
  match e with
  | EvModelCall ms => head ms = Some system_prompt
  | EvHttpGet _ => True
  end.

(** [s'] continues the log of [s] with events that all satisfy [P]. *)
Definition extends_by (P : Event -> Prop) (s s' : Sys) : Prop :=
  exists evs, events s' = events s ++ evs /\ Forall P evs.

Definition is_system (m : Message) : bool :=
  match m with
  | SystemMessage _ => true
  | _ => false
  end.

Definition is_human (m : Message) : bool :=
  match m with
  | HumanMessage _ => true
  | _ => false
  end.

(** [m] is the capability result of the request [call]. *)
Definition answers (call : ToolCall) (m : Message) : Prop :=
  exists content status,
    m = ToolMessage content (tc_name call) (tc_id call) status.

Definition tool_call_id_of (m : Message) : option string :=
  match m with
  | ToolMessage _ _ id _ => Some id
  | _ => None
  end.

Fixpoint model_calls (evs : list Event) : nat :=
  match evs with
  | [] => 0
  | EvModelCall _ :: rest => S (model_calls rest)
  | EvHttpGet _ :: rest => model_calls rest
  end.

(** The two shapes the invocation of a tool has: the arguments are
    rejected before anything is requested, or one request is made and the
    result is computed from the body. *)
Inductive Shape : Type :=
| Rejected (e : exn)
| OneGet (req : Request) (post : value -> result value).

Definition shape_run (sh : Shape) : M value :=
  match sh with
  | Rejected e => liftR (Raise e)
  | OneGet req post =>
      response <~ requests_get_json (url req) (params req) ;;
      liftR (post response)
  end.

(** The data provider answers at [s'] as it did at [s]. *)
Definition same_answers (s s' : Sys) : Prop :=
  forall req,
    snd (remote_http (world s') req) = snd (remote_http (world s) req).

(** What holds of the state when the graph is at a node: [tools] is
    entered only below an assistant message with pending requests, and
    [END] only below one without. *)
Definition node_ok (n : Node) (st : ChatState) : Prop :=
  match n with
  | N_tools => exists c calls, last st = Some (AIMessage c calls) /\ calls <> []
  | END => exists c, last st = Some (AIMessage c [])
  | _ => True
  end.

(** [final] is [st] followed by messages that are not system messages. *)
Definition grows_without_system (st final : ChatState) : Prop :=
  exists added,
    final = st ++ added /\ Forall (fun m => is_system m = false) added.

(** The chat model asks for at least one capability on every call. *)
Definition always_pending : Prop :=
  forall w ms, exists w' c calls,
    remote_llm w ms = (w', Ok (c, calls)) /\ calls <> [].

(** The number of model calls in [steps] steps from node [n] when no
    reply is final. *)
Fixpoint calls_within (steps : nat) (n : Node) : nat :=
  match steps with
  | O => 0
  | S steps' =>
      match n with
      | START => calls_within steps' N_llm
      | N_llm => S (calls_within steps' N_tools)
      | N_tools => calls_within steps' N_llm
      | END => 0
      end
  end.

(** The five tools that return a list of movies, with their arguments. *)
Inductive ListTool : Type :=
| SearchMovies (query : string) (page : Z)
| DiscoverMovies (genre_id : option Z) (sort_by : string) (page : Z)
| GetMovieLists (list_type : string) (page : Z)
| GetTrendingMovies (time_window : string) (page : Z)
| GetMovieRecommendations (movie_id : Z) (page : Z).

Definition run_list_tool (t : ListTool) : M value :=
  match t with
  | SearchMovies query page => search_movies query page
  | DiscoverMovies genre_id sort_by page => discover_movies genre_id sort_by page
  | GetMovieLists list_type page => get_movie_lists list_type page
  | GetTrendingMovies time_window page => get_trending_movies time_window page
  | GetMovieRecommendations movie_id page =>
      get_movie_recommendations movie_id page
  end.

(** The request each of them sends. *)
Definition list_tool_request (t : ListTool) : Request :=
  match t with
  | SearchMovies query page =>
      mkRequest (tmdb +:+ "/search/movie")
        [("api_key", API_KEY); ("query", PyStr query); ("page", PyInt page);
         ("language", PyStr "en-US")]
  | DiscoverMovies genre_id sort_by page =>
      mkRequest (tmdb +:+ "/discover/movie")
        ([("api_key", API_KEY); ("language", PyStr "en-US");
          ("sort_by", PyStr sort_by); ("page", PyInt page);
          ("include_adult", PyBool false)] ++
         match genre_id with
         | Some g => if (g =? 0)%Z then [] else [("with_genres", PyInt g)]
         | None => []
         end)
  | GetMovieLists list_type page =>
      mkRequest (tmdb +:+ "/movie/" +:+ list_type)
        [("api_key", API_KEY); ("language", PyStr "en-US");
         ("page", PyInt page)]
  | GetTrendingMovies time_window page =>
      mkRequest (tmdb +:+ "/trending/movie/" +:+ time_window)
        [("api_key", API_KEY); ("page", PyInt page)]
  | GetMovieRecommendations movie_id page =>
      mkRequest (tmdb +:+ "/movie/" +:+ str_int movie_id +:+ "/recommendations")
        [("api_key", API_KEY); ("language", PyStr "en-US");
         ("page", PyInt page)]
  end.

(** The character limit of the overview, per tool. *)
Definition overview_limit (t : ListTool) : nat :=
  match t with
  | SearchMovies _ _ => 200
  | _ => 150
  end.

(** [d.get(k)] read as a value: [None] when the key is missing. *)
Definition field (d : value) (k : string) : value :=
  match d with
  | PyDict items =>
      match assoc k items with
      | Some v => v
      | None => PyNone
      end
  | _ => PyNone
  end.

(** The overview of a movie as text: empty when the movie has none. *)
Definition overview_text (movie : value) : string :=
  match field movie "overview" with
  | PyStr s => s
  | _ => ""
  end.

(** A text cut to [limit] characters with ['...'] appended when it is
    longer than [limit]. *)
Definition truncated (limit : nat) (s : string) : string :=
  if limit <? str_len s then str_take limit s +:+ "..." else s.

(** What a list tool is to report for one movie of the provider. *)
Definition summary (limit : nat) (movie : value) : value :=
  PyDict [("id", field movie "id"); ("title", field movie "title");
          ("release_date", field movie "release_date");
          ("vote_average", field movie "vote_average");
          ("overview", PyStr (truncated limit (overview_text movie)))].

(** The [total_results] of the provider: 0 when the key is missing. *)
Definition provider_total (items : list (string * value)) : Z :=
  match assoc "total_results" items with
  | Some (PyInt z) => z
  | _ => 0%Z
  end.

(** A movie of the provider: an object whose overview, when it has one,
    is text. *)
Definition movie_ok (movie : value) : bool :=
  match movie with
  | PyDict items =>
      match assoc "overview" items with
      | None | Some (PyStr _) => true
      | Some _ => false
      end
  | _ => false
  end.

(** The provider's [total_results], when present, is an integer. *)
Definition total_ok (items : list (string * value)) : bool :=
  match assoc "total_results" items with
  | None | Some (PyInt _) => true
  | Some _ => false
  end.

(** The provider's results do not have the region: there are no results,
    or they are an object without that key. *)
Definition region_absent (region : string) (items : list (string * value))
  : bool :=
  match assoc "results" items with
  | None => true
  | Some (PyDict regions) =>
      match assoc region regions with
      | None => true
      | Some _ => false
      end
  | Some _ => false
  end.

(** The entry of a region lists its providers of one kind, when it has
    that kind, as objects with a [provider_name]. *)
Definition providers_ok (kind : string) (providers_data : list (string * value))
  : bool :=
  match assoc kind providers_data with
  | None => true
  | Some (PyList ps) =>
      forallb (fun p => match p with
                        | PyDict items =>
                            match assoc "provider_name" items with
                            | Some _ => true
                            | None => false
                            end
                        | _ => false
                        end) ps
  | Some _ => false
  end.

Definition provider_names (kind : string)
    (providers_data : list (string * value)) : list value :=
  match assoc kind providers_data with
  | Some (PyList ps) => map (fun p => field p "provider_name") ps
  | _ => []
  end.

(** The dict [d] has the key [k]. *)
Definition has_key (k : string) (d : value) : Prop :=
  exists items v, d = PyDict items /\ assoc k items = Some v.

(** The dict the tool returns when the region is not in the results. *)
Definition no_providers (movie_id : Z) (region : string) : value :=
  PyDict
    [("movie_id", PyInt movie_id); ("region", PyStr region);
     ("streaming", PyList []); ("rent", PyList []); ("buy", PyList []);
     ("message",
      PyStr ("No streaming information available for this movie in "
             +:+ region));
     ("link", PyStr "")].

(** No stored list of graph messages holds a system message. *)
Definition heap_without_system (srv : Server) : Prop :=
  forall l ms, heap srv !! l = Some ms ->
    Forall (fun m => is_system m = false) ms.

(** The request of [get_movie_details] (tools.py, lines 66-75). *)
Definition details_request (movie_id : Z) (append_credits : bool) : Request :=
  mkRequest (tmdb +:+ "/movie/" +:+ str_int movie_id)
    ([("api_key", API_KEY); ("language", PyStr "en-US")] ++
     if append_credits then [("append_to_response", PyStr "credits")] else []).

(** The keys [get_movie_details] always reports. *)
Definition details_keys : list string :=
  ["id"; "title"; "overview"; "release_date"; "runtime"; "vote_average";
   "vote_count"; "budget"; "revenue"; "genres"].

(** The keys under which a field of the provider is handed on as it is. *)
Definition details_scalars : list string :=
  ["id"; "title"; "overview"; "release_date"; "runtime"; "vote_average";
   "vote_count"; "budget"; "revenue"].

(** The response is an object with the key [credits]. *)
Definition has_credits (response : value) : bool :=
  match response with
  | PyDict items =>
      match assoc "credits" items with
      | Some _ => true
      | None => false
      end
  | _ => false
  end.

(** [p] is an object with all of [keys]. *)
Definition object_with (keys : list string) (p : value) : bool :=
  match p with
  | PyDict items =>
      forallb (fun k => match assoc k items with
                        | Some _ => true
                        | None => false
                        end) keys
  | _ => false
  end.

(** The list under [k], empty when the key is missing. *)
Definition list_at (items : list (string * value)) (k : string) : list value :=
  match assoc k items with
  | Some (PyList l) => l
  | _ => []
  end.

(** The key [k] is missing or holds a list. *)
Definition list_or_missing (items : list (string * value)) (k : string) : bool :=
  match assoc k items with
  | None | Some (PyList _) => true
  | Some _ => false
  end.

Definition is_director (person : value) : bool :=
  py_eq_str (field person "job") "Director".

(** A crew member: an object with a job, and with a name when the job is
    that of the director. *)
Definition crew_member_ok (person : value) : bool :=
  object_with ["job"] person &&
  (negb (is_director person) || object_with ["name"] person).

(** The details of a movie as the provider sends them: the genres are
    objects with a name; the credits, when there are any, are an object
    whose cast (as far as its tenth entry) has names and characters and
    whose crew has jobs. *)
Definition details_ok (items : list (string * value)) : bool :=
  list_or_missing items "genres" &&
  forallb (object_with ["name"]) (list_at items "genres") &&
  match assoc "credits" items with
  | None => true
  | Some (PyDict credits) =>
      list_or_missing credits "cast" &&
      forallb (object_with ["name"; "character"])
              (firstn 10 (list_at credits "cast")) &&
      list_or_missing credits "crew" &&
      forallb crew_member_ok (list_at credits "crew")
  | Some _ => false
  end.

Definition cast_summary (person : value) : value :=
  PyDict [("name", field person "name");
          ("character", field person "character")].

(** The name of the first director of the crew, [None] without one. *)
Definition first_director (crew : list value) : value :=
  match filter (fun p => is_director p = true) crew with
  | p :: _ => field p "name"
  | [] => PyNone
  end.

(** What [get_movie_details] is to report for the object [items]. *)
Definition details_summary (items : list (string * value)) : value :=
  let response := PyDict items in
  PyDict
    ([("id", field response "id"); ("title", field response "title");
      ("overview", field response "overview");
      ("release_date", field response "release_date");
      ("runtime", field response "runtime");
      ("vote_average", field response "vote_average");
      ("vote_count", field response "vote_count");
      ("budget", field response "budget");
      ("revenue", field response "revenue");
      ("genres",
       PyList (map (fun g => field g "name") (list_at items "genres")))] ++
     match assoc "credits" items with
     | Some (PyDict credits) =>
         [("cast",
           PyList (map cast_summary (firstn 10 (list_at credits "cast"))));
          ("director", first_director (list_at credits "crew"))]
     | _ => []
     end).

(** The keys of a filtered movie. *)
Definition movie_keys : list string :=
  ["id"; "title"; "release_date"; "vote_average"; "overview"].

(** The movie endpoints of main.py that are modelled, with their
    arguments. *)
Inductive MovieEndpoint : Type :=
| EpSearch (query : string)
| EpPopular
| EpTopRated
| EpNowPlaying
| EpUpcoming
| EpDetails (movie_id : Z)
| EpWatchProviders (movie_id : Z) (region : string)
| EpRecommendations (movie_id : Z)
| EpTrending (time_window : string).

Definition run_endpoint (ep : MovieEndpoint) : M value :=
  match ep with
  | EpSearch query => search_movies_endpoint query
  | EpPopular => get_popular_movies
  | EpTopRated => get_top_rated_movies
  | EpNowPlaying => get_now_playing_movies
  | EpUpcoming => get_upcoming_movies
  | EpDetails movie_id => get_movie_details_endpoint movie_id
  | EpWatchProviders movie_id region =>
      get_watch_providers_endpoint movie_id region
  | EpRecommendations movie_id => get_movie_recommendations_endpoint movie_id
  | EpTrending time_window => get_trending_movies_endpoint time_window
  end.

(** The function of tools.py an endpoint ends up calling, with the
    arguments it ends up with. *)
Definition endpoint_call (ep : MovieEndpoint) : M value :=
  match ep with
  | EpSearch query => search_movies query 1
  | EpPopular => get_movie_lists "popular" 1
  | EpTopRated => get_movie_lists "top_rated" 1
  | EpNowPlaying => get_movie_lists "now_playing" 1
  | EpUpcoming => get_movie_lists "upcoming" 1
  | EpDetails movie_id => get_movie_details movie_id true
  | EpWatchProviders movie_id region => get_watch_providers movie_id region
  | EpRecommendations movie_id => get_movie_recommendations movie_id 1
  | EpTrending time_window => get_trending_movies time_window 1
  end.

(** [HTTPException(status_code=500, detail=str(e))]. *)
Definition http_500 (e : exn) : exn := HTTPException 500 (exn_str e).

(** What a finished turn appends to the history: rounds of an assistant
    message with pending requests followed by the results of exactly
    these requests, in their order, and then the final answer. *)
Inductive turn_shape : list Message -> Prop :=
| turn_final c : turn_shape [AIMessage c []]
| turn_round c calls results rest :
    calls <> [] ->
    Forall2 answers calls results ->
    turn_shape rest ->
    turn_shape (AIMessage c calls :: results ++ rest).

Fixpoint assistant_messages (ms : list Message) : nat :=
  match ms with
  | [] => 0
  | AIMessage _ _ :: rest => S (assistant_messages rest)
  | _ :: rest => assistant_messages rest
  end.

(** The lines the command-line loop processes: those before the first
    line that says quit. *)
Fixpoint lines_before_quit (inputs : list string) : list string :=
  match inputs with
  | [] => []
  | line :: rest =>
      if String.eqb (str_lower line) "quit" then []
      else line :: lines_before_quit rest
  end.

(** The loop ended because the user quit or the input ran out. *)
Definition ended_normally (r : Repl) : Prop :=
  repl_end r = ReplQuit \/ repl_end r = ReplEndOfInput.

(** The texts of the user messages of a history, in order. *)
Fixpoint user_lines (ms : list Message) : list string :=
  match ms with
  | [] => []
  | HumanMessage c :: rest => c :: user_lines rest
  | _ :: rest => user_lines rest
  end.

(** The texts of the final answers of a history (the assistant messages
    without pending requests), in order. *)
Fixpoint final_answers (ms : list Message) : list string :=
  match ms with
  | [] => []
  | AIMessage c [] :: rest => c :: final_answers rest
  | _ :: rest => final_answers rest
  end.

(** What the loop writes for the turns answered with [answers]: the
    prompt and the answer for each, and the prompt it ends on. *)
Definition transcript (answers : list string) : list string :=
  flat_map (fun a => ["> "; printed a]) answers ++ ["> "].

(** A line that says quit, in any mix of upper and lower case. *)
Definition says_quit (line : string) : Prop :=
  exists a b c d,
    line = String a (String b (String c (String d EmptyString))) /\
    (a = "q"%char \/ a = "Q"%char) /\ (b = "u"%char \/ b = "U"%char) /\
    (c = "i"%char \/ c = "I"%char) /\ (d = "t"%char \/ d = "T"%char).

(** Every session has its own list of graph messages: the list is
    there, and no two sessions refer to the same one. *)
Definition store_ok (srv : Server) : Prop :=
  forall sid session,
    chat_sessions srv !! sid = Some session ->
    is_Some (heap srv !! s_state session) /\
    forall sid' session',
      chat_sessions srv !! sid' = Some session' ->
      s_state session = s_state session' -> sid = sid'.

(** The stored history of the session [sid]: the graph messages its
    state refers to. *)
Definition stored_history (srv : Server) (sid : string)
  : option (list Message) :=
  match chat_sessions srv !! sid with
  | Some session => Some (deref srv (s_state session))
  | None => None
  end.


(** A request to the data provider: under the base address, with the
    key among its query parameters. *)
Definition tmdb_request (req : Request) : Prop :=
  String.prefix tmdb (url req) = true /\
  assoc "api_key" (params req) = Some API_KEY.

End Vocabulary.

(* ===================================================================== *)
(** ** Properties of the conversation loop *)
(* ===================================================================== *)

Section LoopProperties.

Context {env : Environment}.

Lemma extends_by_refl P s : extends_by P s s.
Proof. exists []. split; [by rewrite app_nil_r | constructor]. Qed.

Lemma extends_by_trans P s1 s2 s3 :
  extends_by P s1 s2 -> extends_by P s2 s3 -> extends_by P s1 s3.
Proof.
  intros [e1 [H1 F1]] [e2 [H2 F2]]. exists (e1 ++ e2). split.
  - rewrite H2, H1. by rewrite app_assoc.
  - apply Forall_app; auto.
Qed.

Lemma extends_by_weaken (P Q : Event -> Prop) s s' :
  (forall e, P e -> Q e) -> extends_by P s s' -> extends_by Q s s'.
Proof.
  intros HPQ [evs [H F]]. exists evs. split; [done |].
  eapply Forall_impl; eauto.
Qed.

(** What a move from [llm] does when it succeeds. *)
Lemma step_llm_inv st s s' n' st' :
  step N_llm st s = (s', Ok (n', st')) ->
  exists c calls,
    st' = st ++ [AIMessage c calls] /\
    (n' = END /\ calls = [] \/ n' = N_tools /\ calls <> []) /\
    events s' = events s ++ [EvModelCall (system_prompt :: st)] /\
    remote_llm (world s) (system_prompt :: st) = (world s', Ok (c, calls)).
Proof.
  unfold step, llm_node, llm_invoke, bindM, retM, liftR, add_messages.
  simpl. destruct (remote_llm (world s) (system_prompt :: st)) as [w' r].
  destruct r as [[c calls] | e]; [| discriminate].
  unfold should_continue. rewrite last_snoc.
  destruct calls as [| call calls]; simpl; intros H; inversion H; subst;
    simpl; eexists c, _; (split; [reflexivity |]).
  - split; [by left | by split].
  - split; [by right | by split].
Qed.

(** A move from [llm] raises only what the chat model raised. *)
Lemma step_llm_raise st s s' e :
  step N_llm st s = (s', Raise e) ->
  events s' = events s ++ [EvModelCall (system_prompt :: st)] /\
  remote_llm (world s) (system_prompt :: st) = (world s', Raise e).
Proof.
  unfold step, llm_node, llm_invoke, bindM, retM, liftR, add_messages.
  simpl. destruct (remote_llm (world s) (system_prompt :: st)) as [w' r].
  destruct r as [[c calls] | e'].
  - unfold should_continue. rewrite last_snoc.
    destruct calls; simpl; discriminate.
  - intros H. inversion H; subst. auto.
Qed.

(** *** The tools: one request, then a computation *)

Lemma requests_get_json_events u ps s :
  events (fst (requests_get_json u ps s)) =
  events s ++ [EvHttpGet (mkRequest u ps)].
Proof.
  unfold requests_get_json.
  destruct (remote_http (world s) (mkRequest u ps)) as [w' [| st [b |]]];
    reflexivity.
Qed.

Lemma requests_get_json_same u ps s s' :
  same_answers s s' ->
  snd (requests_get_json u ps s') = snd (requests_get_json u ps s).
Proof.
  intros H. specialize (H (mkRequest u ps)). unfold requests_get_json.
  destruct (remote_http (world s) (mkRequest u ps)) as [w1 o1].
  destruct (remote_http (world s') (mkRequest u ps)) as [w2 o2].
  simpl in H. subst o2. destruct o1 as [| st [b |]]; reflexivity.
Qed.

Lemma shape_run_events sh s :
  extends_by is_http_event s (fst (shape_run sh s)).
Proof.
  destruct sh as [e | req post]; simpl.
  - apply extends_by_refl.
  - unfold bindM.
    pose proof (requests_get_json_events (url req) (params req) s) as H.
    destruct (requests_get_json (url req) (params req) s) as [s1 [v | e]];
      simpl in *; eexists; (split; [exact H |]);
      repeat constructor.
Qed.

Lemma shape_run_same sh s s' :
  same_answers s s' -> snd (shape_run sh s') = snd (shape_run sh s).
Proof.
  intros H. destruct sh as [e | req post]; simpl; [reflexivity |].
  unfold bindM.
  pose proof (requests_get_json_same (url req) (params req) s s' H) as E.
  destruct (requests_get_json (url req) (params req) s) as [s1 r1].
  destruct (requests_get_json (url req) (params req) s') as [s2 r2].
  simpl in E. subst r2. destruct r1; reflexivity.
Qed.

(** Every registered tool has one of the two shapes, whatever the
    arguments. *)
Lemma invoke_shape name t args :
  tools_by_name tools name = Some t ->
  exists sh, forall s, invoke_tool t args s = shape_run sh s.
Proof.
  unfold tools, tools_by_name. intros H.
  repeat match type of H with
         | (if ?b then _ else _) = _ => destruct b
         end;
    inversion H; subst; clear H;
    (destruct args as [| | | | | | items];
     try (exists (Rejected ValidationError); reflexivity)); simpl.
  - unfold tool_get_watch_providers.
    destruct (arg_int items "movie_id" None) as [m | e];
      [| exists (Rejected e); reflexivity].
    destruct (arg_str items "region" (Some "US")) as [r | e];
      [| exists (Rejected e); reflexivity].
    exists (OneGet (watch_providers_request m) (format_providers m r)).
    reflexivity.
  - unfold tool_search_movies.
    destruct (arg_str items "query" None) as [q | e];
      [| exists (Rejected e); reflexivity].
    destruct (arg_int items "page" (Some 1%Z)) as [p | e];
      [| exists (Rejected e); reflexivity].
    eexists (OneGet (mkRequest _ _) _). reflexivity.
  - unfold tool_get_movie_details.
    destruct (arg_int items "movie_id" None) as [m | e];
      [| exists (Rejected e); reflexivity].
    destruct (arg_bool items "append_credits" true) as [b | e];
      [| exists (Rejected e); reflexivity].
    eexists (OneGet (mkRequest _ _) _). reflexivity.
  - unfold tool_discover_movies.
    destruct (arg_opt_int items "genre_id") as [g | e];
      [| exists (Rejected e); reflexivity].
    destruct (arg_str items "sort_by" (Some "popularity.desc")) as [o | e];
      [| exists (Rejected e); reflexivity].
    destruct (arg_int items "page" (Some 1%Z)) as [p | e];
      [| exists (Rejected e); reflexivity].
    eexists (OneGet (mkRequest _ _) _). reflexivity.
  - unfold tool_get_movie_lists.
    destruct (arg_str items "list_type" (Some "popular")) as [l | e];
      [| exists (Rejected e); reflexivity].
    destruct (arg_int items "page" (Some 1%Z)) as [p | e];
      [| exists (Rejected e); reflexivity].
    eexists (OneGet (mkRequest _ _) _). reflexivity.
  - unfold tool_get_movie_recommendations.
    destruct (arg_int items "movie_id" None) as [m | e];
      [| exists (Rejected e); reflexivity].
    destruct (arg_int items "page" (Some 1%Z)) as [p | e];
      [| exists (Rejected e); reflexivity].
    eexists (OneGet (mkRequest _ _) _). reflexivity.
  - unfold tool_get_trending_movies.
    destruct (arg_str items "time_window" (Some "day")) as [l | e];
      [| exists (Rejected e); reflexivity].
    destruct (arg_int items "page" (Some 1%Z)) as [p | e];
      [| exists (Rejected e); reflexivity].
    eexists (OneGet (mkRequest _ _) _). reflexivity.
Qed.

(** *** The tool node *)

(** One request gives one capability result; nothing is raised, and
    only the data provider is called. *)
Lemma run_one_total call s :
  exists s' m,
    run_one call s = (s', Ok m) /\ answers call m /\
    extends_by is_http_event s s'.
Proof.
  unfold run_one.
  destruct (tools_by_name tools (tc_name call)) as [t |] eqn:Ht.
  - destruct (invoke_shape _ _ (tc_args call) Ht) as [sh Hsh].
    pose proof (shape_run_events sh s) as Hev. rewrite <- Hsh in Hev.
    destruct (invoke_tool t (tc_args call) s) as [s1 [v | e]]; simpl in Hev;
      eexists _, _; (split; [reflexivity |]); split; auto;
      unfold answers; eauto.
  - unfold retM. eexists _, _. split; [reflexivity |].
    split; [unfold answers; eauto | apply extends_by_refl].
Qed.

Lemma mapM_run_one_total calls s :
  exists s' results,
    mapM run_one calls s = (s', Ok results) /\
    Forall2 answers calls results /\
    extends_by is_http_event s s'.
Proof.
  revert s. induction calls as [| call calls IH]; intros s; simpl.
  - exists s, []. split; [reflexivity |].
    split; [constructor | apply extends_by_refl].
  - destruct (run_one_total call s) as (s1 & m & Hm & Ha & He).
    destruct (IH s1) as (s2 & ms & Hms & Has & Hes).
    exists s2, (m :: ms). unfold bindM. rewrite Hm, Hms.
    split; [reflexivity |]. split; [by constructor |].
    eapply extends_by_trans; eauto.
Qed.

Lemma step_tools_total st c calls s :
  last st = Some (AIMessage c calls) ->
  exists s' results,
    step N_tools st s = (s', Ok (N_llm, st ++ results)) /\
    Forall2 answers calls results /\
    extends_by is_http_event s s'.
Proof.
  intros Hlast.
  destruct (mapM_run_one_total calls s) as (s' & results & Hr & Ha & He).
  exists s', results. unfold step, tool_node, bindM. rewrite Hlast, Hr.
  auto.
Qed.

Lemma Forall2_answers_ids calls results :
  Forall2 answers calls results ->
  map tool_call_id_of results = map (fun call => Some (tc_id call)) calls.
Proof.
  induction 1 as [| call m calls results (c & st & ->) _ IH]; simpl;
    [reflexivity | by rewrite IH].
Qed.

(** *** Runs of the graph *)

Lemma grows_refl st : grows_without_system st st.
Proof. exists []. split; [by rewrite app_nil_r | constructor]. Qed.

Lemma grows_trans st1 st2 st3 :
  grows_without_system st1 st2 -> grows_without_system st2 st3 ->
  grows_without_system st1 st3.
Proof.
  intros (a1 & -> & F1) (a2 & -> & F2). exists (a1 ++ a2).
  split; [by rewrite app_assoc | by apply Forall_app].
Qed.

Lemma answers_not_system calls results :
  Forall2 answers calls results ->
  Forall (fun m => is_system m = false) results.
Proof.
  induction 1 as [| call m calls results (c & st & ->) _ IH];
    constructor; auto.
Qed.

Lemma http_is_prompt_first e : is_http_event e -> prompt_first e.
Proof. destruct e; simpl; tauto. Qed.

(** One move: the log grows by model calls that start with the system
    prompt and by requests to the data provider. *)
Lemma step_events n st s :
  node_ok n st -> extends_by prompt_first s (fst (step n st s)).
Proof.
  intros Hok. destruct n.
  - apply extends_by_refl.
  - destruct (step N_llm st s) as [s' [[n' st'] | e]] eqn:E.
    + apply step_llm_inv in E as (c & calls & _ & _ & Hev & _).
      exists [EvModelCall (system_prompt :: st)]. split; [exact Hev |].
      repeat constructor.
    + apply step_llm_raise in E as [Hev _].
      exists [EvModelCall (system_prompt :: st)]. split; [exact Hev |].
      repeat constructor.
  - destruct Hok as (c & calls & Hlast & _).
    destruct (step_tools_total st c calls s Hlast) as (s' & rs & E & _ & He).
    rewrite E. simpl. eapply extends_by_weaken; [| exact He].
    apply http_is_prompt_first.
  - apply extends_by_refl.
Qed.

(** One successful move keeps [node_ok] and only appends messages that
    are not system messages. *)
Lemma step_ok n st s s' n' st' :
  node_ok n st ->
  step n st s = (s', Ok (n', st')) ->
  node_ok n' st' /\ grows_without_system st st'.
Proof.
  intros Hok E. destruct n.
  - inversion E; subst. split; [exact I | apply grows_refl].
  - apply step_llm_inv in E as (c & calls & -> & Hn & _ & _). split.
    + destruct Hn as [[-> ->] | [-> Hne]]; simpl; rewrite last_snoc; eauto.
    + exists [AIMessage c calls]. split; [reflexivity |]. by repeat constructor.
  - destruct Hok as (c & calls & Hlast & _).
    destruct (step_tools_total st c calls s Hlast) as (s1 & rs & E1 & Ha & _).
    rewrite E1 in E. inversion E; subst. split; [exact I |].
    exists rs. split; [reflexivity |]. eapply answers_not_system; eauto.
  - inversion E; subst. split; [exact Hok | apply grows_refl].
Qed.

(** The tool node never raises inside a run. *)
Lemma step_raise_is_llm n st s s' e :
  node_ok n st ->
  step n st s = (s', Raise e) ->
  n = N_llm /\
  events s' = events s ++ [EvModelCall (system_prompt :: st)] /\
  remote_llm (world s) (system_prompt :: st) = (world s', Raise e).
Proof.
  intros Hok E. destruct n; try discriminate.
  - split; [reflexivity |]. by apply step_llm_raise.
  - destruct Hok as (c & calls & Hlast & _).
    destruct (step_tools_total st c calls s Hlast) as (s1 & rs & E1 & _).
    rewrite E1 in E. discriminate.
Qed.

Lemma run_END steps st s : run (S steps) END st s = (s, Ok st).
Proof. reflexivity. Qed.

Lemma run_unfold steps n st s :
  n <> END ->
  run (S steps) n st s =
  match step n st s with
  | (s', Ok next) => run steps (fst next) (snd next) s'
  | (s', Raise e) => (s', Raise e)
  end.
Proof. intros Hn. destruct n; try congruence; reflexivity. Qed.

Lemma Node_END_dec (n : Node) : n = END \/ n <> END.
Proof. destruct n; (by left) || (right; discriminate). Qed.

(** The invariant of a run: the log, the final state. *)
Lemma run_spec steps : forall n st s,
  node_ok n st ->
  extends_by prompt_first s (fst (run steps n st s)) /\
  forall final, snd (run steps n st s) = Ok final ->
    (exists c, last final = Some (AIMessage c [])) /\
    grows_without_system st final.
Proof.
  induction steps as [| steps IH]; intros n st s Hok.
  - simpl. split; [apply extends_by_refl | intros final H; discriminate].
  - destruct (Node_END_dec n) as [-> | Hn].
    { rewrite run_END. simpl. split; [apply extends_by_refl |].
      intros final H. inversion H; subst.
      split; [exact Hok | apply grows_refl]. }
    rewrite run_unfold by exact Hn.
    pose proof (step_events n st s Hok) as Hev.
    destruct (step n st s) as [s1 [[n1 st1] | e]] eqn:E; simpl in *.
    + destruct (step_ok _ _ _ _ _ _ Hok E) as [Hok1 Hg].
      destruct (IH n1 st1 s1 Hok1) as [Hev1 Hfin]. split.
      * eapply extends_by_trans; eauto.
      * intros final H. destruct (Hfin final H) as [Hl Hg1].
        split; [exact Hl | eapply grows_trans; eauto].
    + split; [exact Hev | intros final H; discriminate].
Qed.

(** *** A chat model that never gives a final answer *)

Lemma model_calls_app evs1 evs2 :
  model_calls (evs1 ++ evs2) = model_calls evs1 + model_calls evs2.
Proof.
  induction evs1 as [| [ms | req] evs1 IH]; simpl; [done | | done].
  by rewrite IH.
Qed.

Lemma model_calls_http evs : Forall is_http_event evs -> model_calls evs = 0.
Proof.
  induction 1 as [| [ms | req] evs H _ IH]; simpl; [done | | done].
  destruct H.
Qed.

(** Against such a chat model a run uses up its steps: it ends with
    [GraphRecursionError], having called the chat model at every other
    step. *)
Lemma run_always_pending :
  always_pending ->
  forall steps n st s,
    node_ok n st -> n <> END ->
    snd (run steps n st s) = Raise GraphRecursionError /\
    model_calls (events (fst (run steps n st s))) =
    model_calls (events s) + calls_within steps n.
Proof.
  intros Hp. induction steps as [| steps IH]; intros n st s Hok Hn.
  - simpl. split; [reflexivity | lia].
  - rewrite run_unfold by exact Hn. destruct n; try congruence.
    + simpl. apply IH; [exact I | discriminate].
    + destruct (Hp (world s) (system_prompt :: st)) as (w' & c & calls & E & Hne).
      destruct (step N_llm st s) as [s1 [[n1 st1] | e]] eqn:Es.
      * apply step_llm_inv in Es as (c1 & calls1 & -> & Hnext & Hev & E1).
        rewrite E in E1. inversion E1; subst.
        destruct Hnext as [[_ ->] | [-> _]]; [congruence |]. simpl fst; simpl snd.
        destruct (IH N_tools (st ++ [AIMessage c1 calls1]) s1) as [R C].
        { simpl. rewrite last_snoc. eauto. }
        { discriminate. }
        split; [exact R |]. rewrite C, Hev, model_calls_app. simpl. lia.
      * apply step_llm_raise in Es as [_ E1]. rewrite E in E1. congruence.
    + destruct Hok as (c & calls & Hlast & _).
      destruct (step_tools_total st c calls s Hlast) as (s1 & rs & E & _ & He).
      rewrite E. simpl fst; simpl snd.
      destruct (IH N_llm (st ++ rs) s1 I) as [R C]; [discriminate |].
      split; [exact R |]. rewrite C. destruct He as (evs & -> & F).
      rewrite model_calls_app, (model_calls_http _ F). simpl. lia.
Qed.

(** When the first reply carries no request, the turn is over after it. *)
Lemma run_final_reply steps st s w' c :
  remote_llm (world s) (system_prompt :: st) = (w', Ok (c, [])) ->
  run (S (S (S steps))) START st s =
  (mkSys w' (events s ++ [EvModelCall (system_prompt :: st)]),
   Ok (st ++ [AIMessage c []])).
Proof.
  intros E. rewrite run_unfold by discriminate.
  simpl step. unfold retM. simpl fst; simpl snd.
  rewrite run_unfold by discriminate.
  unfold step, llm_node, llm_invoke, bindM, retM, liftR, add_messages.
  simpl. rewrite E. unfold should_continue. rewrite last_snoc. reflexivity.
Qed.

(** The model calls of a run are at most those of a run in which no
    reply is final. *)
Lemma run_calls_bound steps : forall n st s,
  node_ok n st ->
  model_calls (events (fst (run steps n st s))) <=
  model_calls (events s) + calls_within steps n.
Proof.
  induction steps as [| steps IH]; intros n st s Hok; [simpl; lia |].
  destruct (Node_END_dec n) as [-> | Hn]; [simpl; lia |].
  rewrite run_unfold by exact Hn. destruct n; try congruence.
  - simpl. by apply IH.
  - destruct (step N_llm st s) as [s1 [[n1 st1] | e]] eqn:Es.
    + destruct (step_ok _ _ _ _ _ _ Hok Es) as [Hok1 _].
      apply step_llm_inv in Es as (c & calls & -> & Hnext & Hev & _).
      simpl fst; simpl snd. specialize (IH n1 _ s1 Hok1).
      rewrite Hev, model_calls_app in IH. simpl in IH.
      destruct Hnext as [[-> _] | [-> _]].
      * destruct steps; simpl in IH |- *; lia.
      * simpl. lia.
    + apply step_llm_raise in Es as [Hev _]. simpl.
      rewrite Hev, model_calls_app. simpl. lia.
  - destruct Hok as (c & calls & Hlast & _).
    destruct (step_tools_total st c calls s Hlast) as (s1 & rs & E & _ & He).
    rewrite E. simpl fst; simpl snd. specialize (IH N_llm (st ++ rs) s1 I).
    destruct He as (evs & Hevs & F). rewrite Hevs in IH.
    rewrite model_calls_app, (model_calls_http _ F) in IH. simpl. lia.
Qed.

(** Every other step is a model call. *)
Lemma calls_within_div2 steps :
  calls_within steps N_llm = Nat.div2 (S steps) /\
  calls_within steps N_tools = Nat.div2 steps.
Proof.
  induction steps as [| steps [IH1 IH2]]; [by split |].
  split; [simpl; by rewrite IH2 | simpl calls_within; exact IH1].
Qed.

Lemma calls_within_START steps :
  calls_within (S steps) START = Nat.div2 (S steps).
Proof. simpl. apply calls_within_div2. Qed.

(** A run raises the error of the recursion limit or what a call of the
    chat model raised, that call being the last event of the log. *)
Lemma run_raise_cases steps : forall n st s s' e,
  node_ok n st ->
  run steps n st s = (s', Raise e) ->
  e = GraphRecursionError \/
  exists ms w,
    last (events s') = Some (EvModelCall ms) /\
    snd (remote_llm w ms) = Raise e.
Proof.
  induction steps as [| steps IH]; intros n st s s' e Hok H.
  - left. by inversion H.
  - destruct (Node_END_dec n) as [-> | Hn]; [by rewrite run_END in H |].
    rewrite run_unfold in H by exact Hn.
    destruct (step n st s) as [s1 [[n1 st1] | e1]] eqn:E.
    + destruct (step_ok _ _ _ _ _ _ Hok E) as [Hok1 _]. eauto.
    + inversion H; subst. right.
      destruct (step_raise_is_llm _ _ _ _ _ Hok E) as (_ & Hev & Hllm).
      exists (system_prompt :: st), (world s). split.
      * rewrite Hev. apply last_snoc.
      * by rewrite Hllm.
Qed.

(** *** The claims about the loop *)

(** C3.  A run of the graph that reaches [END] returns a history that is
    not empty and whose last message is an assistant message without
    pending capability requests. *)
Theorem done_ends_with_final_answer st s s' final :
  graph_invoke st s = (s', Ok final) ->
  final <> [] /\ exists c, last final = Some (AIMessage c []).
Proof.
  intros H. unfold graph_invoke in H.
  destruct (run_spec (S recursion_limit) START st s I) as [_ Hfin].
  rewrite H in Hfin. destruct (Hfin final eq_refl) as [[c Hc] _].
  split; [| eauto]. intros ->. discriminate.
Qed.

Lemma NoDup_map_Some (ids : list string) :
  NoDup ids -> NoDup (map Some ids).
Proof.
  induction 1 as [| x l Hx _ IH]; simpl; constructor; auto.
  intros Hin. apply Hx. apply list_elem_of_In in Hin.
  apply in_map_iff in Hin as (y & Hy & Hin). inversion Hy; subst.
  by apply list_elem_of_In.
Qed.

(** C4.  Below an assistant message with N >= 1 pending requests the move
    from [tools] appends exactly N capability results, the i-th keyed to
    the name and the identifier of the i-th request, so in request order
    and with distinct identifiers when the requests have distinct
    identifiers; the move calls the data provider only, leads to [llm],
    and the model call made there receives the history with the N
    results. *)
Theorem tools_answer_every_request st c calls s :
  last st = Some (AIMessage c calls) ->
  calls <> [] ->
  exists s' results,
    step N_tools st s = (s', Ok (N_llm, st ++ results)) /\
    length results = length calls /\
    Forall2 answers calls results /\
    map tool_call_id_of results = map Some (map tc_id calls) /\
    (NoDup (map tc_id calls) -> NoDup (map tool_call_id_of results)) /\
    extends_by is_http_event s s' /\
    events (fst (step N_llm (st ++ results) s')) =
    events s' ++ [EvModelCall (system_prompt :: st ++ results)].
Proof.
  intros Hlast _.
  destruct (step_tools_total st c calls s Hlast) as (s' & rs & E & Ha & He).
  assert (Hids : map tool_call_id_of rs = map Some (map tc_id calls)).
  { rewrite (Forall2_answers_ids _ _ Ha). by rewrite map_map. }
  exists s', rs. repeat split; auto.
  - symmetry. eapply Forall2_length; eauto.
  - intros Hnd. rewrite Hids. by apply NoDup_map_Some.
  - destruct (step N_llm (st ++ rs) s') as [s2 [[n2 st2] | e]] eqn:E2.
    + by apply step_llm_inv in E2 as (? & ? & _ & _ & Hev & _).
    + by apply step_llm_raise in E2 as [Hev _].
Qed.

(** C2.  Every run of the graph ends, having called the chat model at
    most once for every two steps that the recursion limit allows; this
    holds for every initial history and every chat model.  Against a chat
    model that asks for a capability on every call the run uses up its
    steps and ends with [GraphRecursionError], an outcome of its own: a
    run raises either that error or what a call of the chat model raised,
    and it returns only a history that ends in a final answer.  The limit
    is the one the library applies by default; the source passes none. *)
Theorem loop_ends_within_the_recursion_limit :
  (forall st s,
      model_calls (events (fst (graph_invoke st s))) <=
      model_calls (events s) + Nat.div2 (S recursion_limit)) /\
  (always_pending ->
   forall st s,
     snd (graph_invoke st s) = Raise GraphRecursionError /\
     model_calls (events (fst (graph_invoke st s))) =
     model_calls (events s) + Nat.div2 (S recursion_limit)) /\
  (forall st s s' e,
      graph_invoke st s = (s', Raise e) ->
      e = GraphRecursionError \/
      exists ms w,
        last (events s') = Some (EvModelCall ms) /\
        snd (remote_llm w ms) = Raise e) /\
  (forall st s s' final,
      graph_invoke st s = (s', Ok final) ->
      exists c, last final = Some (AIMessage c [])) /\
  (2 <= recursion_limit ->
   forall st s w' c,
     remote_llm (world s) (system_prompt :: st) = (w', Ok (c, [])) ->
     graph_invoke st s =
     (mkSys w' (events s ++ [EvModelCall (system_prompt :: st)]),
      Ok (st ++ [AIMessage c []]))).
Proof.
  unfold graph_invoke. split; [| split; [| split; [| split]]].
  - intros st s. rewrite <- calls_within_START.
    by apply run_calls_bound.
  - intros Hp st s. rewrite <- calls_within_START.
    apply run_always_pending; [exact Hp | exact I | discriminate].
  - intros st s s' e H.
    exact (run_raise_cases (S recursion_limit) START st s s' e I H).
  - intros st s s' final H.
    destruct (run_spec (S recursion_limit) START st s I) as [_ Hfin].
    rewrite H in Hfin. by destruct (Hfin final eq_refl).
  - intros Hl st s w' c E.
    destruct recursion_limit as [| [| k]]; [lia | lia |].
    by apply run_final_reply.
Qed.

Lemma shape_run_no_response sh s :
  (forall req, snd (remote_http (world s) req) = NoResponse) ->
  exists e, snd (shape_run sh s) = Raise e.
Proof.
  intros H. destruct sh as [e | req post]; simpl; [eauto |].
  unfold bindM, requests_get_json. specialize (H (mkRequest (url req) (params req))).
  destruct (remote_http (world s) _) as [w' o]. simpl in H. subst o. eauto.
Qed.

(** C6, as the code has it.  Whatever a tool raises (the data provider
    cannot be reached, its body is not JSON, the payload makes the tool
    fail, the arguments are rejected) is recorded as a capability result
    with status [error] and the error text, the move from [tools] never
    raises and leads to [llm]; with the data provider out of reach every
    request gets such an error result.  A status code is not a failure
    for the tools: a body that is JSON is handed on whatever the status. *)
Theorem capability_failures_are_recorded :
  (forall call t s s1 e,
      tools_by_name tools (tc_name call) = Some t ->
      invoke_tool t (tc_args call) s = (s1, Raise e) ->
      run_one call s =
      (s1, Ok (ToolMessage (tool_error_content e) (tc_name call) (tc_id call)
                           "error"))) /\
  (forall call s,
      (forall req, snd (remote_http (world s) req) = NoResponse) ->
      exists s1 content,
        run_one call s =
        (s1, Ok (ToolMessage content (tc_name call) (tc_id call) "error"))) /\
  (forall u ps s w' status,
      remote_http (world s) (mkRequest u ps) = (w', HttpResponse status None) ->
      snd (requests_get_json u ps s) = Raise JSONDecodeError) /\
  (forall u ps s w' status body,
      remote_http (world s) (mkRequest u ps) =
      (w', HttpResponse status (Some body)) ->
      snd (requests_get_json u ps s) = Ok body) /\
  (forall st c calls s,
      last st = Some (AIMessage c calls) ->
      exists s' results,
        step N_tools st s = (s', Ok (N_llm, st ++ results)) /\
        Forall2 answers calls results).
Proof.
  repeat split.
  - intros call t s s1 e Ht E. unfold run_one. by rewrite Ht, E.
  - intros call s Hoff. unfold run_one.
    destruct (tools_by_name tools (tc_name call)) as [t |] eqn:Ht.
    + destruct (invoke_shape _ _ (tc_args call) Ht) as [sh Hsh].
      destruct (shape_run_no_response sh s Hoff) as [e He].
      rewrite <- Hsh in He.
      destruct (invoke_tool t (tc_args call) s) as [s1 r]. simpl in He.
      subst r. eauto.
    + unfold retM. eauto.
  - intros u ps s w' status E. unfold requests_get_json. by rewrite E.
  - intros u ps s w' status body E. unfold requests_get_json. by rewrite E.
  - intros st c calls s Hlast.
    destruct (step_tools_total st c calls s Hlast) as (s' & rs & E & Ha & _).
    eauto.
Qed.

(** *** The tools *)

(** C7.  A capability invoked again with the same arguments, at a time
    when the data provider answers every request as it did the first
    time, gives the same result (the same value or the same exception),
    and the tool node wraps it into the same capability result. *)
Theorem capability_is_idempotent name t args call s0 s1 :
  tools_by_name tools name = Some t ->
  same_answers s0 s1 ->
  snd (invoke_tool t args s1) = snd (invoke_tool t args s0) /\
  snd (run_one call s1) = snd (run_one call s0).
Proof.
  intros Ht Hsame. split.
  - destruct (invoke_shape _ _ args Ht) as [sh Hsh].
    rewrite !Hsh. by apply shape_run_same.
  - unfold run_one.
    destruct (tools_by_name tools (tc_name call)) as [t' |] eqn:Ht';
      [| reflexivity].
    destruct (invoke_shape _ _ (tc_args call) Ht') as [sh Hsh].
    pose proof (shape_run_same sh s0 s1 Hsame) as E. rewrite <- !Hsh in E.
    destruct (invoke_tool t' (tc_args call) s0) as [s0' r0].
    destruct (invoke_tool t' (tc_args call) s1) as [s1' r1].
    simpl in E. subst r1. destruct r0; reflexivity.
Qed.

Lemma mapR_map {A B} (f : A -> result B) (g : A -> B) (l : list A) :
  Forall (fun x => f x = Ok (g x)) l -> mapR f l = Ok (map g l).
Proof.
  induction 1 as [| x l Hx _ IH]; simpl; [reflexivity |].
  by rewrite Hx, IH.
Qed.

Lemma filter_movie_summary limit movie :
  movie_ok movie = true -> filter_movie limit movie = Ok (summary limit movie).
Proof.
  destruct movie as [| | | | | | items]; try discriminate.
  unfold movie_ok, filter_movie, summary, truncate_overview, overview_text,
    truncated, field, py_get. intros H.
  destruct (assoc "id" items), (assoc "title" items),
    (assoc "release_date" items), (assoc "vote_average" items); simpl;
    (destruct (assoc "overview" items) as [[| | | | ov | |] |];
     try discriminate; simpl;
     [destruct (limit <? str_len ov); reflexivity | reflexivity]).
Qed.

Lemma filter_results_top5 limit items movies :
  assoc "results" items = Some (PyList movies) ->
  forallb movie_ok (firstn 5 movies) = true ->
  total_ok items = true ->
  filter_results limit (PyDict items) =
  Ok (PyDict [("results", PyList (map (summary limit) (firstn 5 movies)));
              ("total_results", PyInt (Z.min (provider_total items) 5))]).
Proof.
  intros Hres Hmovies Htotal. unfold filter_results. simpl. rewrite Hres. simpl.
  rewrite (mapR_map _ (summary limit)).
  2:{ apply Forall_forall. intros m Hm. apply filter_movie_summary.
      rewrite forallb_forall in Hmovies. apply Hmovies.
      by apply list_elem_of_In. }
  simpl. unfold total_ok in Htotal. unfold provider_total.
  destruct (assoc "total_results" items) as [[| | z | | | |] |];
    try discriminate; simpl.
  - destruct (Z.ltb_spec 5 z).
    + by rewrite Z.min_r by lia.
    + by rewrite Z.min_l by lia.
  - reflexivity.
Qed.

(** *** Texts by characters *)

(** The first character of a text starts with its first byte. *)
Lemma code_points_head (s : string) p ps :
  code_points s = p :: ps -> continues p = continues s.
Proof.
  destruct s as [| c s]; simpl; [discriminate |].
  destruct (code_points s) as [| q qs]; [| destruct (continues q)];
    intros H; inversion H; reflexivity.
Qed.

(** Appending a text that starts with a character appends its
    characters. *)
Lemma code_points_app (a b : string) :
  continues b = false ->
  code_points (a +:+ b) = code_points a ++ code_points b.
Proof.
  intros Hb. induction a as [| c a IH]; [reflexivity |].
  change (String c a +:+ b) with (String c (a +:+ b)).
  cbn [code_points]. rewrite IH.
  destruct (code_points a) as [| p ps]; simpl.
  - destruct (code_points b) as [| q qs] eqn:Eb; [reflexivity |].
    by rewrite (code_points_head b q qs Eb), Hb.
  - by destruct (continues p).
Qed.

(** The first characters of a text are the characters of what they
    spell. *)
Lemma code_points_take (s : string) : forall n,
  code_points (str_take n s) = firstn n (code_points s).
Proof.
  unfold str_take, join. induction s as [| c s IH]; intros n.
  - by destruct n.
  - destruct n as [| n]; [reflexivity |]. cbn [code_points].
    destruct (code_points s) as [| p ps] eqn:Es; [by destruct n |].
    destruct (continues p) eqn:Ep.
    + specialize (IH (S n)). simpl in IH |- *. by rewrite IH, Ep.
    + specialize (IH n). simpl in IH |- *.
      change ("" +:+ foldr append "" (take n (p :: ps)))
        with (foldr append "" (take n (p :: ps))).
      rewrite IH. destruct n as [| n]; [reflexivity |]. simpl. by rewrite Ep.
Qed.

Lemma str_len_append (s1 s2 : string) :
  continues s2 = false -> str_len (s1 +:+ s2) = str_len s1 + str_len s2.
Proof.
  intros H. unfold str_len. by rewrite code_points_app, length_app.
Qed.

Lemma str_len_take (n : nat) (s : string) : str_len (str_take n s) <= n.
Proof.
  unfold str_len. rewrite code_points_take, length_firstn. lia.
Qed.

Lemma firstn_length_le5 {A} (l : list A) : length (firstn 5 l) <= 5.
Proof. rewrite length_firstn. lia. Qed.

Lemma mapR_inv {A B} (f : A -> result B) (l : list A) : forall ys,
  mapR f l = Ok ys -> Forall2 (fun x y => f x = Ok y) l ys.
Proof.
  induction l as [| x l IH]; simpl; intros ys H.
  - inversion H. constructor.
  - destruct (f x) as [y | e] eqn:Ex; simpl in H; [| discriminate].
    destruct (mapR f l) as [ys' | e]; simpl in H; [| discriminate].
    inversion H; subst. constructor; auto.
Qed.

Lemma length_chars (s : string) : length (chars s) = str_len s.
Proof. unfold chars, str_len. apply length_map. Qed.

(** Whatever [filter_movie] returns for a movie whose overview is text
    carries that text cut to the limit. *)
Lemma filter_movie_overview limit movie f ov :
  filter_movie limit movie = Ok f ->
  field movie "overview" = PyStr ov ->
  field f "overview" = PyStr (truncated limit ov).
Proof.
  destruct movie as [| | | | | | items]; try discriminate.
  unfold filter_movie, truncate_overview, field, truncated, py_get.
  intros H Hov.
  destruct (assoc "overview" items) as [v |]; [| discriminate]. subst v.
  destruct (assoc "id" items), (assoc "title" items),
    (assoc "release_date" items), (assoc "vote_average" items);
    simpl in H; destruct (limit <? str_len ov); simpl in H;
    inversion H; reflexivity.
Qed.

(** What [filter_results] returns, when it returns, for a response that
    has the key [results]. *)
Lemma filter_results_inv limit response v :
  py_in "results" response = Ok true ->
  filter_results limit response = Ok v ->
  exists filtered total,
    v = PyDict [("results", PyList filtered); ("total_results", total)] /\
    length filtered <= 5 /\
    (forall z, py_get response "total_results" (PyInt 0) = Ok (PyInt z) ->
               total = PyInt (Z.min z 5)) /\
    (forall movies,
        field response "results" = PyList movies ->
        Forall2 (fun movie f =>
                   forall ov, field movie "overview" = PyStr ov ->
                              field f "overview" = PyStr (truncated limit ov))
                (firstn 5 movies) filtered).
Proof.
  intros Hin. unfold filter_results. rewrite Hin. simpl.
  destruct (py_getitem response "results") as [rs | e] eqn:Ers; simpl;
    [| discriminate].
  destruct (py_slice 5 rs) as [top | e] eqn:Etop; simpl; [| discriminate].
  destruct (py_iter top) as [ms | e] eqn:Ems; simpl; [| discriminate].
  destruct (mapR (filter_movie limit) ms) as [filtered | e] eqn:Emap; simpl;
    [| discriminate].
  destruct (py_get response "total_results" (PyInt 0)) as [tr | e] eqn:Etr;
    simpl; [| discriminate].
  destruct (py_min5 tr) as [total | e] eqn:Emin; simpl; [| discriminate].
  intros H. inversion H; subst v. exists filtered, total.
  apply mapR_inv in Emap.
  assert (Hms : length ms <= 5).
  { destruct rs; try discriminate; simpl in Etop; inversion Etop; subst top;
      simpl in Ems; inversion Ems; subst ms.
    - rewrite length_chars. apply str_len_take.
    - apply firstn_length_le5. }
  split; [reflexivity |]. split; [| split].
  - rewrite <- (Forall2_length _ _ _ Emap). exact Hms.
  - intros z Hz. inversion Hz; subst tr. simpl in Emin. inversion Emin.
    destruct (Z.ltb_spec 5 z).
    + by rewrite Z.min_r by lia.
    + by rewrite Z.min_l by lia.
  - intros movies Hmovies.
    destruct response as [| | | | | | items]; try discriminate.
    simpl in Ers, Hmovies. destruct (assoc "results" items) as [r |];
      [| discriminate]. inversion Ers; subst r rs. simpl in Etop.
    inversion Etop; subst top. simpl in Ems. inversion Ems; subst ms.
    eapply Forall2_impl; [exact Emap |]. simpl.
    intros movie f Hf ov Hov. eapply filter_movie_overview; eauto.
Qed.

(** A list tool is its request followed by [filter_results] at the limit
    of the tool. *)
Lemma run_list_tool_body (t : ListTool) s w' status response :
  remote_http (world s) (list_tool_request t) =
    (w', HttpResponse status (Some response)) ->
  run_list_tool t s =
  (mkSys w' (events s ++ [EvHttpGet (list_tool_request t)]),
   filter_results (overview_limit t) response).
Proof.
  intros Hhttp.
  destruct t as [q p | g o p | l p | w p | m p];
    unfold run_list_tool, search_movies, discover_movies, get_movie_lists,
      get_trending_movies, get_movie_recommendations, bindM,
      requests_get_json, liftR; simpl in Hhttp |- *.
  - by rewrite Hhttp.
  - destruct g as [g |]; [destruct (g =? 0)%Z |]; simpl in Hhttp;
      rewrite ?app_nil_r in Hhttp; by rewrite Hhttp.
  - by rewrite Hhttp.
  - by rewrite Hhttp.
  - by rewrite Hhttp.
Qed.

(** C9.  For every response of the data provider that has the key
    [results], whatever a list tool returns is a dict with at most five
    movies under [results], each overview that is text cut to the limit
    of the tool with ['...'] appended when it is longer, and with the
    minimum of the provider's [total_results] and 5 under
    [total_results].  When the response is an object whose [results] is a
    list of movies, the tool does return: the summaries of the first five
    movies, in their order. *)
Theorem list_tools_return_top5 (t : ListTool) s w' status :
  (forall response d,
      remote_http (world s) (list_tool_request t) =
        (w', HttpResponse status (Some response)) ->
      py_in "results" response = Ok true ->
      snd (run_list_tool t s) = Ok d ->
      exists filtered total,
        d = PyDict [("results", PyList filtered); ("total_results", total)] /\
        length filtered <= 5 /\
        (forall z, py_get response "total_results" (PyInt 0) = Ok (PyInt z) ->
                   total = PyInt (Z.min z 5)) /\
        (forall movies,
            field response "results" = PyList movies ->
            Forall2 (fun movie f =>
                       forall ov,
                         field movie "overview" = PyStr ov ->
                         field f "overview" =
                         PyStr (truncated (overview_limit t) ov))
                    (firstn 5 movies) filtered)) /\
  (forall items movies,
      remote_http (world s) (list_tool_request t) =
        (w', HttpResponse status (Some (PyDict items))) ->
      assoc "results" items = Some (PyList movies) ->
      forallb movie_ok (firstn 5 movies) = true ->
      total_ok items = true ->
      exists filtered,
        run_list_tool t s =
        (mkSys w' (events s ++ [EvHttpGet (list_tool_request t)]),
         Ok (PyDict [("results", PyList filtered);
                     ("total_results",
                      PyInt (Z.min (provider_total items) 5))])) /\
        filtered = map (summary (overview_limit t)) (firstn 5 movies) /\
        length filtered = Nat.min 5 (length movies) /\
        length filtered <= 5 /\
        Forall (fun m =>
                  exists ov,
                    field m "overview" = PyStr ov /\
                    str_len ov <= overview_limit t + 3) filtered).
Proof.
  split.
  - intros response d Hhttp Hin Hd.
    rewrite (run_list_tool_body t s w' status response Hhttp) in Hd.
    simpl in Hd. by apply (filter_results_inv _ response).
  - intros items movies Hhttp Hres Hmovies Htotal.
    exists (map (summary (overview_limit t)) (firstn 5 movies)).
    split; [| split; [reflexivity | split; [| split]]].
    + rewrite (run_list_tool_body t s w' status _ Hhttp).
      by rewrite (filter_results_top5 _ items movies Hres Hmovies Htotal).
    + by rewrite length_map, length_firstn.
    + rewrite length_map. apply firstn_length_le5.
    + apply Forall_forall. intros m Hm. apply list_elem_of_In in Hm.
      apply in_map_iff in Hm as (movie & <- & _).
      eexists. split; [reflexivity |]. unfold truncated.
      destruct (Nat.ltb_spec (overview_limit t)
                  (str_len (overview_text movie))).
      * rewrite str_len_append by reflexivity.
        pose proof (str_len_take (overview_limit t) (overview_text movie)).
        change (str_len "...") with 3. lia.
      * lia.
Qed.

Lemma set_provider_names_keeps kind key providers_data f f' :
  set_provider_names kind key providers_data f = Ok f' ->
  f' = f \/ exists names, f' = dict_set key (PyList names) f.
Proof.
  unfold set_provider_names.
  destruct (py_in kind providers_data) as [[|] | e]; simpl;
    [| intros H; inversion H; by left | discriminate].
  destruct (py_getitem providers_data kind) as [ps | e]; simpl;
    [| discriminate].
  destruct (py_iter ps) as [pl | e]; simpl; [| discriminate].
  destruct (mapR _ pl) as [names | e]; simpl; [| discriminate].
  intros H; inversion H. right. eauto.
Qed.

Lemma set_provider_names_ok kind key pd f :
  providers_ok kind pd = true ->
  set_provider_names kind key (PyDict pd) f =
  Ok (match assoc kind pd with
      | Some _ => dict_set key (PyList (provider_names kind pd)) f
      | None => f
      end).
Proof.
  unfold providers_ok, set_provider_names, provider_names. simpl.
  destruct (assoc kind pd) as [[| | | | | ps |] |]; try discriminate;
    simpl; [| reflexivity].
  intros Hok.
  rewrite (mapR_map _ (fun p => field p "provider_name")); [reflexivity |].
  apply Forall_forall. intros p Hp. apply list_elem_of_In in Hp.
  rewrite forallb_forall in Hok. specialize (Hok p Hp).
  destruct p as [| | | | | | items]; try discriminate. simpl.
  destruct (assoc "provider_name" items); [reflexivity | discriminate].
Qed.

(** Whatever [format_providers] returns has the six keys. *)
Lemma format_providers_keys movie_id region response d :
  format_providers movie_id region response = Ok d ->
  exists items,
    d = PyDict items /\
    assoc "movie_id" items = Some (PyInt movie_id) /\
    assoc "region" items = Some (PyStr region) /\
    (exists l, assoc "streaming" items = Some (PyList l)) /\
    (exists l, assoc "rent" items = Some (PyList l)) /\
    (exists l, assoc "buy" items = Some (PyList l)) /\
    (exists v, assoc "link" items = Some v).
Proof.
  unfold format_providers.
  destruct (py_in "results" response) as [has_results | e]; simpl;
    [| discriminate].
  destruct (if has_results
            then bindR (py_getitem response "results")
                       (fun results => py_in region results)
            else Ok false) as [[|] | e]; simpl; [| | discriminate].
  - destruct (py_getitem response "results") as [results | e]; simpl;
      [| discriminate].
    destruct (py_getitem results region) as [pd | e]; simpl; [| discriminate].
    destruct (py_get pd "link" (PyStr "")) as [link | e]; simpl;
      [| discriminate].
    destruct (set_provider_names "flatrate" "streaming" pd _) as [f1 | e] eqn:E1;
      simpl; [| discriminate].
    destruct (set_provider_names "rent" "rent" pd f1) as [f2 | e] eqn:E2;
      simpl; [| discriminate].
    destruct (set_provider_names "buy" "buy" pd f2) as [f3 | e] eqn:E3;
      simpl; [| discriminate].
    intros H. inversion H; subst d. exists f3. split; [reflexivity |].
    apply set_provider_names_keeps in E1 as [-> | [n1 ->]];
      apply set_provider_names_keeps in E2 as [-> | [n2 ->]];
      apply set_provider_names_keeps in E3 as [-> | [n3 ->]];
      simpl; repeat split; eauto.
  - intros H. inversion H; subst d. eexists. split; [reflexivity |].
    simpl. repeat split; eauto.
Qed.

Lemma format_providers_absent movie_id region items :
  region_absent region items = true ->
  format_providers movie_id region (PyDict items) =
  Ok (no_providers movie_id region).
Proof.
  unfold region_absent, format_providers. simpl.
  destruct (assoc "results" items) as [[| | | | | | regions] |];
    try discriminate; simpl; [| reflexivity].
  destruct (assoc region regions); [discriminate | reflexivity].
Qed.

Lemma format_providers_present movie_id region items regions pd :
  assoc "results" items = Some (PyDict regions) ->
  assoc region regions = Some (PyDict pd) ->
  providers_ok "flatrate" pd = true ->
  providers_ok "rent" pd = true ->
  providers_ok "buy" pd = true ->
  format_providers movie_id region (PyDict items) =
  Ok (PyDict
        [("movie_id", PyInt movie_id); ("region", PyStr region);
         ("streaming", PyList (provider_names "flatrate" pd));
         ("rent", PyList (provider_names "rent" pd));
         ("buy", PyList (provider_names "buy" pd));
         ("link", match assoc "link" pd with
                  | Some v => v
                  | None => PyStr ""
                  end)]).
Proof.
  intros Hres Hreg H1 H2 H3. unfold format_providers.
  cbn -[set_provider_names]. rewrite Hres. cbn -[set_provider_names].
  rewrite Hreg. cbn -[set_provider_names].
  assert (Hn : forall kind, assoc kind pd = None -> provider_names kind pd = []).
  { intros kind E. unfold provider_names. by rewrite E. }
  destruct (assoc "link" pd) as [link |]; cbn -[set_provider_names];
    (rewrite (set_provider_names_ok "flatrate" "streaming" pd _ H1);
     destruct (assoc "flatrate" pd) eqn:Ef; cbn -[set_provider_names];
     rewrite (set_provider_names_ok "rent" "rent" pd _ H2);
     destruct (assoc "rent" pd) eqn:Er; cbn -[set_provider_names];
     rewrite (set_provider_names_ok "buy" "buy" pd _ H3);
     destruct (assoc "buy" pd) eqn:Eb; cbn;
     rewrite ?(Hn _ Ef), ?(Hn _ Er), ?(Hn _ Eb); reflexivity).
Qed.

(** C10.  [get_watch_providers] sends one request, built from the movie
    identifier, the API key and the language and never from the region;
    every dict it returns has the keys [movie_id], [region], [streaming],
    [rent], [buy] and [link]; when the region is absent from the
    provider's results it returns empty provider lists with a message;
    when the region is there it returns the names of its providers. *)
Theorem watch_providers_result movie_id region s :
  events (fst (get_watch_providers movie_id region s)) =
    events s ++
    [EvHttpGet
       (mkRequest
          (tmdb +:+ "/movie/" +:+ str_int movie_id +:+ "/watch/providers")
          [("api_key", API_KEY); ("language", PyStr "en-US")])] /\
  (forall d,
      snd (get_watch_providers movie_id region s) = Ok d ->
      exists items,
        d = PyDict items /\
        assoc "movie_id" items = Some (PyInt movie_id) /\
        assoc "region" items = Some (PyStr region) /\
        (exists l, assoc "streaming" items = Some (PyList l)) /\
        (exists l, assoc "rent" items = Some (PyList l)) /\
        (exists l, assoc "buy" items = Some (PyList l)) /\
        (exists v, assoc "link" items = Some v)) /\
  (forall w' status items,
      remote_http (world s) (watch_providers_request movie_id) =
        (w', HttpResponse status (Some (PyDict items))) ->
      region_absent region items = true ->
      snd (get_watch_providers movie_id region s) =
      Ok (no_providers movie_id region)) /\
  (forall w' status items regions pd,
      remote_http (world s) (watch_providers_request movie_id) =
        (w', HttpResponse status (Some (PyDict items))) ->
      assoc "results" items = Some (PyDict regions) ->
      assoc region regions = Some (PyDict pd) ->
      providers_ok "flatrate" pd = true ->
      providers_ok "rent" pd = true ->
      providers_ok "buy" pd = true ->
      snd (get_watch_providers movie_id region s) =
      Ok (PyDict
            [("movie_id", PyInt movie_id); ("region", PyStr region);
             ("streaming", PyList (provider_names "flatrate" pd));
             ("rent", PyList (provider_names "rent" pd));
             ("buy", PyList (provider_names "buy" pd));
             ("link", match assoc "link" pd with
                      | Some v => v
                      | None => PyStr ""
                      end)])).
Proof.
  unfold get_watch_providers, bindM, liftR.
  pose proof (requests_get_json_events
                (url (watch_providers_request movie_id))
                (params (watch_providers_request movie_id)) s) as Hev.
  unfold requests_get_json in *. simpl url in *. simpl params in *.
  fold (watch_providers_request movie_id) in *.
  destruct (remote_http (world s) (watch_providers_request movie_id))
    as [w1 o].
  repeat split.
  - destruct o as [| st [b |]]; exact Hev.
  - intros d. destruct o as [| st [b |]]; simpl; try discriminate.
    apply format_providers_keys.
  - intros w' status items E Habs. inversion E; subst. simpl.
    by apply format_providers_absent.
  - intros w' status items regions pd E Hres Hreg H1 H2 H3.
    inversion E; subst. simpl. by apply (format_providers_present _ _ _ regions).
Qed.

(** *** The chat endpoint *)

Lemma known_session_existing sid srv old :
  sid <> "" ->
  chat_sessions srv !! sid = Some old ->
  known_session (Some sid) srv = Some sid.
Proof.
  intros Hne Hold. unfold known_session.
  destruct (String.eqb_spec sid ""); [congruence |]. simpl.
  rewrite bool_decide_eq_true_2; [reflexivity | by rewrite Hold].
Qed.

(** C1, as the code has it.  When the run of the graph raises during a
    turn, which it does when a call of the chat model raises (that call is
    then the last event of the turn) and otherwise only with the error of
    the recursion limit, the caller gets the error "Agent processing
    failed", and no assistant message and no capability result of the
    turn is stored: the agent state of the session is not replaced, and
    nothing but user messages can have been added to its list.  The log
    of chat messages of the session, however, has gained the user message
    of the turn, which was recorded before the agent ran, and the
    last-activity time is the time of the request; a turn without a known
    session identifier leaves behind the session it created, with that
    one chat message.  The rest of the store is as before. *)
Theorem model_failure_commits_no_reply message srv sys' e :
  (forall sid old,
      sid <> "" ->
      chat_sessions srv !! sid = Some old ->
      let (w1, t1) := datetime_now (world (sys srv)) in
      let (w2, t2) := datetime_now w1 in
      graph_invoke (deref srv (s_state old) ++ [HumanMessage message])
                   (mkSys w2 (events (sys srv))) = (sys', Raise e) ->
      exists srv',
        chat_with_agent (Some sid) message srv =
          (srv', Raise (agent_processing_failed e)) /\
        ((exists ms w, last (events sys') = Some (EvModelCall ms) /\
                       snd (remote_llm w ms) = Raise e) \/
         e = GraphRecursionError) /\
        sys srv' = sys' /\
        chat_sessions srv' =
          <[sid := mkSession
                     (s_messages old ++ [mkChatMessage "user" message t2])
                     (s_created_at old) t1 (s_state old)]>
            (chat_sessions srv) /\
        (exists extra,
            deref srv' (s_state old) = deref srv (s_state old) ++ extra /\
            Forall (fun m => is_human m = true) extra) /\
        (forall l, l <> s_state old -> heap srv' !! l = heap srv !! l)) /\
  (forall session_id,
      known_session session_id srv = None ->
      let (w1, new_session_id) := uuid4 (world (sys srv)) in
      let (w2, created) := datetime_now w1 in
      let (w3, active) := datetime_now w2 in
      let (w4, t) := datetime_now w3 in
      let l := fresh (dom (heap srv)) in
      graph_invoke [HumanMessage message]
                   (mkSys w4 (events (sys srv))) = (sys', Raise e) ->
      exists srv',
        chat_with_agent session_id message srv =
          (srv', Raise (agent_processing_failed e)) /\
        ((exists ms w, last (events sys') = Some (EvModelCall ms) /\
                       snd (remote_llm w ms) = Raise e) \/
         e = GraphRecursionError) /\
        sys srv' = sys' /\
        chat_sessions srv' =
          <[new_session_id :=
              mkSession [mkChatMessage "user" message t] created active l]>
            (chat_sessions srv) /\
        Forall (fun m => is_human m = true) (deref srv' l) /\
        (forall l', l' <> l -> heap srv' !! l' = heap srv !! l')).
Proof.
  split.
  - intros sid old Hne Hold.
    destruct (datetime_now (world (sys srv))) as [w1 t1] eqn:E1.
    destruct (datetime_now w1) as [w2 t2] eqn:E2.
    intros Hrun.
    assert (Hfail :
              (exists ms w, last (events sys') = Some (EvModelCall ms) /\
                            snd (remote_llm w ms) = Raise e) \/
              e = GraphRecursionError).
    { destruct (run_raise_cases (S recursion_limit) START _ _ _ _ I Hrun);
        auto. }
    unfold chat_with_agent, get_or_create_session.
    rewrite (known_session_existing sid srv old Hne Hold).
    unfold now. rewrite E1. simpl chat_sessions. rewrite Hold.
    unfold set_session at 1. simpl. rewrite lookup_insert_eq.
    unfold log_message, now. simpl. rewrite E2. simpl.
    rewrite lookup_insert_eq. unfold set_session, list_append, deref. simpl.
    rewrite lookup_insert_eq. simpl. rewrite insert_insert_eq.
    fold (deref srv (s_state old)). rewrite Hrun.
    eexists. split; [reflexivity |]. simpl.
    split; [exact Hfail |]. split; [reflexivity |]. split; [reflexivity |].
    split.
    + exists [HumanMessage message]. rewrite lookup_insert_eq. simpl.
      split; [reflexivity | by repeat constructor].
    + intros l Hl. by rewrite lookup_insert_ne.
  - intros session_id Hnew.
    destruct (uuid4 (world (sys srv))) as [w1 u] eqn:E1.
    destruct (datetime_now w1) as [w2 created] eqn:E2.
    destruct (datetime_now w2) as [w3 active] eqn:E3.
    destruct (datetime_now w3) as [w4 t] eqn:E4.
    intros l Hrun.
    assert (Hfail :
              (exists ms w, last (events sys') = Some (EvModelCall ms) /\
                            snd (remote_llm w ms) = Raise e) \/
              e = GraphRecursionError).
    { destruct (run_raise_cases (S recursion_limit) START _ _ _ _ I Hrun);
        auto. }
    unfold chat_with_agent, get_or_create_session. rewrite Hnew.
    unfold new_uuid. rewrite E1. unfold now at 1. simpl. rewrite E2.
    unfold now at 1. simpl. rewrite E3. unfold alloc. simpl.
    unfold set_session at 1. simpl. rewrite lookup_insert_eq.
    unfold log_message, now. simpl. rewrite E4. simpl.
    rewrite lookup_insert_eq. unfold set_session, list_append, deref. simpl.
    rewrite !lookup_insert_eq. simpl. rewrite !insert_insert_eq.
    fold l. rewrite Hrun.
    eexists. split; [reflexivity |]. simpl.
    split; [exact Hfail |]. split; [reflexivity |]. split; [reflexivity |].
    split.
    + rewrite lookup_insert_eq. simpl. by repeat constructor.
    + intros l' Hl'. by rewrite lookup_insert_ne.
Qed.

(** *** The stored history never holds the system prompt *)

Lemma heap_now srv : heap (fst (now srv)) = heap srv.
Proof. unfold now. by destruct (datetime_now (world (sys srv))). Qed.

Lemma heap_new_uuid srv : heap (fst (new_uuid srv)) = heap srv.
Proof. unfold new_uuid. by destruct (uuid4 (world (sys srv))). Qed.

Lemma heap_log_message sid r c srv : heap (log_message sid r c srv) = heap srv.
Proof.
  unfold log_message. pose proof (heap_now srv) as H.
  destruct (now srv) as [srv1 t]. simpl in H.
  by destruct (chat_sessions srv1 !! sid).
Qed.

Lemma without_system_eq srv srv' :
  heap srv' = heap srv -> heap_without_system srv -> heap_without_system srv'.
Proof. unfold heap_without_system. intros ->. auto. Qed.

Lemma without_system_insert srv srv' l ms :
  heap srv' = <[l := ms]> (heap srv) ->
  Forall (fun m => is_system m = false) ms ->
  heap_without_system srv -> heap_without_system srv'.
Proof.
  unfold heap_without_system. intros -> Hms H l' ms' Hl'.
  destruct (decide (l = l')) as [<- | Hne].
  - rewrite lookup_insert_eq in Hl'. by inversion Hl'; subst.
  - rewrite lookup_insert_ne in Hl' by done. eauto.
Qed.

Lemma deref_without_system srv l :
  heap_without_system srv -> Forall (fun m => is_system m = false) (deref srv l).
Proof.
  intros H. unfold deref. destruct (heap srv !! l) as [ms |] eqn:E; simpl.
  - eauto.
  - constructor.
Qed.

Lemma alloc_without_system ms srv :
  heap_without_system srv ->
  Forall (fun m => is_system m = false) ms ->
  heap_without_system (fst (alloc ms srv)).
Proof.
  intros H Hms. unfold alloc. simpl.
  by eapply (without_system_insert srv); [reflexivity | |].
Qed.

Lemma get_or_create_without_system session_id srv :
  heap_without_system srv ->
  heap_without_system (fst (get_or_create_session session_id srv)).
Proof.
  intros H. unfold get_or_create_session.
  destruct (known_session session_id srv) as [sid |].
  - pose proof (heap_now srv) as Hn. destruct (now srv) as [srv1 t].
    simpl in Hn. destruct (chat_sessions srv1 !! sid); simpl;
      by apply (without_system_eq srv).
  - pose proof (heap_new_uuid srv) as H1.
    destruct (new_uuid srv) as [srv1 u]. simpl in H1.
    pose proof (heap_now srv1) as H2. destruct (now srv1) as [srv2 t2].
    simpl in H2. pose proof (heap_now srv2) as H3.
    destruct (now srv2) as [srv3 t3]. simpl in H3. simpl.
    eapply (without_system_insert srv); [| constructor | exact H].
    simpl. by rewrite H3, H2, H1.
Qed.

Lemma chat_without_system session_id message srv srv' r :
  chat_with_agent session_id message srv = (srv', r) ->
  heap_without_system srv -> heap_without_system srv'.
Proof.
  unfold chat_with_agent. intros H Hclean.
  pose proof (get_or_create_without_system session_id srv Hclean) as H0.
  destruct (get_or_create_session session_id srv) as [srv0 sid].
  simpl in H0. destruct (chat_sessions srv0 !! sid) as [session |];
    [| by inversion H; subst].
  set (srv1 := log_message sid "user" message srv0) in *.
  assert (H1 : heap_without_system srv1).
  { apply (without_system_eq srv0); [apply heap_log_message | exact H0]. }
  set (srv2 := list_append (s_state session) (HumanMessage message) srv1) in *.
  assert (H2 : heap_without_system srv2).
  { eapply (without_system_insert srv1); [reflexivity | | exact H1].
    apply Forall_app. split; [by apply deref_without_system |].
    by repeat constructor. }
  pose proof (run_spec (S recursion_limit) START
                (deref srv2 (s_state session)) (sys srv2) I) as [_ Hfin].
  unfold graph_invoke in H.
  destruct (run (S recursion_limit) START (deref srv2 (s_state session))
              (sys srv2)) as [sys' [result | e]].
  - destruct (Hfin result eq_refl) as [_ (added & -> & Hadded)].
    clear Hfin.
    destruct (last (deref srv2 (s_state session) ++ added)) as [m |];
      [| by inversion H; subst].
    assert (Hres : Forall (fun m => is_system m = false)
                     (deref srv2 (s_state session) ++ added)).
    { apply Forall_app. split; [by apply deref_without_system | exact Hadded]. }
    match type of H with
    | context [alloc ?ms ?x] =>
        pose proof (alloc_without_system ms x) as H3;
        destruct (alloc ms x) as [srv3 l]
    end.
    simpl fst in H3. specialize (H3 H2 Hres).
    match type of H with
    | context [log_message sid "assistant" ?c ?x] => set (srv4 := x) in H
    end.
    assert (H4 : heap_without_system srv4).
    { apply (without_system_eq srv3); [| exact H3].
      subst srv4. by destruct (chat_sessions srv3 !! sid). }
    set (srv5 := log_message sid "assistant" (message_content m) srv4) in *.
    assert (H5 : heap_without_system srv5).
    { apply (without_system_eq srv4); [apply heap_log_message | exact H4]. }
    pose proof (heap_now srv5) as Hn6. destruct (now srv5) as [srv6 t6].
    simpl in Hn6.
    match type of H with
    | context [new_uuid ?x] => set (srv7 := x) in H
    end.
    assert (H7 : heap srv7 = heap srv5).
    { subst srv7. rewrite <- Hn6. by destruct (chat_sessions srv6 !! sid). }
    pose proof (heap_new_uuid srv7) as Hn8.
    destruct (new_uuid srv7) as [srv8 u]. simpl in Hn8.
    pose proof (heap_now srv8) as Hn9. destruct (now srv8) as [srv9 t9].
    simpl in Hn9. inversion H; subst srv'.
    apply (without_system_eq srv5); [| exact H5]. by rewrite Hn9, Hn8, H7.
  - inversion H; subst. by apply (without_system_eq srv2).
Qed.

(** C5.  Every call of the chat model made in a run of the graph gets a
    sequence whose first message is the system prompt; the history the
    run returns is the history it was given followed by messages none of
    which is a system message; and a turn of the chat endpoint leaves
    the stored histories free of system messages when they were. *)
Theorem system_prompt_first_and_never_stored :
  (forall st s,
      extends_by prompt_first s (fst (graph_invoke st s))) /\
  (forall st s final,
      snd (graph_invoke st s) = Ok final ->
      grows_without_system st final) /\
  (forall session_id message srv srv' r,
      chat_with_agent session_id message srv = (srv', r) ->
      heap_without_system srv -> heap_without_system srv').
Proof.
  split; [| split].
  - intros st s. by apply (run_spec (S recursion_limit) START st s I).
  - intros st s final H.
    by apply (run_spec (S recursion_limit) START st s I) in H as [_ Hg].
  - apply chat_without_system.
Qed.

End LoopProperties.

(* ===================================================================== *)
(** ** Further properties of the code *)
(* ===================================================================== *)

Section Coverage.

Context {env : Environment}.

(** *** tools.py: the details of a movie *)

Lemma object_with_getitem keys p k :
  object_with keys p = true -> In k keys ->
  py_getitem p k = Ok (field p k).
Proof.
  destruct p as [| | | | | | items]; try discriminate. simpl.
  intros H Hk. rewrite forallb_forall in H. specialize (H k Hk).
  destruct (assoc k items); [reflexivity | discriminate].
Qed.

Lemma directors_of_filter crew :
  forallb crew_member_ok crew = true ->
  directors_of crew =
  Ok (map (fun p => field p "name") (filter (fun p => is_director p = true) crew)).
Proof.
  induction crew as [| p crew IH]; simpl; [reflexivity |].
  intros H. apply andb_prop in H as [Hp Hc].
  apply andb_prop in Hp as [Hjob Hname].
  rewrite (object_with_getitem ["job"] p "job" Hjob) by (simpl; auto).
  simpl. fold (is_director p). rewrite filter_cons.
  destruct (is_director p) eqn:Ed; simpl in Hname.
  - rewrite (object_with_getitem ["name"] p "name" Hname) by (simpl; auto).
    simpl. rewrite (IH Hc). simpl.
    destruct (decide (true = true)); [reflexivity | congruence].
  - rewrite (IH Hc).
    destruct (decide (false = true)); [discriminate | reflexivity].
Qed.

Lemma cast_entry_summary p :
  object_with ["name"; "character"] p = true ->
  cast_entry p = Ok (cast_summary p).
Proof.
  intros H. unfold cast_entry, cast_summary.
  rewrite (object_with_getitem _ p "name" H) by (simpl; auto).
  rewrite (object_with_getitem _ p "character" H) by (simpl; auto).
  reflexivity.
Qed.

Lemma forallb_Forall_eq {A B} (P : A -> bool) (f : A -> result B) (g : A -> B)
    (l : list A) :
  (forall x, P x = true -> f x = Ok (g x)) ->
  forallb P l = true -> Forall (fun x => f x = Ok (g x)) l.
Proof.
  intros Hf H. apply Forall_forall. intros x Hx.
  apply Hf. rewrite forallb_forall in H. apply H. by apply list_elem_of_In.
Qed.

Lemma list_at_get items k :
  list_or_missing items k = true ->
  py_get (PyDict items) k (PyList []) = Ok (PyList (list_at items k)).
Proof.
  unfold list_or_missing, list_at. simpl.
  destruct (assoc k items) as [[| | | | | l |] |]; try discriminate;
    reflexivity.
Qed.

Lemma filter_details_summary items :
  details_ok items = true ->
  filter_details (PyDict items) = Ok (details_summary items).
Proof.
  unfold details_ok. intros H.
  apply andb_prop in H as [H Hcred]. apply andb_prop in H as [Hgl Hg].
  unfold filter_details, details_summary.
  assert (Hfield : forall k,
             py_get (PyDict items) k PyNone = Ok (field (PyDict items) k)).
  { intros k. simpl. by destruct (assoc k items). }
  rewrite !Hfield. cbn -[field py_get py_in mapR dict_set directors_of].
  rewrite (list_at_get items "genres" Hgl).
  cbn -[field py_get py_in mapR dict_set directors_of].
  rewrite (mapR_map _ (fun g => field g "name")).
  2:{ eapply forallb_Forall_eq; [| exact Hg].
      intros g Hgo. apply (object_with_getitem ["name"]); simpl; auto. }
  cbn -[field py_get mapR dict_set directors_of].
  destruct (assoc "credits" items) as [[| | | | | | credits] |];
    try discriminate; cbn -[field py_get mapR dict_set directors_of];
    [| reflexivity].
  apply andb_prop in Hcred as [Hcred Hcrew].
  apply andb_prop in Hcred as [Hcred Hcl].
  apply andb_prop in Hcred as [Hcal Hcast].
  rewrite (list_at_get credits "cast" Hcal).
  cbn -[field py_get mapR dict_set directors_of].
  rewrite (mapR_map _ cast_summary).
  2:{ eapply forallb_Forall_eq; [| exact Hcast]. apply cast_entry_summary. }
  cbn -[field py_get mapR directors_of].
  rewrite (list_at_get credits "crew" Hcl).
  cbn -[field py_get mapR directors_of].
  rewrite (directors_of_filter _ Hcrew).
  cbn -[field]. unfold first_director.
  by destruct (filter (fun p => is_director p = true) (list_at credits "crew")).
Qed.
Lemma mapR_length {A B} (f : A -> result B) (l : list A) ys :
  mapR f l = Ok ys -> length ys = length l.
Proof.
  intros H. apply mapR_inv in H. symmetry. eapply Forall2_length; eauto.
Qed.

Lemma py_iter_slice_length n v top l :
  py_slice n v = Ok top -> py_iter top = Ok l -> length l <= n.
Proof.
  destruct v; try discriminate; simpl; intros H; inversion H; subst top;
    simpl; intros H'; inversion H'; subst l.
  - rewrite length_chars. apply str_len_take.
  - rewrite length_firstn. lia.
Qed.

(** What [filter_details] returns, when it returns. *)
Lemma filter_details_keys response d :
  filter_details response = Ok d ->
  exists items,
    d = PyDict items /\
    map fst items =
      details_keys ++
      (if has_credits response then ["cast"; "director"] else []) /\
    (forall k, In k details_scalars ->
               assoc k items = Some (field response k)) /\
    (forall cast, assoc "cast" items = Some (PyList cast) ->
                  length cast <= 10).
Proof.
  destruct response as [| | | | | | ritems]; try discriminate.
  unfold filter_details.
  assert (Hfield : forall k,
             py_get (PyDict ritems) k PyNone = Ok (field (PyDict ritems) k)).
  { intros k. simpl. by destruct (assoc k ritems). }
  rewrite !Hfield. cbn -[field py_get py_iter py_slice mapR directors_of].
  destruct (py_get (PyDict ritems) "genres" (PyList [])) as [gs | e];
    cbn -[field py_get py_iter py_slice mapR directors_of]; [| discriminate].
  destruct (py_iter gs) as [gl | e];
    cbn -[field py_get py_iter py_slice mapR directors_of]; [| discriminate].
  destruct (mapR _ gl) as [genres | e];
    cbn -[field py_get py_iter py_slice mapR directors_of]; [| discriminate].
  destruct (assoc "credits" ritems) as [credits |] eqn:Ec;
    cbn -[field py_get py_iter py_slice mapR directors_of].
  - destruct (py_get credits "cast" (PyList [])) as [cs | e];
      cbn -[field py_get py_iter py_slice mapR directors_of];
      [| discriminate].
    destruct (py_slice 10 cs) as [top | e] eqn:Etop;
      cbn -[field py_get py_iter py_slice mapR directors_of];
      [| discriminate].
    destruct (py_iter top) as [cl | e] eqn:Ecl;
      cbn -[field py_get py_iter py_slice mapR directors_of];
      [| discriminate].
    destruct (mapR cast_entry cl) as [cast | e] eqn:Ecast;
      cbn -[field py_get py_iter py_slice mapR directors_of];
      [| discriminate].
    destruct (py_get credits "crew" (PyList [])) as [crew | e];
      cbn -[field py_get py_iter py_slice mapR directors_of];
      [| discriminate].
    destruct (py_iter crew) as [crl | e];
      cbn -[field py_get py_iter py_slice mapR directors_of];
      [| discriminate].
    destruct (directors_of crl) as [directors | e];
      cbn -[field py_get py_iter py_slice mapR directors_of];
      [| discriminate].
    intros H. inversion H; subst d. eexists. split; [reflexivity |].
    split; [reflexivity |]. split.
    + intros k Hk. simpl in Hk.
      repeat (destruct Hk as [<- | Hk]; [reflexivity |]). destruct Hk.
    + intros cast' Hc. cbn in Hc. inversion Hc; subst cast'.
      rewrite (mapR_length _ _ _ Ecast).
      eapply py_iter_slice_length; eauto.
  - intros H. inversion H; subst d. eexists. split; [reflexivity |].
    split; [reflexivity |]. split.
    + intros k Hk. simpl in Hk.
      repeat (destruct Hk as [<- | Hk]; [reflexivity |]). destruct Hk.
    + intros cast' Hc. cbn in Hc. discriminate.
Qed.

(** [get_movie_details] is its request followed by [filter_details]. *)
Lemma get_movie_details_body movie_id append_credits s w' status response :
  remote_http (world s) (details_request movie_id append_credits) =
    (w', HttpResponse status (Some response)) ->
  get_movie_details movie_id append_credits s =
  (mkSys w' (events s ++ [EvHttpGet (details_request movie_id append_credits)]),
   filter_details response).
Proof.
  intros H. unfold get_movie_details, bindM, requests_get_json, liftR.
  destruct append_credits; unfold details_request in *; simpl in H |- *;
    by rewrite H.
Qed.

(** X1.  [get_movie_details] sends one request, to the movie's page, with
    [append_to_response=credits] exactly when credits are asked for.
    Whatever it returns is a dict with the ten keys from [id] to
    [genres], the first nine holding the provider's fields ([None] for a
    missing one), followed by [cast] and [director] exactly when the
    response has the key [credits]; the cast has ten entries at most. *)
Theorem movie_details_shape movie_id append_credits s :
  events (fst (get_movie_details movie_id append_credits s)) =
    events s ++ [EvHttpGet (details_request movie_id append_credits)] /\
  (assoc "append_to_response"
     (params (details_request movie_id append_credits)) =
   if append_credits then Some (PyStr "credits") else None) /\
  (forall w' status response d,
      remote_http (world s) (details_request movie_id append_credits) =
        (w', HttpResponse status (Some response)) ->
      snd (get_movie_details movie_id append_credits s) = Ok d ->
      exists items,
        d = PyDict items /\
        map fst items =
          details_keys ++
          (if has_credits response then ["cast"; "director"] else []) /\
        (forall k, In k details_scalars ->
                   assoc k items = Some (field response k)) /\
        (forall cast, assoc "cast" items = Some (PyList cast) ->
                      length cast <= 10)).
Proof.
  split; [| split].
  - unfold get_movie_details, bindM, liftR.
    match goal with
    | |- context [requests_get_json ?u ?p s] =>
        pose proof (requests_get_json_events u p s) as H;
        destruct (requests_get_json u p s) as [s1 [v | e]]
    end; simpl in *; rewrite H; by destruct append_credits.
  - by destruct append_credits.
  - intros w' status response d Hhttp Hd.
    rewrite (get_movie_details_body _ _ _ _ _ _ Hhttp) in Hd. simpl in Hd.
    by apply filter_details_keys.
Qed.

(** X2.  When the provider answers with the details of a movie (genres
    with names; credits, if any, with a cast that has names and
    characters and a crew that has jobs), [get_movie_details] returns:
    the fields of the movie, the names of its genres, and with credits
    the first ten members of the cast in their order and as [director]
    the name of the first member of the crew whose job is [Director],
    [None] when there is none. *)
Theorem movie_details_of_well_formed movie_id append_credits s w' status items :
  remote_http (world s) (details_request movie_id append_credits) =
    (w', HttpResponse status (Some (PyDict items))) ->
  details_ok items = true ->
  get_movie_details movie_id append_credits s =
  (mkSys w' (events s ++ [EvHttpGet (details_request movie_id append_credits)]),
   Ok (details_summary items)).
Proof.
  intros Hhttp Hok.
  rewrite (get_movie_details_body _ _ _ _ _ _ Hhttp).
  by rewrite (filter_details_summary items Hok).
Qed.

(** *** tools.py: the list tools *)

(** X3.  When the provider's answer to a list tool is JSON without the
    key [results] (an error object, say), the tool returns the answer
    unchanged; a body that is no container at all ([null], a number, a
    boolean) makes it raise [TypeError]. *)
Theorem list_tools_pass_through (t : ListTool) s w' status response :
  remote_http (world s) (list_tool_request t) =
    (w', HttpResponse status (Some response)) ->
  (py_in "results" response = Ok false ->
   snd (run_list_tool t s) = Ok response) /\
  (forall items, response = PyDict items -> assoc "results" items = None ->
                 snd (run_list_tool t s) = Ok response) /\
  (match response with
   | PyNone | PyBool _ | PyInt _ | PyFloat _ => True
   | _ => False
   end -> snd (run_list_tool t s) = Raise TypeError).
Proof.
  intros Hhttp. rewrite (run_list_tool_body t s w' status response Hhttp).
  simpl. unfold filter_results. split; [| split].
  - intros ->. reflexivity.
  - intros items -> Hnone. simpl. by rewrite Hnone.
  - destruct response; simpl; tauto.
Qed.

Lemma filter_movie_keys limit movie f :
  filter_movie limit movie = Ok f ->
  exists ov,
    f = PyDict [("id", field movie "id"); ("title", field movie "title");
                ("release_date", field movie "release_date");
                ("vote_average", field movie "vote_average");
                ("overview", ov)].
Proof.
  destruct movie as [| | | | | | items]; try discriminate.
  unfold filter_movie.
  assert (Hfield : forall k,
             py_get (PyDict items) k PyNone = Ok (field (PyDict items) k)).
  { intros k. simpl. by destruct (assoc k items). }
  rewrite !Hfield. cbn -[field truncate_overview].
  destruct (truncate_overview limit (PyDict items)) as [ov | e];
    cbn -[field]; [| discriminate].
  intros H. inversion H. eauto.
Qed.

(** X4.  Each movie a list tool returns has exactly the keys [id],
    [title], [release_date], [vote_average] and [overview], in this
    order, whatever else the provider sent for the movie; the first four
    hold the provider's fields, [None] for a missing one. *)
Theorem filtered_movies_have_five_keys (t : ListTool) s w' status response d :
  remote_http (world s) (list_tool_request t) =
    (w', HttpResponse status (Some response)) ->
  py_in "results" response = Ok true ->
  snd (run_list_tool t s) = Ok d ->
  exists filtered,
    field d "results" = PyList filtered /\
    Forall (fun f => exists items,
                f = PyDict items /\ map fst items = movie_keys) filtered /\
    (forall movies,
        field response "results" = PyList movies ->
        Forall2 (fun movie f =>
                   forall k, In k ["id"; "title"; "release_date"; "vote_average"] ->
                             field f k = field movie k)
                (firstn 5 movies) filtered).
Proof.
  intros Hhttp Hin Hd.
  rewrite (run_list_tool_body t s w' status response Hhttp) in Hd.
  simpl in Hd. unfold filter_results in Hd. rewrite Hin in Hd. simpl in Hd.
  destruct (py_getitem response "results") as [rs | e] eqn:Ers;
    simpl in Hd; [| discriminate].
  destruct (py_slice 5 rs) as [top | e] eqn:Etop; simpl in Hd; [| discriminate].
  destruct (py_iter top) as [ms | e] eqn:Ems; simpl in Hd; [| discriminate].
  destruct (mapR (filter_movie (overview_limit t)) ms) as [filtered | e]
    eqn:Emap; simpl in Hd; [| discriminate].
  destruct (py_get response "total_results" (PyInt 0)) as [tr | e];
    simpl in Hd; [| discriminate].
  destruct (py_min5 tr) as [total | e]; simpl in Hd; [| discriminate].
  inversion Hd; subst d. exists filtered. split; [reflexivity |].
  apply mapR_inv in Emap. split.
  - clear -Emap. induction Emap as [| m f ms fs Hf _ IH]; constructor; auto.
    apply filter_movie_keys in Hf as [ov ->]. eauto.
  - intros movies Hmovies.
    destruct response as [| | | | | | items]; try discriminate.
    simpl in Ers, Hmovies. destruct (assoc "results" items) as [r |];
      [| discriminate]. inversion Ers; subst r rs. simpl in Etop.
    inversion Etop; subst top. simpl in Ems. inversion Ems; subst ms.
    eapply Forall2_impl; [exact Emap |]. simpl.
    intros movie f Hf k Hk. apply filter_movie_keys in Hf as [ov ->].
    simpl in Hk.
    repeat (destruct Hk as [<- | Hk]; [reflexivity |]). destruct Hk.
Qed.

(** Whatever the outcome, a list tool has made its one request. *)
Lemma run_list_tool_events (t : ListTool) s :
  events (fst (run_list_tool t s)) =
  events s ++ [EvHttpGet (list_tool_request t)].
Proof.
  destruct t as [q p | g o p | l p | w p | m p];
    unfold run_list_tool, search_movies, discover_movies, get_movie_lists,
      get_trending_movies, get_movie_recommendations, bindM, liftR;
    match goal with
    | |- context [requests_get_json ?u ?ps s] =>
        pose proof (requests_get_json_events u ps s) as H;
        destruct (requests_get_json u ps s) as [s1 [v | e]]
    end; simpl in *; rewrite H; try reflexivity;
    (destruct g as [g |]; [destruct (g =? 0)%Z |]); simpl;
    by rewrite ?app_nil_r.
Qed.

(** X5.  [discover_movies] sends one request to [/discover/movie] with
    the sorting, the page and [include_adult] false; the genre filter
    [with_genres] is sent exactly when a genre identifier other than 0
    is given, and then it is that identifier. *)
Theorem discover_sends_genre_unless_zero genre_id sort_by page s :
  exists r,
    events (fst (discover_movies genre_id sort_by page s)) =
      events s ++ [EvHttpGet r] /\
    url r = tmdb +:+ "/discover/movie" /\
    assoc "sort_by" (params r) = Some (PyStr sort_by) /\
    assoc "page" (params r) = Some (PyInt page) /\
    assoc "include_adult" (params r) = Some (PyBool false) /\
    (assoc "with_genres" (params r) = None <->
     genre_id = None \/ genre_id = Some 0%Z) /\
    (forall g, genre_id = Some g -> g <> 0%Z ->
               assoc "with_genres" (params r) = Some (PyInt g)).
Proof.
  exists (list_tool_request (DiscoverMovies genre_id sort_by page)).
  split.
  - apply (run_list_tool_events (DiscoverMovies genre_id sort_by page)).
  - split; [reflexivity |]. split; [reflexivity |]. split; [reflexivity |].
    split; [reflexivity |].
    destruct genre_id as [g |]; [destruct (Z.eqb_spec g 0) as [-> | Hg] |];
      simpl.
    + split; [split; auto | intros g' Hg' Hne; congruence].
    + rewrite (proj2 (Z.eqb_neq g 0) Hg). simpl. split.
      * split; [discriminate | intros [H | H]; congruence].
      * intros g' Hg' _. congruence.
    + split; [split; auto | intros g' Hg'; discriminate].
Qed.
(** *** main.py: the movie endpoints *)

Lemma endpoint_call_shape (ep : MovieEndpoint) :
  exists req post, forall s, endpoint_call ep s = shape_run (OneGet req post) s.
Proof.
  destruct ep; simpl; eexists (mkRequest _ _), _; intros s; reflexivity.
Qed.

Lemma one_get_outcome req post s :
  snd (shape_run (OneGet req post) s) =
  match snd (remote_http (world s) (mkRequest (url req) (params req))) with
  | NoResponse => Raise ConnectionError
  | HttpResponse _ None => Raise JSONDecodeError
  | HttpResponse _ (Some v) => post v
  end.
Proof.
  simpl. unfold bindM, requests_get_json, liftR.
  destruct (remote_http (world s) _) as [w' [| st [v |]]]; reflexivity.
Qed.

Lemma movie_endpoint_of (m : M value) (t : Tool) args s :
  (forall s0, invoke_tool t (PyDict args) s0 = m s0) ->
  movie_endpoint t args s =
  (fst (m s),
   match snd (m s) with
   | Ok v => Ok v
   | Raise e => Raise (http_500 e)
   end).
Proof.
  intros H. unfold movie_endpoint. rewrite H.
  by destruct (m s) as [s1 [v | e]].
Qed.

(** X6.  A movie endpoint behaves as the function of tools.py called
    with the endpoint's arguments and the defaults of the signature
    (page 1, credits included): the arguments are never rejected, the
    result is returned as it is, and any exception [e] reaches the caller
    as HTTP 500 with [str(e)].  With the provider out of reach that is
    the text of the connection error, with a body that is not JSON that
    of the decoding error. *)
Theorem endpoints_call_tools_with_defaults (ep : MovieEndpoint) s :
  run_endpoint ep s =
    (fst (endpoint_call ep s),
     match snd (endpoint_call ep s) with
     | Ok v => Ok v
     | Raise e => Raise (http_500 e)
     end) /\
  ((forall req, snd (remote_http (world s) req) = NoResponse) ->
   snd (run_endpoint ep s) = Raise (http_500 ConnectionError)) /\
  ((forall req, exists status,
       snd (remote_http (world s) req) = HttpResponse status None) ->
   snd (run_endpoint ep s) = Raise (http_500 JSONDecodeError)).
Proof.
  assert (E : run_endpoint ep s =
              (fst (endpoint_call ep s),
               match snd (endpoint_call ep s) with
               | Ok v => Ok v
               | Raise e => Raise (http_500 e)
               end)).
  { destruct ep; apply movie_endpoint_of; intros s0;
      unfold invoke_tool, tool_search_movies, tool_get_movie_lists,
        tool_get_movie_details, tool_get_watch_providers,
        tool_get_movie_recommendations, tool_get_trending_movies,
        arg_int, arg_str, arg_bool, bindM, liftR;
      cbn [assoc String.eqb Ascii.eqb Bool.eqb];
      rewrite ?schema_int_exact, ?schema_str_exact; reflexivity. }
  split; [exact E |].
  destruct (endpoint_call_shape ep) as (req & post & Hshape).
  split.
  - intros Hoff. rewrite E. simpl. rewrite Hshape, one_get_outcome.
    by rewrite Hoff.
  - intros Hbad. rewrite E. simpl. rewrite Hshape, one_get_outcome.
    destruct (Hbad (mkRequest (url req) (params req))) as [st ->].
    reflexivity.
Qed.

(** *** agent.py: the router, the shape of a turn, the command line *)

(** X7.  [router] and [should_continue] take the same decision on an
    assistant message: "tools" where the other says "continue", "end"
    where it says "end".  On a last message that is not an assistant
    message [should_continue] raises and [router] answers "end"; on an
    empty history both raise. *)
Theorem router_agrees_with_should_continue (state : ChatState) :
  (should_continue state = Ok "continue" <-> router state = Ok "tools") /\
  (should_continue state = Ok "end" -> router state = Ok "end") /\
  (forall m, last state = Some m ->
             (forall c calls, m <> AIMessage c calls) ->
             should_continue state = Raise AttributeError /\
             router state = Ok "end") /\
  (state = [] ->
   should_continue state = Raise IndexError /\
   router state = Raise IndexError) /\
  (state <> [] -> exists branch, router state = Ok branch).
Proof.
  unfold should_continue, router.
  destruct state as [| m0 rest] eqn:Est.
  - simpl. repeat split; try discriminate; try congruence.
  - rewrite <- Est.
    assert (Hsome : exists m, last state = Some m).
    { rewrite Est. destruct (last (m0 :: rest)) eqn:E; [eauto |].
      apply last_None in E. discriminate. }
    destruct Hsome as [m Hm]. rewrite Hm.
    destruct m as [c | c | c [| call calls] | c n i st];
      (split; [split; (discriminate || reflexivity) |]);
      (split; [try discriminate; reflexivity |]);
      (split; [intros m' Hm' Hne; inversion Hm'; subst m';
               first [ split; reflexivity
                     | exfalso; eapply Hne; reflexivity ] |]);
      (split; [intros ->; discriminate | intros _; eauto]).
Qed.

Lemma answers_no_assistant calls results :
  Forall2 answers calls results -> assistant_messages results = 0.
Proof.
  induction 1 as [| call m calls results (c & st & ->) _ IH]; simpl; auto.
Qed.

Lemma assistant_messages_app ms1 ms2 :
  assistant_messages (ms1 ++ ms2) =
  assistant_messages ms1 + assistant_messages ms2.
Proof.
  induction ms1 as [| [] ms1 IH]; simpl; auto.
Qed.

(** The invariant behind the shape of a turn, at each node. *)
Lemma run_shape steps : forall n st s s' final,
  run steps n st s = (s', Ok final) ->
  match n with
  | START | N_llm =>
      exists added,
        final = st ++ added /\ turn_shape added /\
        model_calls (events s') =
        model_calls (events s) + assistant_messages added
  | N_tools =>
      forall c calls,
        last st = Some (AIMessage c calls) -> calls <> [] ->
        exists results rest,
          final = st ++ results ++ rest /\
          Forall2 answers calls results /\ turn_shape rest /\
          model_calls (events s') =
          model_calls (events s) + assistant_messages rest
  | END => final = st /\ s' = s
  end.
Proof.
  induction steps as [| steps IH]; intros n st s s' final H; [discriminate |].
  destruct n.
    + rewrite run_unfold in H by discriminate. simpl in H.
      exact (IH N_llm st s s' final H).
    + rewrite run_unfold in H by discriminate.
      destruct (step N_llm st s) as [s1 [[n1 st1] | e]] eqn:E;
        [| discriminate].
      apply step_llm_inv in E as (c & calls & -> & Hn & Hev & _).
      simpl in H. destruct Hn as [[-> ->] | [-> Hne]].
      * destruct steps as [| steps]; [discriminate |].
        rewrite run_END in H. inversion H; subst.
        exists [AIMessage c []]. split; [reflexivity |].
        split; [constructor |]. rewrite Hev, model_calls_app. reflexivity.
      * specialize (IH N_tools _ _ _ _ H c calls).
        rewrite last_snoc in IH.
        destruct (IH eq_refl Hne) as (rs & rest & -> & Ha & Hs & Hc).
        exists (AIMessage c calls :: rs ++ rest). split.
        { by rewrite <- app_assoc. }
        split; [by constructor |].
        rewrite Hc, Hev, model_calls_app. simpl.
        rewrite assistant_messages_app, (answers_no_assistant _ _ Ha). lia.
    + intros c calls Hlast Hne.
      rewrite run_unfold in H by discriminate.
      destruct (step_tools_total st c calls s Hlast) as (s1 & rs & E & Ha & He).
      rewrite E in H. simpl in H.
      destruct (IH N_llm _ _ _ _ H) as (added & -> & Hs & Hc).
      exists rs, added. split; [by rewrite <- app_assoc |].
      split; [exact Ha |]. split; [exact Hs |].
      rewrite Hc. destruct He as (evs & -> & F).
      by rewrite model_calls_app, (model_calls_http _ F), Nat.add_0_r.
    + rewrite run_END in H. inversion H; subst. auto.
Qed.

(** X8.  The history a finished turn returns is the history it was given
    followed by rounds, each an assistant message with pending requests
    and then the results of exactly these requests in their order, and
    by the final answer; the chat model was called once for each
    assistant message. *)
Theorem finished_turn_shape st s s' final :
  graph_invoke st s = (s', Ok final) ->
  exists added,
    final = st ++ added /\ turn_shape added /\
    model_calls (events s') =
    model_calls (events s) + assistant_messages added.
Proof.
  intros H. exact (run_shape (S recursion_limit) START st s s' final H).
Qed.

Lemma user_lines_app ms1 ms2 :
  user_lines (ms1 ++ ms2) = user_lines ms1 ++ user_lines ms2.
Proof.
  induction ms1 as [| [] ms1 IH]; simpl; auto. by rewrite IH.
Qed.

Lemma final_answers_app ms1 ms2 :
  final_answers (ms1 ++ ms2) = final_answers ms1 ++ final_answers ms2.
Proof.
  induction ms1 as [| [c | c | c [| call calls] | c n i st] ms1 IH];
    simpl; auto. by rewrite IH.
Qed.

Lemma answers_plain calls results :
  Forall2 answers calls results ->
  user_lines results = [] /\ final_answers results = [].
Proof.
  induction 1 as [| call m calls results (c & st & ->) _ [IH1 IH2]];
    simpl; auto.
Qed.

(** A turn adds no user message and exactly one final answer, its last
    message. *)
Lemma turn_shape_lines added :
  turn_shape added ->
  user_lines added = [] /\
  exists c, final_answers added = [c] /\ last added = Some (AIMessage c []).
Proof.
  induction 1 as [c | c calls results rest Hne Ha _ (IH1 & c' & IH2 & IH3)].
  - simpl. eauto.
  - destruct (answers_plain _ _ Ha) as [Hu Hf]. split.
    + simpl. by rewrite user_lines_app, Hu, IH1.
    + exists c'. split.
      * destruct calls; [congruence |]. simpl.
        by rewrite final_answers_app, Hf, IH2.
      * rewrite app_comm_cons, last_app, IH3. reflexivity.
Qed.

Lemma lower_char_cases (a x X : ascii) :
  lower_char X = x -> lower_char x = x ->
  (forall y, lower_char y = x -> y = x \/ y = X) ->
  (lower_char a = x <-> a = x \/ a = X).
Proof.
  intros HX Hx Hall. split; [apply Hall | intros [-> | ->]; auto].
Qed.

Lemma lower_char_q a : lower_char a = "q"%char <-> a = "q"%char \/ a = "Q"%char.
Proof.
  apply lower_char_cases; try reflexivity.
  intros [[] [] [] [] [] [] [] []]; vm_compute; intros H;
    try discriminate; auto.
Qed.

Lemma lower_char_u a : lower_char a = "u"%char <-> a = "u"%char \/ a = "U"%char.
Proof.
  apply lower_char_cases; try reflexivity.
  intros [[] [] [] [] [] [] [] []]; vm_compute; intros H;
    try discriminate; auto.
Qed.

Lemma lower_char_i a : lower_char a = "i"%char <-> a = "i"%char \/ a = "I"%char.
Proof.
  apply lower_char_cases; try reflexivity.
  intros [[] [] [] [] [] [] [] []]; vm_compute; intros H;
    try discriminate; auto.
Qed.

Lemma lower_char_t a : lower_char a = "t"%char <-> a = "t"%char \/ a = "T"%char.
Proof.
  apply lower_char_cases; try reflexivity.
  intros [[] [] [] [] [] [] [] []]; vm_compute; intros H;
    try discriminate; auto.
Qed.

Lemma str_lower_quit line : str_lower line = "quit" <-> says_quit line.
Proof.
  split.
  - destruct line as [| a [| b [| c [| d [| x rest]]]]]; simpl;
      try discriminate. intros H. inversion H as [[Ha Hb Hc Hd]].
    exists a, b, c, d. split; [reflexivity |].
    rewrite <- lower_char_q, <- lower_char_u, <- lower_char_i,
      <- lower_char_t. auto.
  - intros (a & b & c & d & -> & Ha & Hb & Hc & Hd). simpl.
    apply lower_char_q in Ha. apply lower_char_u in Hb.
    apply lower_char_i in Hc. apply lower_char_t in Hd.
    by rewrite Ha, Hb, Hc, Hd.
Qed.

(** X9.  A line that says quit, in any mix of upper and lower case, and
    only such a line, ends the command-line loop: nothing is sent to the
    chat model for it, the history stays as it is, and the lines after
    it are never read. *)
Theorem repl_stops_at_quit line after st out s :
  (String.eqb (str_lower line) "quit" = true <-> says_quit line) /\
  (says_quit line ->
   repl_loop (line :: after) st out s =
   (s, mkRepl st (out ++ ["> "]) ReplQuit)) /\
  (says_quit line ->
   forall before,
     repl_loop (before ++ line :: after) st out s =
     repl_loop (before ++ [line]) st out s).
Proof.
  split; [| split].
  - rewrite String.eqb_eq. apply str_lower_quit.
  - intros Hq. apply str_lower_quit in Hq. simpl. by rewrite Hq.
  - intros Hq before. apply str_lower_quit in Hq.
    revert st out s. induction before as [| b before IH]; intros st out s.
    + simpl. by rewrite Hq.
    + simpl. destruct (String.eqb (str_lower b) "quit"); [reflexivity |].
      destruct (graph_invoke (st ++ [HumanMessage b]) s)
        as [s1 [result | e]]; try reflexivity.
      destruct (last result); [apply IH | reflexivity].
Qed.

Lemma repl_loop_transcript : forall inputs st out s s' r,
  repl_loop inputs st out s = (s', r) ->
  ended_normally r ->
  exists added answers,
    repl_messages r = st ++ added /\
    user_lines added = lines_before_quit inputs /\
    final_answers added = answers /\
    length answers = length (lines_before_quit inputs) /\
    repl_stdout r = out ++ transcript answers /\
    (repl_end r = ReplQuit <->
     exists line, In line inputs /\ says_quit line).
Proof.
  induction inputs as [| line rest IH]; intros st out s s' r H Hend.
  - simpl in H. inversion H; subst r. exists [], []. simpl.
    rewrite app_nil_r. repeat split; auto; try discriminate.
    intros (line & [] & _).
  - simpl in H. simpl lines_before_quit.
    destruct (String.eqb (str_lower line) "quit") eqn:Eq.
    + inversion H; subst r. exists [], []. simpl. rewrite app_nil_r.
      repeat split; auto. intros _. exists line. split; [by left |].
      apply str_lower_quit. by apply String.eqb_eq.
    + destruct (graph_invoke (st ++ [HumanMessage line]) s)
        as [s1 [result | e]] eqn:Eg.
      2:{ inversion H; subst r. destruct Hend as [Hc | Hc]; discriminate. }
      destruct (run_shape (S recursion_limit) START _ _ _ _ Eg)
        as (added & -> & Hs & _).
      destruct (turn_shape_lines added Hs) as (Hu & c & Hf & Hl).
      rewrite last_app, Hl in H.
      destruct (IH _ _ _ _ _ H Hend)
        as (added' & answers' & Hm & Hu' & Hf' & Hlen & Hout & Hq).
      exists ([HumanMessage line] ++ added ++ added'), (c :: answers').
      split; [by rewrite Hm, <- !app_assoc |].
      split; [simpl; by rewrite user_lines_app, Hu, Hu' |].
      split; [simpl; by rewrite final_answers_app, Hf, Hf' |].
      split; [simpl; by rewrite Hlen |].
      split.
      * rewrite Hout. unfold transcript. simpl.
        rewrite <- !app_assoc. reflexivity.
      * rewrite Hq. split.
        -- intros (l & Hin & Hsq). exists l. split; [by right | exact Hsq].
        -- intros (l & [<- | Hin] & Hsq); [| eauto].
           apply str_lower_quit in Hsq. rewrite Hsq in Eq. discriminate.
Qed.

(** X10.  When the command-line session ends because the user quit or
    the input ran out, the history holds as user messages exactly the
    lines typed before the first quit, in order, and one final answer
    for each; what was written is the banner, then for each of these
    lines the prompt and the final answer of its turn, then the prompt
    the session ended on. *)
Theorem repl_keeps_the_conversation inputs s s' r :
  repl inputs s = (s', r) ->
  ended_normally r ->
  user_lines (repl_messages r) = lines_before_quit inputs /\
  length (final_answers (repl_messages r)) =
    length (lines_before_quit inputs) /\
  repl_stdout r = banner :: transcript (final_answers (repl_messages r)) /\
  (repl_end r = ReplQuit <-> exists line, In line inputs /\ says_quit line).
Proof.
  intros H Hend. unfold repl in H.
  destruct (repl_loop_transcript inputs [] [banner] s s' r H Hend)
    as (added & answers & Hm & Hu & Hf & Hlen & Hout & Hq).
  simpl in Hm. rewrite Hm. subst answers. auto.
Qed.

(** *** main.py: the sessions and the chat endpoint *)

Lemma now_eq srv w t :
  datetime_now (world (sys srv)) = (w, t) ->
  now srv =
  (mkServer (chat_sessions srv) (heap srv) (mkSys w (events (sys srv))), t).
Proof. intros E. unfold now. by rewrite E. Qed.

Lemma new_uuid_eq srv w u :
  uuid4 (world (sys srv)) = (w, u) ->
  new_uuid srv =
  (mkServer (chat_sessions srv) (heap srv) (mkSys w (events (sys srv))), u).
Proof. intros E. unfold new_uuid. by rewrite E. Qed.

Lemma log_message_eq sid r c srv session w t :
  datetime_now (world (sys srv)) = (w, t) ->
  chat_sessions srv !! sid = Some session ->
  log_message sid r c srv =
  mkServer
    (<[sid := mkSession (s_messages session ++ [mkChatMessage r c t])
                        (s_created_at session) (s_last_activity session)
                        (s_state session)]> (chat_sessions srv))
    (heap srv) (mkSys w (events (sys srv))).
Proof.
  intros E H. unfold log_message. rewrite (now_eq srv w t E).
  cbn [chat_sessions]. by rewrite H.
Qed.

(** One turn of [/chat], once the session is found or created: what the
    store and the answer are, from the outcome of the graph run. *)
Lemma chat_turn session_id message srv srv0 sid session :
  get_or_create_session session_id srv = (srv0, sid) ->
  chat_sessions srv0 !! sid = Some session ->
  forall w1 t1, datetime_now (world (sys srv0)) = (w1, t1) ->
  let l := s_state session in
  let hist := deref srv0 l ++ [HumanMessage message] in
  let heap1 := <[l := hist]> (heap srv0) in
  let user := mkChatMessage "user" message t1 in
  match graph_invoke hist (mkSys w1 (events (sys srv0))) with
  | (sys1, Raise e) =>
      chat_with_agent session_id message srv =
      (mkServer
         (<[sid := mkSession (s_messages session ++ [user])
                             (s_created_at session)
                             (s_last_activity session) l]>
            (chat_sessions srv0))
         heap1 sys1,
       Raise (agent_processing_failed e))
  | (sys1, Ok result) =>
      exists c w2 t2 w3 t3 w4 u w5 t4,
        last result = Some (AIMessage c []) /\
        datetime_now (world sys1) = (w2, t2) /\
        datetime_now w2 = (w3, t3) /\
        uuid4 w3 = (w4, u) /\
        datetime_now w4 = (w5, t4) /\
        chat_with_agent session_id message srv =
        (mkServer
           (<[sid := mkSession
                       (s_messages session ++
                        [user; mkChatMessage "assistant" c t2])
                       (s_created_at session) t3
                       (fresh (dom heap1))]>
              (chat_sessions srv0))
           (<[fresh (dom heap1) := result]> heap1)
           (mkSys w5 (events sys1)),
         Ok (mkChatResponse c sid u t4))
  end.
Proof.
  intros Hgoc Hsession w1 t1 E1 l hist heap1 user.
  unfold chat_with_agent. rewrite Hgoc, Hsession.
  rewrite (log_message_eq sid "user" message srv0 session w1 t1 E1 Hsession).
  unfold list_append, deref. cbn [chat_sessions heap sys world events].
  rewrite lookup_insert_eq. cbn [default from_option id].
  fold (deref srv0 (s_state session)). fold l. fold hist. fold heap1.
  destruct (graph_invoke hist (mkSys w1 (events (sys srv0))))
    as [sys1 [result | e]] eqn:Eg; [| reflexivity].
  destruct (run_spec (S recursion_limit) START hist
              (mkSys w1 (events (sys srv0))) I) as [_ Hfin].
  unfold graph_invoke in Eg. rewrite Eg in Hfin.
  destruct (Hfin result eq_refl) as [[c Hc] _]. rewrite Hc.
  destruct (datetime_now (world sys1)) as [w2 t2] eqn:E2.
  destruct (datetime_now w2) as [w3 t3] eqn:E3.
  destruct (uuid4 w3) as [w4 u] eqn:E4.
  destruct (datetime_now w4) as [w5 t4] eqn:E5.
  exists c, w2, t2, w3, t3, w4, u, w5, t4.
  split; [reflexivity |]. split; [reflexivity |]. split; [exact E3 |].
  split; [exact E4 |]. split; [exact E5 |].
  unfold alloc. cbn [chat_sessions heap sys world events message_content].
  rewrite lookup_insert_eq. unfold set_session at 1.
  cbn [chat_sessions heap sys world events s_messages s_created_at
       s_last_activity s_state].
  erewrite log_message_eq;
    [| cbn [chat_sessions heap sys world events]; exact E2
     | cbn [chat_sessions heap sys world events]; apply lookup_insert_eq].
  cbn [chat_sessions heap sys world events s_messages s_created_at
       s_last_activity s_state].
  erewrite now_eq; [| cbn [chat_sessions heap sys world events]; exact E3].
  cbn [chat_sessions heap sys world events].
  rewrite lookup_insert_eq. unfold set_session.
  cbn [chat_sessions heap sys world events s_messages s_created_at
       s_last_activity s_state].
  erewrite new_uuid_eq; [| cbn [chat_sessions heap sys world events]; exact E4].
  erewrite now_eq; [| cbn [chat_sessions heap sys world events]; exact E5].
  cbn [chat_sessions heap sys world events].
  rewrite !insert_insert_eq. rewrite <- app_assoc. reflexivity.
Qed.

Lemma known_session_spec session_id srv sid :
  known_session session_id srv = Some sid <->
  session_id = Some sid /\ sid <> "" /\ is_Some (chat_sessions srv !! sid).
Proof.
  unfold known_session. destruct session_id as [sid0 |].
  - destruct (String.eqb_spec sid0 "") as [-> | Hne]; simpl.
    + split; [discriminate | intros (H & Hn & _); inversion H; congruence].
    + destruct (decide (is_Some (chat_sessions srv !! sid0))) as [Hs | Hs].
      * rewrite bool_decide_eq_true_2 by exact Hs. split.
        -- intros H; inversion H; subst. auto.
        -- intros (H & _); exact H.
      * rewrite bool_decide_eq_false_2 by exact Hs. split; [discriminate |].
        intros (H & _ & Hs'). inversion H; subst. contradiction.
  - split; [discriminate | intros (H & _); discriminate].
Qed.

Lemma fresh_not_allocated (h : gmap loc (list Message)) :
  h !! fresh (dom h) = None.
Proof. apply not_elem_of_dom. apply is_fresh. Qed.

(** The two ways [get_or_create_session] goes. *)
Lemma get_or_create_cases session_id srv :
  (exists sid old w t,
      known_session session_id srv = Some sid /\
      chat_sessions srv !! sid = Some old /\
      datetime_now (world (sys srv)) = (w, t) /\
      get_or_create_session session_id srv =
      (mkServer
         (<[sid := mkSession (s_messages old) (s_created_at old) t
                             (s_state old)]> (chat_sessions srv))
         (heap srv) (mkSys w (events (sys srv))), sid)) \/
  (exists w1 u w2 created w3 active,
      known_session session_id srv = None /\
      uuid4 (world (sys srv)) = (w1, u) /\
      datetime_now w1 = (w2, created) /\
      datetime_now w2 = (w3, active) /\
      get_or_create_session session_id srv =
      (mkServer
         (<[u := mkSession [] created active (fresh (dom (heap srv)))]>
            (chat_sessions srv))
         (<[fresh (dom (heap srv)) := []]> (heap srv))
         (mkSys w3 (events (sys srv))), u)).
Proof.
  unfold get_or_create_session.
  destruct (known_session session_id srv) as [sid |] eqn:Ek.
  - left. apply known_session_spec in Ek as (_ & _ & [old Hold]).
    destruct (datetime_now (world (sys srv))) as [w t] eqn:E.
    exists sid, old, w, t. rewrite (now_eq srv w t E).
    cbn [chat_sessions]. rewrite Hold. auto.
  - right.
    destruct (uuid4 (world (sys srv))) as [w1 u] eqn:E1.
    destruct (datetime_now w1) as [w2 created] eqn:E2.
    destruct (datetime_now w2) as [w3 active] eqn:E3.
    exists w1, u, w2, created, w3, active.
    rewrite (new_uuid_eq srv w1 u E1).
    erewrite now_eq; [| cbn [sys world]; exact E2].
    erewrite now_eq; [| cbn [sys world]; exact E3].
    unfold alloc, set_session. cbn [chat_sessions heap sys world events].
    auto.
Qed.

(** X11.  [get_or_create_session] always returns the identifier of a
    session that is in the store.  An identifier is taken as known
    exactly when it is given, not empty and in the store; then it is
    returned and only the last-activity time of its session changes.
    Otherwise a new session is stored under a new uuid, with an empty
    log and a new, empty list of graph messages, and no other session is
    touched except one stored under that same uuid. *)
Theorem session_found_or_created session_id srv :
  let out := get_or_create_session session_id srv in
  is_Some (chat_sessions (fst out) !! snd out) /\
  (forall sid,
      known_session session_id srv = Some sid <->
      session_id = Some sid /\ sid <> "" /\
      is_Some (chat_sessions srv !! sid)) /\
  (forall sid old,
      session_id = Some sid -> sid <> "" ->
      chat_sessions srv !! sid = Some old ->
      snd out = sid /\ heap (fst out) = heap srv /\
      chat_sessions (fst out) =
        <[sid := mkSession (s_messages old) (s_created_at old)
                           (snd (datetime_now (world (sys srv))))
                           (s_state old)]> (chat_sessions srv)) /\
  (known_session session_id srv = None ->
   snd out = snd (uuid4 (world (sys srv))) /\
   exists session,
     chat_sessions (fst out) !! snd out = Some session /\
     s_messages session = [] /\
     heap srv !! s_state session = None /\
     deref (fst out) (s_state session) = [] /\
     (forall sid', sid' <> snd out ->
                   chat_sessions (fst out) !! sid' = chat_sessions srv !! sid') /\
     (forall l, l <> s_state session ->
                heap (fst out) !! l = heap srv !! l)).
Proof.
  intros out. subst out.
  split; [| split; [apply known_session_spec | split]].
  - destruct (get_or_create_cases session_id srv)
      as [(sid & old & w & t & _ & _ & _ & ->)
         | (w1 & u & w2 & c & w3 & a & _ & _ & _ & _ & ->)];
      simpl; rewrite lookup_insert_eq; eauto.
  - intros sid old -> Hne Hold.
    assert (Hk : known_session (Some sid) srv = Some sid).
    { apply known_session_spec. rewrite Hold. eauto. }
    destruct (get_or_create_cases (Some sid) srv)
      as [(sid' & old' & w & t & Hk' & Hold' & E & ->)
         | (w1 & u & w2 & c & w3 & a & Hk' & _)]; [| congruence].
    rewrite Hk in Hk'. inversion Hk'; subst sid'.
    rewrite Hold in Hold'. inversion Hold'; subst old'.
    rewrite E. simpl. auto.
  - intros Hk.
    destruct (get_or_create_cases session_id srv)
      as [(sid' & old' & w & t & Hk' & _)
         | (w1 & u & w2 & c & w3 & a & _ & E1 & _ & _ & ->)]; [congruence |].
    rewrite E1. simpl. split; [reflexivity |].
    eexists. split; [apply lookup_insert_eq |]. simpl.
    split; [reflexivity |]. split; [apply fresh_not_allocated |].
    split; [unfold deref; simpl; by rewrite lookup_insert_eq |].
    split.
    + intros sid' Hne. by rewrite lookup_insert_ne.
    + intros l Hne. by rewrite lookup_insert_ne.
Qed.

(** A turn of [/chat] from the store it starts in: the session it works
    on, how that session relates to the store, and the outcome. *)
Lemma chat_entry session_id srv :
  exists srv0 sid session w1 t1,
    get_or_create_session session_id srv = (srv0, sid) /\
    chat_sessions srv0 !! sid = Some session /\
    datetime_now (world (sys srv0)) = (w1, t1) /\
    chat_sessions srv0 = <[sid := session]> (chat_sessions srv) /\
    events (sys srv0) = events (sys srv) /\
    ((exists old,
         session_id = Some sid /\ sid <> "" /\
         chat_sessions srv !! sid = Some old /\
         heap srv0 = heap srv /\
         s_messages session = s_messages old /\
         s_state session = s_state old /\
         s_created_at session = s_created_at old) \/
     (known_session session_id srv = None /\
      sid = snd (uuid4 (world (sys srv))) /\
      s_messages session = [] /\
      s_state session = fresh (dom (heap srv)) /\
      heap srv0 = <[fresh (dom (heap srv)) := []]> (heap srv))).
Proof.
  destruct (get_or_create_cases session_id srv)
    as [(sid & old & w & t & Hk & Hold & E & Hg)
       | (w1 & u & w2 & c & w3 & a & Hk & E1 & E2 & E3 & Hg)].
  - apply known_session_spec in Hk as (-> & Hne & _).
    destruct (datetime_now w) as [w1 t1] eqn:E1.
    eexists _, sid, _, w1, t1. split; [exact Hg |].
    split; [apply lookup_insert_eq |]. split; [exact E1 |].
    split; [reflexivity |]. split; [reflexivity |].
    left. exists old. auto 10.
  - destruct (datetime_now w3) as [w4 t4] eqn:E4.
    eexists _, u, _, w4, t4. split; [exact Hg |].
    split; [apply lookup_insert_eq |]. split; [exact E4 |].
    split; [reflexivity |]. split; [reflexivity |].
    right. rewrite E1. auto 10.
Qed.



(** What a turn that succeeds leaves in the store. *)
Lemma chat_success session_id message srv srv' resp :
  chat_with_agent session_id message srv = (srv', Ok resp) ->
  exists session log0 hist added t1 t2,
    chat_sessions srv' !! cr_session_id resp = Some session /\
    s_messages session =
      log0 ++ [mkChatMessage "user" message t1;
               mkChatMessage "assistant" (cr_response resp) t2] /\
    deref srv' (s_state session) = hist ++ [HumanMessage message] ++ added /\
    turn_shape added /\
    final_answers added = [cr_response resp] /\
    heap srv !! s_state session = None /\
    (forall sid old,
        session_id = Some sid -> sid <> "" ->
        chat_sessions srv !! sid = Some old ->
        cr_session_id resp = sid /\ log0 = s_messages old /\
        hist = deref srv (s_state old) /\
        s_created_at session = s_created_at old) /\
    (known_session session_id srv = None ->
     cr_session_id resp = snd (uuid4 (world (sys srv))) /\
     log0 = [] /\ hist = []).
Proof.
  intros H.
  destruct (chat_entry session_id srv)
    as (srv0 & sid & session & w1 & t1 & Hg & Hs & E1 & Hcs & _ & Hrel).
  pose proof (chat_turn session_id message srv srv0 sid session
                Hg Hs w1 t1 E1) as Ht. cbv zeta in Ht.
  destruct (graph_invoke _ _) as [sys1 [result | e]] eqn:Eg;
    [| rewrite Ht in H; discriminate].
  destruct Ht as (c & w2 & t2 & w3 & t3 & w4 & u & w5 & t4 & Hlast & _ & _ & _
                  & _ & Ht).
  rewrite Ht in H. inversion H; subst srv' resp. clear H Ht.
  destruct (run_shape (S recursion_limit) START _ _ _ _ Eg)
    as (added & -> & Hshape & _).
  destruct (turn_shape_lines added Hshape) as (_ & c' & Hf & Hl').
  rewrite last_app, Hl' in Hlast. inversion Hlast; subst c'.
  set (l := s_state session) in *.
  set (heap1 := <[l := deref srv0 l ++ [HumanMessage message]]> (heap srv0)).
  assert (Hfresh0 : heap srv0 !! fresh (dom heap1) = None).
  { pose proof (fresh_not_allocated heap1) as Hf1. subst heap1.
    apply lookup_insert_None in Hf1. tauto. }
  eexists _, (s_messages session), (deref srv0 l), added, t1, t2.
  cbn [cr_session_id cr_response chat_sessions].
  split; [apply lookup_insert_eq |]. cbn [s_messages s_state s_created_at].
  split; [reflexivity |].
  split.
  { unfold deref at 1. cbn [heap]. rewrite lookup_insert_eq. simpl.
    by rewrite <- app_assoc. }
  split; [exact Hshape |]. split; [exact Hf |].
  destruct Hrel as [(old & -> & Hne & Hold & Hheap & Hm & Hst & Hc)
                   | (Hk & -> & Hm & Hst & Hheap)].
  - split; [by rewrite <- Hheap |]. split.
    + intros sid' old' Hsid' _ Hold'. inversion Hsid'; subst sid'.
      rewrite Hold in Hold'. inversion Hold'; subst old'.
      split; [reflexivity |]. split; [exact Hm |].
      split; [| exact Hc]. subst l. unfold deref. by rewrite Hst, Hheap.
    + intros Hk. exfalso.
      assert (known_session (Some sid) srv = Some sid); [| congruence].
      apply known_session_spec. rewrite Hold. eauto.
  - split.
    { rewrite Hheap in Hfresh0. apply lookup_insert_None in Hfresh0. tauto. }
    split.
    + intros sid' old' -> Hne Hold'. exfalso.
      assert (known_session (Some sid') srv = Some sid'); [| congruence].
      apply known_session_spec. rewrite Hold'. eauto.
    + intros _. split; [reflexivity |]. split; [exact Hm |].
      subst l. unfold deref. rewrite Hst, Hheap, lookup_insert_eq.
      reflexivity.
Qed.

(** X13.  A turn of [/chat] that succeeds stores, under the session
    identifier it answers with, a log that has gained the user message
    and then the assistant message with the text of the answer, and as
    agent state a new list: the history the session had, the user
    message, and what the turn added, whose one final answer is the
    text answered.  For a known identifier the log and the history are
    those of its session; otherwise both start empty under a new uuid. *)
Theorem successful_turn_commits session_id message srv srv' resp :
  chat_with_agent session_id message srv = (srv', Ok resp) ->
  exists session log0 hist added t1 t2,
    chat_sessions srv' !! cr_session_id resp = Some session /\
    s_messages session =
      log0 ++ [mkChatMessage "user" message t1;
               mkChatMessage "assistant" (cr_response resp) t2] /\
    deref srv' (s_state session) = hist ++ [HumanMessage message] ++ added /\
    turn_shape added /\
    final_answers added = [cr_response resp] /\
    heap srv !! s_state session = None /\
    (forall sid old,
        session_id = Some sid -> sid <> "" ->
        chat_sessions srv !! sid = Some old ->
        cr_session_id resp = sid /\ log0 = s_messages old /\
        hist = deref srv (s_state old) /\
        s_created_at session = s_created_at old) /\
    (known_session session_id srv = None ->
     cr_session_id resp = snd (uuid4 (world (sys srv))) /\
     log0 = [] /\ hist = []).
Proof. apply chat_success. Qed.

(** *** main.py: sessions do not share their state *)

Lemma fresh_ne_allocated (h : gmap loc (list Message)) l :
  is_Some (h !! l) -> l <> fresh (dom h).
Proof.
  intros [ms Hl] ->. rewrite fresh_not_allocated in Hl. discriminate.
Qed.

(** Storing a session keeps [store_ok] when no list is lost, the list of
    the session is there, and no other session refers to it. *)
Lemma store_ok_insert srv sid session h' sys' :
  store_ok srv ->
  (forall l, is_Some (heap srv !! l) -> is_Some (h' !! l)) ->
  is_Some (h' !! s_state session) ->
  (forall sid' s', chat_sessions srv !! sid' = Some s' -> sid' <> sid ->
                   s_state s' <> s_state session) ->
  store_ok (mkServer (<[sid := session]> (chat_sessions srv)) h' sys').
Proof.
  intros Hok Hkeep Hthere Hother sid1 s1 H1. cbn [chat_sessions heap] in *.
  destruct (decide (sid = sid1)) as [<- | Hne1].
  - rewrite lookup_insert_eq in H1. inversion H1; subst s1.
    split; [exact Hthere |]. intros sid2 s2 H2 Heq.
    destruct (decide (sid = sid2)) as [| Hne2]; [done |].
    rewrite lookup_insert_ne in H2 by done.
    exfalso. eapply Hother; eauto.
  - rewrite lookup_insert_ne in H1 by done.
    destruct (Hok sid1 s1 H1) as [Hs Hinj]. split; [by apply Hkeep |].
    intros sid2 s2 H2 Heq.
    destruct (decide (sid = sid2)) as [<- | Hne2].
    + rewrite lookup_insert_eq in H2. inversion H2; subst s2.
      exfalso. eapply (Hother sid1 s1); eauto.
    + rewrite lookup_insert_ne in H2 by done. eauto.
Qed.

(** The same list: the other sessions refer to other lists already. *)
Lemma store_ok_same_list srv sid old session h' sys' :
  store_ok srv ->
  chat_sessions srv !! sid = Some old ->
  s_state session = s_state old ->
  (forall l, is_Some (heap srv !! l) -> is_Some (h' !! l)) ->
  store_ok (mkServer (<[sid := session]> (chat_sessions srv)) h' sys').
Proof.
  intros Hok Hold Hst Hkeep. apply store_ok_insert; auto.
  - rewrite Hst. apply Hkeep. by apply (Hok sid old).
  - intros sid' s' Hs' Hne Heq. rewrite Hst in Heq.
    destruct (Hok sid' s' Hs') as [_ Hinj]. apply Hne.
    exact (Hinj sid old Hold Heq).
Qed.

(** A new list: no session refers to it yet. *)
Lemma store_ok_new_list srv sid session h0 ms sys' :
  store_ok srv ->
  (forall l, is_Some (heap srv !! l) -> is_Some (h0 !! l)) ->
  s_state session = fresh (dom h0) ->
  store_ok (mkServer (<[sid := session]> (chat_sessions srv))
                     (<[fresh (dom h0) := ms]> h0) sys').
Proof.
  intros Hok Hkeep Hst. apply store_ok_insert; auto.
  - intros l Hl. apply lookup_insert_is_Some'. right. by apply Hkeep.
  - rewrite Hst, lookup_insert_eq. eauto.
  - intros sid' s' Hs' _ Heq. rewrite Hst in Heq.
    eapply (fresh_ne_allocated h0); [| exact Heq].
    apply Hkeep. by apply (Hok sid' s').
Qed.

Lemma insert_keeps (h : gmap loc (list Message)) l0 ms :
  forall l, is_Some (h !! l) -> is_Some (<[l0 := ms]> h !! l).
Proof. intros l Hl. apply lookup_insert_is_Some'. by right. Qed.

Lemma get_or_create_store_ok session_id srv :
  store_ok srv -> store_ok (fst (get_or_create_session session_id srv)).
Proof.
  intros Hok.
  destruct (get_or_create_cases session_id srv)
    as [(sid & old & w & t & Hk & Hold & E & ->)
       | (w1 & u & w2 & c & w3 & a & Hk & E1 & E2 & E3 & ->)]; simpl.
  - eapply store_ok_same_list; eauto.
  - apply store_ok_new_list; auto.
Qed.

Lemma store_ok_sys srv sys' :
  store_ok srv -> store_ok (mkServer (chat_sessions srv) (heap srv) sys').
Proof. intros Hok sid s Hs. exact (Hok sid s Hs). Qed.

Lemma chat_store_ok session_id message srv srv' r :
  chat_with_agent session_id message srv = (srv', r) ->
  store_ok srv -> store_ok srv'.
Proof.
  intros H Hok.
  pose proof (get_or_create_store_ok session_id srv Hok) as Hok0.
  destruct (chat_entry session_id srv)
    as (srv0 & sid & session & w1 & t1 & Hg & Hs & E1 & _).
  rewrite Hg in Hok0. simpl in Hok0.
  pose proof (chat_turn session_id message srv srv0 sid session
                Hg Hs w1 t1 E1) as Ht. cbv zeta in Ht.
  destruct (graph_invoke _ _) as [sys1 [result | e]] eqn:Eg.
  - destruct Ht as (c & w2 & t2 & w3 & t3 & w4 & u & w5 & t4 & _ & _ & _ & _
                    & _ & Ht).
    rewrite Ht in H. inversion H; subst srv' r.
    apply store_ok_new_list; auto. apply insert_keeps.
  - rewrite Ht in H. inversion H; subst srv' r.
    eapply store_ok_same_list; eauto. apply insert_keeps.
Qed.

Lemma reset_store_ok sid srv :
  store_ok srv -> store_ok (fst (reset_session sid srv)).
Proof.
  intros Hok. unfold reset_session.
  destruct (chat_sessions srv !! sid) as [old |]; [| exact Hok].
  unfold alloc.
  destruct (datetime_now (world (sys srv))) as [w t] eqn:E.
  erewrite now_eq; [| cbn [sys world]; exact E].
  unfold set_session. cbn [fst chat_sessions heap sys].
  apply store_ok_new_list; auto.
Qed.

Lemma delete_store_ok sid srv :
  store_ok srv -> store_ok (fst (delete_session sid srv)).
Proof.
  intros Hok. unfold delete_session.
  destruct (chat_sessions srv !! sid) as [old |]; [| exact Hok].
  intros sid1 s1 H1. cbn [fst chat_sessions heap] in *.
  apply lookup_delete_Some in H1 as [_ H1].
  destruct (Hok sid1 s1 H1) as [Hs Hinj]. split; [exact Hs |].
  intros sid2 s2 H2 Heq. apply lookup_delete_Some in H2 as [_ H2]. eauto.
Qed.

(** X14.  Every session has a list of graph messages of its own: this
    holds of the empty store and is kept by finding or creating a
    session, by a turn of [/chat] whatever its outcome, by resetting and
    deleting a session and by clearing the store. *)
Theorem sessions_never_share_state :
  (forall h s, store_ok (mkServer ∅ h s)) /\
  (forall session_id srv,
      store_ok srv -> store_ok (fst (get_or_create_session session_id srv))) /\
  (forall session_id message srv srv' r,
      chat_with_agent session_id message srv = (srv', r) ->
      store_ok srv -> store_ok srv') /\
  (forall sid srv, store_ok srv -> store_ok (fst (reset_session sid srv))) /\
  (forall sid srv, store_ok srv -> store_ok (fst (delete_session sid srv))) /\
  (forall srv, store_ok (fst (clear_all_sessions srv))).
Proof.
  split; [| split; [| split; [| split; [| split]]]].
  - intros h s sid session H. cbn in H. by rewrite lookup_empty in H.
  - apply get_or_create_store_ok.
  - apply chat_store_ok.
  - apply reset_store_ok.
  - apply delete_store_ok.
  - intros srv sid session H. cbn in H. by rewrite lookup_empty in H.
Qed.

(** *** main.py: what a turn sends to the chat model *)

(** Unless the runtime allows no step at all, a run first calls the
    chat model with the prompt and the state it was started on. *)
Lemma graph_first_call st s s' r :
  0 < recursion_limit ->
  graph_invoke st s = (s', r) ->
  exists rest,
    events s' = events s ++ EvModelCall (system_prompt :: st) :: rest.
Proof.
  unfold graph_invoke.
  destruct recursion_limit as [| steps]; intros Hl H; [lia |].
  change (run (S (S steps)) START st s) with (run (S steps) N_llm st s) in H.
  rewrite run_unfold in H by discriminate.
  destruct (step N_llm st s) as [s1 [[n1 st1] | e]] eqn:E.
  - destruct (step_ok _ _ _ _ _ _ (I : node_ok N_llm st) E) as [Hok1 _].
    apply step_llm_inv in E as (c & calls & _ & _ & Hev & _).
    destruct (run_spec steps n1 st1 s1 Hok1) as [(evs & Hevs & _) _].
    simpl in H. rewrite H in Hevs. simpl in Hevs.
    exists evs. by rewrite Hevs, Hev, <- app_assoc.
  - apply step_llm_raise in E as [Hev _]. inversion H; subst.
    exists []. exact Hev.
Qed.

Lemma chat_first_call session_id message srv srv' r :
  0 < recursion_limit ->
  chat_with_agent session_id message srv = (srv', r) ->
  let hist :=
    match known_session session_id srv with
    | Some sid => default [] (stored_history srv sid)
    | None => []
    end in
  exists rest,
    events (sys srv') =
    events (sys srv) ++
    EvModelCall (system_prompt :: hist ++ [HumanMessage message]) :: rest.
Proof.
  intros Hl H hist.
  destruct (chat_entry session_id srv)
    as (srv0 & sid & session & w1 & t1 & Hg & Hs & E1 & Hcs & Hev & Hrel).
  assert (Hhist : deref srv0 (s_state session) = hist).
  { subst hist.
    destruct Hrel as [(old & -> & Hne & Hold & Hheap & Hm & Hst & Hc)
                     | (Hk & -> & Hm & Hst & Hheap)].
    - assert (Hk : known_session (Some sid) srv = Some sid).
      { apply known_session_spec. rewrite Hold. eauto. }
      rewrite Hk. unfold stored_history. rewrite Hold. simpl.
      unfold deref. by rewrite Hst, Hheap.
    - rewrite Hk. unfold deref. by rewrite Hst, Hheap, lookup_insert_eq. }
  pose proof (chat_turn session_id message srv srv0 sid session
                Hg Hs w1 t1 E1) as Ht. cbv zeta in Ht.
  rewrite Hhist in Ht.
  destruct (graph_invoke _ _) as [sys1 [result | e]] eqn:Eg.
  - destruct Ht as (c & w2 & t2 & w3 & t3 & w4 & u & w5 & t4 & _ & _ & _ & _
                    & _ & Ht).
    rewrite Ht in H. inversion H; subst srv' r.
    apply graph_first_call in Eg as [rest Hrest]; [| exact Hl].
    exists rest. cbn [sys events] in *. by rewrite Hrest, Hev.
  - rewrite Ht in H. inversion H; subst srv' r.
    apply graph_first_call in Eg as [rest Hrest]; [| exact Hl].
    exists rest. cbn [sys events] in *. by rewrite Hrest, Hev.
Qed.

(** A turn that succeeds was allowed the steps it took. *)
Lemma chat_ok_limit session_id message srv srv' resp :
  chat_with_agent session_id message srv = (srv', Ok resp) ->
  0 < recursion_limit.
Proof.
  intros H.
  destruct (chat_entry session_id srv)
    as (srv0 & sid & session & w1 & t1 & Hg & Hs & E1 & _).
  pose proof (chat_turn session_id message srv srv0 sid session
                Hg Hs w1 t1 E1) as Ht. cbv zeta in Ht.
  unfold graph_invoke in Ht. revert Ht.
  destruct recursion_limit as [| steps]; intros Ht; [| lia].
  simpl in Ht. rewrite Ht in H. discriminate.
Qed.

(** X15.  The first thing a turn of [/chat] does to the outside is to
    call the chat model with the system prompt, then the stored history
    of the session it was given (nothing when the identifier is absent,
    empty or unknown), then the user's message; this as soon as the
    runtime allows a run one step. *)
Theorem turn_sends_the_stored_history session_id message srv srv' r :
  0 < recursion_limit ->
  chat_with_agent session_id message srv = (srv', r) ->
  exists rest,
    events (sys srv') =
    events (sys srv) ++
    EvModelCall
      (system_prompt ::
       match known_session session_id srv with
       | Some sid => default [] (stored_history srv sid)
       | None => []
       end ++ [HumanMessage message]) :: rest.
Proof. apply chat_first_call. Qed.

(** X16.  A conversation continues: when a turn of [/chat] has
    succeeded under a non-empty session identifier, the next turn sent
    with that identifier calls the chat model first with the system
    prompt, the history the first turn started from, the first user
    message, what the first turn added (ending in the one final answer,
    the text it responded with), and then the new user message. *)
Theorem next_turn_continues_the_conversation
    session_id m1 m2 srv srv1 resp srv2 r :
  chat_with_agent session_id m1 srv = (srv1, Ok resp) ->
  cr_session_id resp <> "" ->
  chat_with_agent (Some (cr_session_id resp)) m2 srv1 = (srv2, r) ->
  exists added rest,
    turn_shape added /\
    final_answers added = [cr_response resp] /\
    events (sys srv2) =
    events (sys srv1) ++
    EvModelCall
      (system_prompt ::
       (match known_session session_id srv with
        | Some sid => default [] (stored_history srv sid)
        | None => []
        end ++ [HumanMessage m1] ++ added) ++ [HumanMessage m2]) :: rest.
Proof.
  intros H1 Hne H2.
  destruct (chat_success _ _ _ _ _ H1)
    as (session & log0 & hist & added & t1 & t2 & Hs & _ & Hd & Hshape & Hf
        & _ & Hknown & Hnew).
  destruct (chat_first_call _ _ _ _ _ (chat_ok_limit _ _ _ _ _ H1) H2)
    as [rest Hrest].
  assert (Hk : known_session (Some (cr_session_id resp)) srv1 =
               Some (cr_session_id resp)).
  { apply known_session_spec. rewrite Hs. eauto. }
  rewrite Hk in Hrest. unfold stored_history in Hrest.
  rewrite Hs in Hrest. simpl in Hrest. rewrite Hd in Hrest.
  exists added, rest. split; [exact Hshape |]. split; [exact Hf |].
  assert (Hh : match known_session session_id srv with
               | Some sid => default [] (stored_history srv sid)
               | None => []
               end = hist).
  { destruct (known_session session_id srv) as [sid |] eqn:Ek.
    - apply known_session_spec in Ek as (-> & Hn & [old Hold]).
      destruct (Hknown sid old eq_refl Hn Hold) as (_ & _ & -> & _).
      unfold stored_history. by rewrite Hold.
    - by destruct (Hnew eq_refl) as (_ & _ & ->). }
  rewrite Hh. exact Hrest.
Qed.

(** *** main.py: one session at a time *)

(** X17.  In a store where no two sessions share their list of graph
    messages, a turn of [/chat] changes one session only: every session
    stored under another identifier than the one the turn runs under
    keeps its record and its stored history, whatever the outcome. *)
Theorem turn_leaves_other_sessions_alone
    session_id message srv srv' r other session :
  store_ok srv ->
  chat_with_agent session_id message srv = (srv', r) ->
  chat_sessions srv !! other = Some session ->
  other <> snd (get_or_create_session session_id srv) ->
  chat_sessions srv' !! other = Some session /\
  stored_history srv' other = stored_history srv other.
Proof.
  intros Hok H Ho Hne.
  destruct (chat_entry session_id srv)
    as (srv0 & sid & session0 & w1 & t1 & Hg & Hs & E1 & Hcs & _ & Hrel).
  rewrite Hg in Hne. simpl in Hne.
  destruct (Hok other session Ho) as [Hthere Hinj].
  set (l := s_state session0) in *.
  assert (Hl : l <> s_state session /\
               heap srv0 !! s_state session = heap srv !! s_state session).
  { destruct Hrel as [(old & _ & _ & Hold & Hheap & _ & Hst & _)
                     | (_ & _ & _ & Hst & Hheap)].
    - split; [| by rewrite Hheap]. rewrite Hst. intros Heq.
      apply Hne. by apply (Hinj sid old Hold).
    - rewrite Hst, Hheap. split.
      + apply not_eq_sym. by apply fresh_ne_allocated.
      + apply lookup_insert_ne. apply not_eq_sym. by apply fresh_ne_allocated. }
  destruct Hl as [Hl Hh0].
  pose proof (chat_turn session_id message srv srv0 sid session0
                Hg Hs w1 t1 E1) as Ht. cbv zeta in Ht. fold l in Ht.
  set (heap1 := <[l := deref srv0 l ++ [HumanMessage message]]> (heap srv0))
    in *.
  assert (H1 : heap1 !! s_state session = heap srv !! s_state session).
  { subst heap1. by rewrite lookup_insert_ne. }
  assert (Hcs' : forall x, <[sid := x]> (chat_sessions srv0) !! other =
                           Some session).
  { intros x. rewrite lookup_insert_ne by (by apply not_eq_sym).
    rewrite Hcs. by rewrite lookup_insert_ne by (by apply not_eq_sym). }
  destruct (graph_invoke _ _) as [sys1 [result | e]] eqn:Eg.
  - destruct Ht as (c & w2 & t2 & w3 & t3 & w4 & u & w5 & t4 & _ & _ & _ & _
                    & _ & Ht).
    rewrite Ht in H. inversion H; subst srv' r.
    unfold stored_history, deref. cbn [chat_sessions heap].
    rewrite Hcs', Ho. split; [reflexivity |].
    rewrite lookup_insert_ne, H1; [reflexivity |].
    apply not_eq_sym, fresh_ne_allocated. by rewrite H1.
  - rewrite Ht in H. inversion H; subst srv' r.
    unfold stored_history, deref. cbn [chat_sessions heap].
    rewrite Hcs', Ho. split; [reflexivity |]. by rewrite H1.
Qed.

(** After a reset the session is there with nothing in it. *)
Lemma reset_known sid old srv :
  chat_sessions srv !! sid = Some old ->
  exists w t v,
    datetime_now (world (sys srv)) = (w, t) /\
    reset_session sid srv =
    (mkServer
       (<[sid := mkSession [] (s_created_at old) t (fresh (dom (heap srv)))]>
          (chat_sessions srv))
       (<[fresh (dom (heap srv)) := []]> (heap srv))
       (mkSys w (events (sys srv))), Ok v).
Proof.
  intros Hold. unfold reset_session. rewrite Hold. unfold alloc.
  destruct (datetime_now (world (sys srv))) as [w t] eqn:E.
  erewrite now_eq; [| cbn [sys world]; exact E].
  unfold set_session. cbn [chat_sessions heap sys events]. eauto.
Qed.

(** X18.  Resetting a session forgets the conversation: the session is
    still there, its message log is empty, and the next turn sent with
    its identifier calls the chat model (the runtime allowing a run at
    least one step) with the system prompt and the new user message
    alone.  The other sessions keep their record and their stored
    history. *)
Theorem reset_forgets_the_conversation sid old srv :
  chat_sessions srv !! sid = Some old ->
  let srv1 := fst (reset_session sid srv) in
  get_session_messages sid srv1 = Ok [] /\
  stored_history srv1 sid = Some [] /\
  (forall other,
      other <> sid ->
      chat_sessions srv1 !! other = chat_sessions srv !! other /\
      stored_history srv1 other = stored_history srv other) /\
  (forall message srv2 r,
      sid <> "" ->
      0 < recursion_limit ->
      chat_with_agent (Some sid) message srv1 = (srv2, r) ->
      exists rest,
        events (sys srv2) =
        events (sys srv) ++
        EvModelCall [system_prompt; HumanMessage message] :: rest).
Proof.
  intros Hold srv1.
  destruct (reset_known sid old srv Hold) as (w & t & v & E & Hr).
  subst srv1. rewrite Hr. cbn [fst].
  assert (Hh : stored_history
                 (mkServer
                    (<[sid := mkSession [] (s_created_at old) t
                                        (fresh (dom (heap srv)))]>
                       (chat_sessions srv))
                    (<[fresh (dom (heap srv)) := []]> (heap srv))
                    (mkSys w (events (sys srv)))) sid = Some []).
  { unfold stored_history, deref. cbn [chat_sessions heap s_state].
    by rewrite !lookup_insert_eq. }
  split; [| split; [exact Hh | split]].
  - unfold get_session_messages. cbn [chat_sessions].
    by rewrite lookup_insert_eq.
  - intros other Hne. unfold stored_history, deref. cbn [chat_sessions heap].
    rewrite lookup_insert_ne by (by apply not_eq_sym).
    split; [reflexivity |].
    destruct (chat_sessions srv !! other) as [s |]; [| reflexivity].
    destruct (decide (fresh (dom (heap srv)) = s_state s)) as [<- | Hl].
    + by rewrite lookup_insert_eq, fresh_not_allocated.
    + by rewrite lookup_insert_ne.
  - intros message srv2 r Hne Hl H.
    destruct (chat_first_call _ _ _ _ _ Hl H) as [rest Hrest].
    exists rest. rewrite Hrest. cbn [sys events].
    match goal with
    | |- context [known_session ?a ?b] =>
        assert (Hk : known_session a b = Some sid)
    end.
    { apply known_session_spec. cbn [chat_sessions].
      rewrite lookup_insert_eq. eauto. }
    rewrite Hk, Hh. reflexivity.
Qed.

(** X19.  A deleted session is gone: reading, deleting or resetting it
    again answers 404 "Session not found" and changes nothing, the other
    sessions keep their record and their stored history, and a turn of
    [/chat] sent with the deleted identifier is not refused but starts
    from nothing (the runtime allowing a run at least one step), and
    when it succeeds answers under a new identifier. *)
Theorem deleted_session_is_gone sid old srv :
  chat_sessions srv !! sid = Some old ->
  let srv1 := fst (delete_session sid srv) in
  get_session_messages sid srv1 = Raise (HTTPException 404 "Session not found") /\
  delete_session sid srv1 =
    (srv1, Raise (HTTPException 404 "Session not found")) /\
  reset_session sid srv1 =
    (srv1, Raise (HTTPException 404 "Session not found")) /\
  (forall other,
      other <> sid ->
      chat_sessions srv1 !! other = chat_sessions srv !! other /\
      stored_history srv1 other = stored_history srv other) /\
  (forall message srv2 r,
      0 < recursion_limit ->
      chat_with_agent (Some sid) message srv1 = (srv2, r) ->
      (exists rest,
          events (sys srv2) =
          events (sys srv) ++
          EvModelCall [system_prompt; HumanMessage message] :: rest) /\
      forall resp, r = Ok resp ->
                   cr_session_id resp = snd (uuid4 (world (sys srv)))).
Proof.
  intros Hold srv1.
  assert (Hd : srv1 =
               mkServer (delete sid (chat_sessions srv)) (heap srv) (sys srv)).
  { subst srv1. unfold delete_session. by rewrite Hold. }
  clearbody srv1.
  assert (Hgone : chat_sessions srv1 !! sid = None).
  { subst srv1. apply lookup_delete_eq. }
  assert (Hsys : sys srv1 = sys srv) by (by subst srv1).
  assert (Hk : known_session (Some sid) srv1 = None).
  { destruct (known_session (Some sid) srv1) as [x |] eqn:Ek; [| reflexivity].
    apply known_session_spec in Ek as (Hx & _ & [y Hy]).
    inversion Hx; subst x. congruence. }
  split; [| split; [| split; [| split]]].
  - unfold get_session_messages. by rewrite Hgone.
  - unfold delete_session. by rewrite Hgone.
  - unfold reset_session. by rewrite Hgone.
  - intros other Hne. unfold stored_history, deref. subst srv1.
    cbn [chat_sessions heap].
    rewrite lookup_delete_ne by (by apply not_eq_sym).
    split; reflexivity.
  - intros message srv2 r Hl H. split.
    + destruct (chat_first_call _ _ _ _ _ Hl H) as [rest Hrest].
      exists rest. rewrite Hrest, Hk, Hsys. reflexivity.
    + intros resp ->. rewrite <- Hsys.
      destruct (chat_success _ _ _ _ _ H)
        as (session & log0 & hist & added & t1 & t2 & _ & _ & _ & _ & _
            & _ & _ & Hnew).
      by destruct (Hnew Hk) as [-> _].
Qed.

(** *** agent.py and tools.py: what a tool does to the outside *)

Local Ltac keyed :=
  split;
  [ reflexivity
  | split;
    [ reflexivity
    | simpl;
      repeat match goal with
             | |- context [if ?b then _ else _] => destruct b
             | |- context [match ?g with Some _ => _ | None => _ end] =>
                 destruct g
             end;
      reflexivity ] ].

Lemma invoke_shape_keyed name t args :
  tools_by_name tools name = Some t ->
  exists sh,
    (forall s, invoke_tool t args s = shape_run sh s) /\
    match sh with
    | Rejected _ => True
    | OneGet req _ => tmdb_request req
    end.
Proof.
  unfold tools, tools_by_name. intros H.
  repeat match type of H with
         | (if ?b then _ else _) = _ => destruct b
         end;
    inversion H; subst; clear H;
    (destruct args as [| | | | | | items];
     try (exists (Rejected ValidationError); split; [reflexivity | exact I]));
    simpl.
  - unfold tool_get_watch_providers.
    destruct (arg_int items "movie_id" None) as [m | e];
      [| exists (Rejected e); split; [reflexivity | exact I]].
    destruct (arg_str items "region" (Some "US")) as [r | e];
      [| exists (Rejected e); split; [reflexivity | exact I]].
    exists (OneGet (watch_providers_request m) (format_providers m r)).
    keyed.
  - unfold tool_search_movies.
    destruct (arg_str items "query" None) as [q | e];
      [| exists (Rejected e); split; [reflexivity | exact I]].
    destruct (arg_int items "page" (Some 1%Z)) as [p | e];
      [| exists (Rejected e); split; [reflexivity | exact I]].
    eexists (OneGet (mkRequest _ _) _).
    keyed.
  - unfold tool_get_movie_details.
    destruct (arg_int items "movie_id" None) as [m | e];
      [| exists (Rejected e); split; [reflexivity | exact I]].
    destruct (arg_bool items "append_credits" true) as [b | e];
      [| exists (Rejected e); split; [reflexivity | exact I]].
    eexists (OneGet (mkRequest _ _) _).
    keyed.
  - unfold tool_discover_movies.
    destruct (arg_opt_int items "genre_id") as [g | e];
      [| exists (Rejected e); split; [reflexivity | exact I]].
    destruct (arg_str items "sort_by" (Some "popularity.desc")) as [o | e];
      [| exists (Rejected e); split; [reflexivity | exact I]].
    destruct (arg_int items "page" (Some 1%Z)) as [p | e];
      [| exists (Rejected e); split; [reflexivity | exact I]].
    eexists (OneGet (mkRequest _ _) _).
    keyed.
  - unfold tool_get_movie_lists.
    destruct (arg_str items "list_type" (Some "popular")) as [l | e];
      [| exists (Rejected e); split; [reflexivity | exact I]].
    destruct (arg_int items "page" (Some 1%Z)) as [p | e];
      [| exists (Rejected e); split; [reflexivity | exact I]].
    eexists (OneGet (mkRequest _ _) _).
    keyed.
  - unfold tool_get_movie_recommendations.
    destruct (arg_int items "movie_id" None) as [m | e];
      [| exists (Rejected e); split; [reflexivity | exact I]].
    destruct (arg_int items "page" (Some 1%Z)) as [p | e];
      [| exists (Rejected e); split; [reflexivity | exact I]].
    eexists (OneGet (mkRequest _ _) _).
    keyed.
  - unfold tool_get_trending_movies.
    destruct (arg_str items "time_window" (Some "day")) as [l | e];
      [| exists (Rejected e); split; [reflexivity | exact I]].
    destruct (arg_int items "page" (Some 1%Z)) as [p | e];
      [| exists (Rejected e); split; [reflexivity | exact I]].
    eexists (OneGet (mkRequest _ _) _).
    keyed.
Qed.

(** X20.  Whatever its arguments, a tool of the agent either rejects
    them, raising without touching the outside, or sends exactly one GET
    request, to an address under the base address of the data provider
    and carrying the API key; it never calls the chat model and never
    sends a second request. *)
Theorem tools_send_one_keyed_request name t args s :
  tools_by_name tools name = Some t ->
  (fst (invoke_tool t args s) = s /\
   exists e, snd (invoke_tool t args s) = Raise e) \/
  (exists req,
      tmdb_request req /\
      events (fst (invoke_tool t args s)) = events s ++ [EvHttpGet req]).
Proof.
  intros Ht.
  destruct (invoke_shape_keyed name t args Ht) as ([e | req post] & Hsh & Hk);
    rewrite Hsh.
  - left. split; [reflexivity | by exists e].
  - right. exists req. split; [exact Hk |]. simpl. unfold bindM.
    pose proof (requests_get_json_events (url req) (params req) s) as H.
    destruct req as [u ps].
    destruct (requests_get_json _ _ s) as [s1 [v | e]];
      unfold liftR; exact H.
Qed.

End Coverage.

(* ===================================================================== *)
(** ** The statements at concrete inputs *)
(* ===================================================================== *)

Lemma looping_always_pending : @always_pending Stub.looping.
Proof.
  intros w ms. exists w, "", [Stub.search_call].
  split; [reflexivity | discriminate].
Qed.

Lemma one_session_without_system e w :
  @heap_without_system e (Stub.one_session e w).
Proof.
  intros l ms H. unfold Stub.one_session in H. simpl in H.
  apply lookup_insert_Some in H as [[_ <-] | [_ H]].
  - by repeat constructor.
  - by rewrite lookup_empty in H.
Qed.

(** The turn of the specification's second scenario: the chat model
    answers at once, and the history ends with its answer. *)
Lemma done_ends_with_final_answer_witness :
  let st := [HumanMessage "What's the weather today?"] in
  let s := Stub.start Stub.refusing 0 in
  let final := st ++ [AIMessage "I can only help with movies." []] in
  @graph_invoke Stub.refusing st s =
    (fst (@graph_invoke Stub.refusing st s), Ok final) /\
  (final <> [] /\ exists c, last final = Some (AIMessage c [])).
Proof.
  intros st s final.
  assert (E : @graph_invoke Stub.refusing st s =
              (fst (@graph_invoke Stub.refusing st s), Ok final))
    by reflexivity.
  split; [exact E |].
  exact (@done_ends_with_final_answer Stub.refusing st s _ final E).
Defined.

(** Two requests in one assistant message: two results, in order. *)
Lemma tools_answer_every_request_witness :
  let calls := [Stub.search_call; Stub.providers_call] in
  let st := [HumanMessage Stub.question; AIMessage "" calls] in
  let s := Stub.start Stub.scenario 0 in
  last st = Some (AIMessage "" calls) /\
  calls <> [] /\
  exists s' results,
    @step Stub.scenario N_tools st s = (s', Ok (N_llm, st ++ results)) /\
    length results = length calls /\
    Forall2 answers calls results /\
    map tool_call_id_of results = map Some (map tc_id calls) /\
    (NoDup (map tc_id calls) -> NoDup (map tool_call_id_of results)) /\
    extends_by is_http_event s s' /\
    events (fst (@step Stub.scenario N_llm (st ++ results) s')) =
    events s' ++ [EvModelCall (@system_prompt :: st ++ results)].
Proof.
  intros calls st s.
  assert (H1 : last st = Some (AIMessage "" calls)) by reflexivity.
  assert (H2 : calls <> []) by discriminate.
  split; [exact H1 |]. split; [exact H2 |].
  exact (@tools_answer_every_request Stub.scenario st "" calls s H1 H2).
Defined.

(** A chat model that answers at once ends the turn after one call; the
    stub that asks for a search on every call is stopped by the
    recursion limit, 25 steps here, after 13 model calls. *)
Lemma loop_ends_within_the_recursion_limit_witness :
  (let st := [HumanMessage "What's the weather today?"] in
   let s := Stub.start Stub.refusing 0 in
   2 <= @recursion_limit Stub.refusing /\
   @remote_llm Stub.refusing (world s) (system_prompt :: st) =
     (0, Ok ("I can only help with movies.", [])) /\
   @graph_invoke Stub.refusing st s =
     (@mkSys Stub.refusing 0 (events s ++ [EvModelCall (system_prompt :: st)]),
      Ok (st ++ [AIMessage "I can only help with movies." []]))) /\
  (let st := [HumanMessage Stub.question] in
   let s := Stub.start Stub.looping 0 in
   @always_pending Stub.looping /\
   snd (@graph_invoke Stub.looping st s) = Raise GraphRecursionError /\
   model_calls (events (fst (@graph_invoke Stub.looping st s))) = 13).
Proof.
  split.
  - intros st s.
    assert (Hl : 2 <= @recursion_limit Stub.refusing) by (simpl; lia).
    assert (H : @remote_llm Stub.refusing (world s) (system_prompt :: st) =
                (0, Ok ("I can only help with movies.", []))) by reflexivity.
    split; [exact Hl |]. split; [exact H |].
    exact (proj2 (proj2 (proj2 (proj2
             (@loop_ends_within_the_recursion_limit Stub.refusing))))
             Hl st s _ _ H).
  - intros st s. split; [exact looping_always_pending |].
    exact (proj1 (proj2 (@loop_ends_within_the_recursion_limit Stub.looping))
             looping_always_pending st s).
Defined.

(** After a refusal the history has grown by the answer alone, and a
    whole turn of the scenario keeps the store free of system messages. *)
Lemma system_prompt_first_and_never_stored_witness :
  (let st := [HumanMessage "What's the weather today?"] in
   let s := Stub.start Stub.refusing 0 in
   let final := st ++ [AIMessage "I can only help with movies." []] in
   extends_by prompt_first s (fst (@graph_invoke Stub.refusing st s)) /\
   snd (@graph_invoke Stub.refusing st s) = Ok final /\
   grows_without_system st final) /\
  (let srv := Stub.one_session Stub.scenario 7 in
   let out := @chat_with_agent Stub.scenario (Some "s1") Stub.question srv in
   exists srv' r,
     out = (srv', r) /\
     heap_without_system srv /\ heap_without_system srv').
Proof.
  split.
  - intros st s final.
    assert (H : snd (@graph_invoke Stub.refusing st s) = Ok final)
      by reflexivity.
    split; [| split; [exact H |]].
    + exact (proj1 (@system_prompt_first_and_never_stored Stub.refusing) st s).
    + exact (proj1 (proj2 (@system_prompt_first_and_never_stored Stub.refusing))
               st s final H).
  - intros srv out.
    destruct out as [srv' r] eqn:E.
    exists srv', r. split; [reflexivity |].
    pose proof (one_session_without_system Stub.scenario 7) as Hc.
    split; [exact Hc |].
    exact (proj2 (proj2 (@system_prompt_first_and_never_stored Stub.scenario))
             (Some "s1") Stub.question srv srv' r E Hc).
Defined.

(** With the provider out of reach the request for the watch providers
    is answered by an error result; a 404 with a JSON body and a page
    that is not JSON are told apart only by the body. *)
Lemma capability_failures_are_recorded_witness :
  (let s := Stub.start Stub.cut_off 0 in
   let call := Stub.providers_call in
   @tools_by_name Stub.cut_off tools (tc_name call) =
     Some tool_get_watch_providers /\
   @invoke_tool Stub.cut_off tool_get_watch_providers (tc_args call) s =
     (fst (@invoke_tool Stub.cut_off tool_get_watch_providers (tc_args call) s),
      Raise ConnectionError) /\
   @run_one Stub.cut_off call s =
     (fst (@invoke_tool Stub.cut_off tool_get_watch_providers (tc_args call) s),
      Ok (ToolMessage (@tool_error_content Stub.cut_off ConnectionError)
                      "get_watch_providers" "call_2" "error"))) /\
  (let s := Stub.start Stub.cut_off 0 in
   (forall req, snd (@remote_http Stub.cut_off (world s) req) = NoResponse) /\
   exists s1 content,
     @run_one Stub.cut_off Stub.search_call s =
     (s1, Ok (ToolMessage content "search_movies" "call_1" "error"))) /\
  (let s := Stub.start Stub.garbled 0 in
   @remote_http Stub.garbled (world s) (mkRequest "u" []) =
     (0, HttpResponse 502 None) /\
   snd (@requests_get_json Stub.garbled "u" [] s) = Raise JSONDecodeError) /\
  (let s := Stub.start Stub.missing 0 in
   @remote_http Stub.missing (world s) (mkRequest "u" []) =
     (0, HttpResponse 404 (Some Stub.not_found_body)) /\
   snd (@requests_get_json Stub.missing "u" [] s) = Ok Stub.not_found_body) /\
  (let calls := [Stub.search_call; Stub.providers_call] in
   let st := [HumanMessage Stub.question; AIMessage "" calls] in
   let s := Stub.start Stub.cut_off 0 in
   last st = Some (AIMessage "" calls) /\
   exists s' results,
     @step Stub.cut_off N_tools st s = (s', Ok (N_llm, st ++ results)) /\
     Forall2 answers calls results).
Proof.
  split; [| split; [| split; [| split]]].
  - intros s call.
    assert (H1 : @tools_by_name Stub.cut_off tools (tc_name call) =
                 Some tool_get_watch_providers) by reflexivity.
    assert (H2 : @invoke_tool Stub.cut_off tool_get_watch_providers
                   (tc_args call) s =
                 (fst (@invoke_tool Stub.cut_off tool_get_watch_providers
                         (tc_args call) s), Raise ConnectionError))
      by reflexivity.
    split; [exact H1 |]. split; [exact H2 |].
    exact (proj1 (@capability_failures_are_recorded Stub.cut_off)
             call _ s _ ConnectionError H1 H2).
  - intros s.
    assert (H : forall req,
               snd (@remote_http Stub.cut_off (world s) req) = NoResponse)
      by (intros req; reflexivity).
    split; [exact H |].
    exact (proj1 (proj2 (@capability_failures_are_recorded Stub.cut_off))
             Stub.search_call s H).
  - intros s.
    assert (H : @remote_http Stub.garbled (world s) (mkRequest "u" []) =
                (0, HttpResponse 502 None)) by reflexivity.
    split; [exact H |].
    exact (proj1 (proj2 (proj2 (@capability_failures_are_recorded Stub.garbled)))
             "u" [] s 0 502%Z H).
  - intros s.
    assert (H : @remote_http Stub.missing (world s) (mkRequest "u" []) =
                (0, HttpResponse 404 (Some Stub.not_found_body)))
      by reflexivity.
    split; [exact H |].
    exact (proj1 (proj2 (proj2 (proj2
             (@capability_failures_are_recorded Stub.missing))))
             "u" [] s 0 404%Z Stub.not_found_body H).
  - intros calls st s.
    assert (H : last st = Some (AIMessage "" calls)) by reflexivity.
    split; [exact H |].
    exact (proj2 (proj2 (proj2 (proj2
             (@capability_failures_are_recorded Stub.cut_off))))
             st "" calls s H).
Defined.

(** The search for Inception, run twice against the same provider. *)
Lemma capability_is_idempotent_witness :
  let args := PyDict [("query", PyStr "Inception")] in
  let s0 := Stub.start Stub.scenario 0 in
  let s1 := fst (@invoke_tool Stub.scenario tool_search_movies args s0) in
  @tools_by_name Stub.scenario tools "search_movies" = Some tool_search_movies /\
  @same_answers Stub.scenario s0 s1 /\
  snd (@invoke_tool Stub.scenario tool_search_movies args s1) =
  snd (@invoke_tool Stub.scenario tool_search_movies args s0) /\
  snd (@run_one Stub.scenario Stub.search_call s1) =
  snd (@run_one Stub.scenario Stub.search_call s0).
Proof.
  intros args s0 s1.
  assert (H1 : @tools_by_name Stub.scenario tools "search_movies" =
               Some tool_search_movies) by reflexivity.
  assert (H2 : @same_answers Stub.scenario s0 s1) by (intros req; reflexivity).
  split; [exact H1 |]. split; [exact H2 |].
  exact (@capability_is_idempotent Stub.scenario "search_movies" _ args
           Stub.search_call s0 s1 H1 H2).
Defined.

(** The search for Inception: seven movies at the provider, five
    returned, the long overview cut at 200 characters. *)
Lemma list_tools_return_top5_witness :
  let t := SearchMovies "Inception" 1 in
  let s := Stub.start Stub.scenario 0 in
  let items := match Stub.search_body with PyDict items => items | _ => [] end in
  let movies := match field Stub.search_body "results" with
                | PyList l => l
                | _ => []
                end in
  let d := match snd (@run_list_tool Stub.scenario t s) with
           | Ok d => d
           | Raise _ => PyNone
           end in
  @remote_http Stub.scenario (world s) (@list_tool_request Stub.scenario t) =
    (0, HttpResponse 200 (Some (PyDict items))) /\
  py_in "results" (PyDict items) = Ok true /\
  snd (@run_list_tool Stub.scenario t s) = Ok d /\
  assoc "results" items = Some (PyList movies) /\
  forallb movie_ok (firstn 5 movies) = true /\
  total_ok items = true /\
  (exists filtered total,
      d = PyDict [("results", PyList filtered); ("total_results", total)] /\
      length filtered <= 5 /\
      (forall z,
          py_get (PyDict items) "total_results" (PyInt 0) = Ok (PyInt z) ->
          total = PyInt (Z.min z 5)) /\
      (forall movies0,
          field (PyDict items) "results" = PyList movies0 ->
          Forall2 (fun movie f =>
                     forall ov,
                       field movie "overview" = PyStr ov ->
                       field f "overview" =
                       PyStr (truncated (overview_limit t) ov))
                  (firstn 5 movies0) filtered)) /\
  (exists filtered,
      @run_list_tool Stub.scenario t s =
      (@mkSys Stub.scenario 0
         (events s ++ [EvHttpGet (@list_tool_request Stub.scenario t)]),
       Ok (PyDict [("results", PyList filtered);
                   ("total_results", PyInt (Z.min (provider_total items) 5))])) /\
      filtered = map (summary (overview_limit t)) (firstn 5 movies) /\
      length filtered = Nat.min 5 (length movies) /\
      length filtered <= 5 /\
      Forall (fun m =>
                exists ov,
                  field m "overview" = PyStr ov /\
                  str_len ov <= overview_limit t + 3) filtered).
Proof.
  intros t s items movies d.
  assert (H1 : @remote_http Stub.scenario (world s)
                 (@list_tool_request Stub.scenario t) =
               (0, HttpResponse 200 (Some (PyDict items)))) by reflexivity.
  assert (H0 : py_in "results" (PyDict items) = Ok true) by reflexivity.
  assert (Hd : snd (@run_list_tool Stub.scenario t s) = Ok d) by reflexivity.
  assert (H2 : assoc "results" items = Some (PyList movies)) by reflexivity.
  assert (H3 : forallb movie_ok (firstn 5 movies) = true) by reflexivity.
  assert (H4 : total_ok items = true) by reflexivity.
  split; [exact H1 |]. split; [exact H0 |]. split; [exact Hd |].
  split; [exact H2 |]. split; [exact H3 |]. split; [exact H4 |].
  split.
  - exact (proj1 (@list_tools_return_top5 Stub.scenario t s 0 200%Z)
             (PyDict items) d H1 H0 Hd).
  - exact (proj2 (@list_tools_return_top5 Stub.scenario t s 0 200%Z)
             items movies H1 H2 H3 H4).
Defined.

(** Inception in Great Britain, which the provider does not list, and in
    the United States, which it does. *)
Lemma watch_providers_result_witness :
  let s := Stub.start Stub.scenario 0 in
  let items := match Stub.providers_body with
               | PyDict items => items
               | _ => []
               end in
  let regions := match field Stub.providers_body "results" with
                 | PyDict r => r
                 | _ => []
                 end in
  let pd := match field (PyDict regions) "US" with
            | PyDict d => d
            | _ => []
            end in
  (@remote_http Stub.scenario (world s)
     (@watch_providers_request Stub.scenario 27205) =
     (0, HttpResponse 200 (Some (PyDict items))) /\
   region_absent "GB" items = true /\
   snd (@get_watch_providers Stub.scenario 27205 "GB" s) =
   Ok (no_providers 27205 "GB")) /\
  (assoc "results" items = Some (PyDict regions) /\
   assoc "US" regions = Some (PyDict pd) /\
   providers_ok "flatrate" pd = true /\
   providers_ok "rent" pd = true /\
   providers_ok "buy" pd = true /\
   snd (@get_watch_providers Stub.scenario 27205 "US" s) =
   Ok (PyDict
         [("movie_id", PyInt 27205); ("region", PyStr "US");
          ("streaming", PyList [PyStr "Netflix"]);
          ("rent", PyList [PyStr "Apple TV"; PyStr "Amazon Video"]);
          ("buy", PyList []);
          ("link", PyStr "https://www.themoviedb.org/movie/27205/watch")])) /\
  (forall d,
      snd (@get_watch_providers Stub.scenario 27205 "US" s) = Ok d ->
      has_key "link" d).
Proof.
  intros s items regions pd.
  assert (H1 : @remote_http Stub.scenario (world s)
                 (@watch_providers_request Stub.scenario 27205) =
               (0, HttpResponse 200 (Some (PyDict items)))) by reflexivity.
  assert (H2 : region_absent "GB" items = true) by reflexivity.
  assert (H3 : assoc "results" items = Some (PyDict regions)) by reflexivity.
  assert (H4 : assoc "US" regions = Some (PyDict pd)) by reflexivity.
  assert (H5 : providers_ok "flatrate" pd = true) by reflexivity.
  assert (H6 : providers_ok "rent" pd = true) by reflexivity.
  assert (H7 : providers_ok "buy" pd = true) by reflexivity.
  split; [| split].
  - split; [exact H1 |]. split; [exact H2 |].
    exact (proj1 (proj2 (proj2
             (@watch_providers_result Stub.scenario 27205 "GB" s)))
             0 200%Z items H1 H2).
  - split; [exact H3 |]. split; [exact H4 |]. split; [exact H5 |].
    split; [exact H6 |]. split; [exact H7 |].
    exact (proj2 (proj2 (proj2
             (@watch_providers_result Stub.scenario 27205 "US" s)))
             0 200%Z items regions pd H1 H3 H4 H5 H6 H7).
  - intros d Hd.
    destruct (proj1 (proj2 (@watch_providers_result Stub.scenario 27205 "US" s))
                d Hd) as (its & -> & _ & _ & _ & _ & _ & v & Hv).
    exists its, v. split; [reflexivity | exact Hv].
Defined.

(** The chat model is down when session ["s1"] asks its question, and
    when a caller without a session does. *)
Lemma model_failure_commits_no_reply_witness :
  let srv := Stub.one_session Stub.down 7 in
  let old := mkSession
               [mkChatMessage "user" "Hello" 0%Z;
                mkChatMessage "assistant" "Hi! Ask me about movies." 1%Z]
               0%Z 2%Z 1%positive in
  let e := ProviderError "service unavailable" in
  let run := @graph_invoke Stub.down
               (deref srv (s_state old) ++ [HumanMessage Stub.question])
               (@mkSys Stub.down 9 (events (sys srv))) in
  let run' := @graph_invoke Stub.down [HumanMessage Stub.question]
                (@mkSys Stub.down 11 (events (sys srv))) in
  ("s1" <> "" /\
   chat_sessions srv !! "s1" = Some old /\
   run = (fst run, Raise e) /\
   exists srv',
     @chat_with_agent Stub.down (Some "s1") Stub.question srv =
       (srv', Raise (@agent_processing_failed Stub.down e)) /\
     (exists ms w, last (events (fst run)) = Some (EvModelCall ms) /\
                   snd (@remote_llm Stub.down w ms) = Raise e) /\
     sys srv' = fst run /\
     chat_sessions srv' =
       <["s1" := mkSession
                   (s_messages old ++ [mkChatMessage "user" Stub.question 8%Z])
                   (s_created_at old) 7%Z (s_state old)]>
         (chat_sessions srv) /\
     (exists extra,
         deref srv' (s_state old) = deref srv (s_state old) ++ extra /\
         Forall (fun m => is_human m = true) extra) /\
     (forall l, l <> s_state old -> heap srv' !! l = heap srv !! l)) /\
  (known_session None srv = None /\
   exists srv',
     @chat_with_agent Stub.down None Stub.question srv =
       (srv', Raise (@agent_processing_failed Stub.down e)) /\
     chat_sessions srv' =
       <["session-7" :=
           mkSession [mkChatMessage "user" Stub.question 10%Z] 8%Z 9%Z
                     (fresh (dom (heap srv)))]>
         (chat_sessions srv)).
Proof.
  intros srv old e run run'.
  split.
  - assert (H1 : "s1" <> "") by discriminate.
    assert (H2 : chat_sessions srv !! "s1" = Some old)
      by (vm_compute; reflexivity).
    assert (H3 : run = (fst run, Raise e)) by reflexivity.
    split; [exact H1 |]. split; [exact H2 |]. split; [exact H3 |].
    destruct (proj1 (@model_failure_commits_no_reply Stub.down Stub.question srv
                       (fst run) e) "s1" old H1 H2 H3)
      as (srv' & Hc & [Hm | Hm] & Hrest); [| discriminate].
    exists srv'. split; [exact Hc |]. split; [exact Hm | exact Hrest].
  - assert (H1 : known_session None srv = None) by reflexivity.
    assert (H3 : @graph_invoke Stub.down [HumanMessage Stub.question]
                   (@mkSys Stub.down 11 (events (sys srv))) =
                 (fst run', Raise e)) by reflexivity.
    split; [exact H1 |].
    destruct (proj2 (@model_failure_commits_no_reply Stub.down Stub.question
                       srv (fst run') e) None H1 H3)
      as (srv' & Hc & _ & _ & Hs & _).
    exists srv'. split; [exact Hc | exact Hs].
Defined.

(** C1 does not hold as stated: the chat model is down, the caller gets
    the error, and the stored history of session ["s1"] is not what it
    was: its log of chat messages holds the user message of the failed
    turn, and so does the list of graph messages of its agent state. *)
Lemma failed_turn_changes_stored_history :
  let srv := Stub.one_session Stub.down 7 in
  let m1 := mkChatMessage "user" "Hello" 0%Z in
  let m2 := mkChatMessage "assistant" "Hi! Ask me about movies." 1%Z in
  exists srv',
    @chat_with_agent Stub.down (Some "s1") Stub.question srv =
      (srv',
       Raise (HTTPException 500
                "Agent processing failed: service unavailable")) /\
    s_messages <$> (chat_sessions srv !! "s1") = Some [m1; m2] /\
    s_messages <$> (chat_sessions srv' !! "s1") =
      Some [m1; m2; mkChatMessage "user" Stub.question 8%Z] /\
    heap srv !! 1%positive = Some Stub.earlier_turn /\
    heap srv' !! 1%positive =
      Some (Stub.earlier_turn ++ [HumanMessage Stub.question]) /\
    chat_sessions srv' !! "s1" <> chat_sessions srv !! "s1".
Proof.
  intros srv m1 m2.
  destruct (@chat_with_agent Stub.down (Some "s1") Stub.question srv)
    as [srv' r] eqn:E.
  vm_compute in E. injection E as <- <-.
  eexists. split; [reflexivity |].
  repeat split; try (vm_compute; reflexivity).
  vm_compute. discriminate.
Qed.

(** C6 does not hold as stated: the provider answers the request for
    the details of a movie with status 404 and its error body; the
    capability result that is recorded has status [success] and fields
    that are all null, with nothing of the failure in it. *)
Lemma not_found_is_recorded_as_success :
  let s := Stub.start Stub.missing 0 in
  @remote_http Stub.missing (world s)
    (mkRequest "https://api.themoviedb.org/3/movie/27205"
       [("api_key", PyStr "key"); ("language", PyStr "en-US");
        ("append_to_response", PyStr "credits")]) =
    (0, HttpResponse 404 (Some Stub.not_found_body)) /\
  events (fst (@run_one Stub.missing Stub.details_call s)) =
    [EvHttpGet
       (mkRequest "https://api.themoviedb.org/3/movie/27205"
          [("api_key", PyStr "key"); ("language", PyStr "en-US");
           ("append_to_response", PyStr "credits")])] /\
  snd (@run_one Stub.missing Stub.details_call s) =
    Ok (ToolMessage
          ("{'id': null, 'title': null, 'overview': null, " +:+
           "'release_date': null, 'runtime': null, 'vote_average': null, " +:+
           "'vote_count': null, 'budget': null, 'revenue': null, " +:+
           "'genres': []}")
          "get_movie_details" "call_3" "success").
Proof.
  intros s. split; [reflexivity |]. split; vm_compute; reflexivity.
Qed.

(** An overview of 101 accented letters has 202 bytes and 101
    characters: under the limit of 200 it is kept as it is, and one of
    201 letters is cut after its first 200. *)
Example overview_is_cut_by_characters :
  str_len (Stub.copies 101 "é") = 101 /\
  String.length (Stub.copies 101 "é") = 202 /\
  truncate_overview 200 (PyDict [("overview", PyStr (Stub.copies 101 "é"))]) =
    Ok (PyStr (Stub.copies 101 "é")) /\
  truncate_overview 200 (PyDict [("overview", PyStr (Stub.copies 201 "é"))]) =
    Ok (PyStr (Stub.copies 200 "é" +:+ "...")).
Proof. repeat split; vm_compute; reflexivity. Qed.

(** The first scenario of the specification: a search, then the watch
    providers, then the answer; two rounds of capabilities and three
    model calls. *)
Example inception_scenario :
  let out := @graph_invoke Stub.scenario [HumanMessage Stub.question]
               (Stub.start Stub.scenario 0) in
  exists final,
    snd out = Ok final /\
    last final = Some (AIMessage "Inception streams on Netflix." []) /\
    map tool_call_id_of final =
      [None; None; Some "call_1"; None; Some "call_2"; None] /\
    model_calls (events (fst out)) = 3.
Proof.
  intros out. eexists. split; [vm_compute; reflexivity |].
  split; [reflexivity |]. split; vm_compute; reflexivity.
Qed.


(** The details of Inception, asked for with its credits. *)
Lemma movie_details_shape_witness :
  let s := Stub.start Stub.catalogue 0 in
  let d := match snd (@get_movie_details Stub.catalogue 27205 true s) with
           | Ok d => d
           | Raise _ => PyNone
           end in
  @remote_http Stub.catalogue (world s)
    (@details_request Stub.catalogue 27205 true) =
    (0, HttpResponse 200 (Some Stub.details_body)) /\
  snd (@get_movie_details Stub.catalogue 27205 true s) = Ok d /\
  exists items,
    d = PyDict items /\
    map fst items =
      details_keys ++
      (if has_credits Stub.details_body then ["cast"; "director"] else []) /\
    (forall k, In k details_scalars ->
               assoc k items = Some (field Stub.details_body k)) /\
    (forall cast, assoc "cast" items = Some (PyList cast) ->
                  length cast <= 10).
Proof.
  intros s d.
  assert (H1 : @remote_http Stub.catalogue (world s)
                 (@details_request Stub.catalogue 27205 true) =
               (0, HttpResponse 200 (Some Stub.details_body)))
    by reflexivity.
  assert (H2 : snd (@get_movie_details Stub.catalogue 27205 true s) = Ok d)
    by reflexivity.
  split; [exact H1 |]. split; [exact H2 |].
  exact (proj2 (proj2 (@movie_details_shape Stub.catalogue 27205 true s))
           0 200%Z Stub.details_body d H1 H2).
Defined.

(** The same answer is well formed, and the summary names the director. *)
Lemma movie_details_of_well_formed_witness :
  let s := Stub.start Stub.catalogue 0 in
  let items := match Stub.details_body with
               | PyDict items => items
               | _ => []
               end in
  @remote_http Stub.catalogue (world s)
    (@details_request Stub.catalogue 27205 true) =
    (0, HttpResponse 200 (Some (PyDict items))) /\
  details_ok items = true /\
  field (details_summary items) "director" = PyStr "Christopher Nolan" /\
  @get_movie_details Stub.catalogue 27205 true s =
  (@mkSys Stub.catalogue 0
     (events s ++ [EvHttpGet (@details_request Stub.catalogue 27205 true)]),
   Ok (details_summary items)).
Proof.
  intros s items.
  assert (H1 : @remote_http Stub.catalogue (world s)
                 (@details_request Stub.catalogue 27205 true) =
               (0, HttpResponse 200 (Some (PyDict items)))) by reflexivity.
  assert (H2 : details_ok items = true) by reflexivity.
  split; [exact H1 |]. split; [exact H2 |]. split; [reflexivity |].
  exact (@movie_details_of_well_formed Stub.catalogue 27205 true s 0 200%Z
           items H1 H2).
Defined.

(** The provider answers the search with its 404 error body, which has
    no results: the tool returns that body. *)
Lemma list_tools_pass_through_witness :
  let t := SearchMovies "Inception" 1 in
  let s := Stub.start Stub.missing 0 in
  @remote_http Stub.missing (world s) (@list_tool_request Stub.missing t) =
    (0, HttpResponse 404 (Some Stub.not_found_body)) /\
  py_in "results" Stub.not_found_body = Ok false /\
  snd (@run_list_tool Stub.missing t s) = Ok Stub.not_found_body.
Proof.
  intros t s.
  assert (H1 : @remote_http Stub.missing (world s)
                 (@list_tool_request Stub.missing t) =
               (0, HttpResponse 404 (Some Stub.not_found_body)))
    by reflexivity.
  assert (H2 : py_in "results" Stub.not_found_body = Ok false) by reflexivity.
  split; [exact H1 |]. split; [exact H2 |].
  exact (proj1 (@list_tools_pass_through Stub.missing t s 0 404%Z
                  Stub.not_found_body H1) H2).
Defined.

(** The search for Inception: the provider's movies have six keys, the
    movies returned five. *)
Lemma filtered_movies_have_five_keys_witness :
  let t := SearchMovies "Inception" 1 in
  let s := Stub.start Stub.scenario 0 in
  let d := match snd (@run_list_tool Stub.scenario t s) with
           | Ok d => d
           | Raise _ => PyNone
           end in
  @remote_http Stub.scenario (world s) (@list_tool_request Stub.scenario t) =
    (0, HttpResponse 200 (Some Stub.search_body)) /\
  py_in "results" Stub.search_body = Ok true /\
  snd (@run_list_tool Stub.scenario t s) = Ok d /\
  exists filtered,
    field d "results" = PyList filtered /\
    Forall (fun f => exists items,
                f = PyDict items /\ map fst items = movie_keys) filtered /\
    (forall movies,
        field Stub.search_body "results" = PyList movies ->
        Forall2 (fun movie f =>
                   forall k, In k ["id"; "title"; "release_date"; "vote_average"] ->
                             field f k = field movie k)
                (firstn 5 movies) filtered).
Proof.
  intros t s d.
  assert (H1 : @remote_http Stub.scenario (world s)
                 (@list_tool_request Stub.scenario t) =
               (0, HttpResponse 200 (Some Stub.search_body))) by reflexivity.
  assert (H0 : py_in "results" Stub.search_body = Ok true) by reflexivity.
  assert (Hd : snd (@run_list_tool Stub.scenario t s) = Ok d) by reflexivity.
  split; [exact H1 |]. split; [exact H0 |]. split; [exact Hd |].
  exact (@filtered_movies_have_five_keys Stub.scenario t s 0 200%Z
           Stub.search_body d H1 H0 Hd).
Defined.

(** The provider out of reach, and a gateway that answers with a page
    that is not JSON: the endpoints answer 500. *)
Lemma endpoints_call_tools_with_defaults_witness :
  (let s := Stub.start Stub.cut_off 0 in
   (forall req, snd (@remote_http Stub.cut_off (world s) req) = NoResponse) /\
   snd (@run_endpoint Stub.cut_off (EpDetails 27205) s) =
   Raise (@http_500 Stub.cut_off ConnectionError)) /\
  (let s := Stub.start Stub.garbled 0 in
   (forall req, exists status,
       snd (@remote_http Stub.garbled (world s) req) =
       HttpResponse status None) /\
   snd (@run_endpoint Stub.garbled EpPopular s) =
   Raise (@http_500 Stub.garbled JSONDecodeError)).
Proof.
  split.
  - intros s.
    assert (H : forall req,
               snd (@remote_http Stub.cut_off (world s) req) = NoResponse)
      by (intros req; reflexivity).
    split; [exact H |].
    exact (proj1 (proj2 (@endpoints_call_tools_with_defaults Stub.cut_off
                           (EpDetails 27205) s)) H).
  - intros s.
    assert (H : forall req, exists status,
               snd (@remote_http Stub.garbled (world s) req) =
               HttpResponse status None)
      by (intros req; exists 502%Z; reflexivity).
    split; [exact H |].
    exact (proj2 (proj2 (@endpoints_call_tools_with_defaults Stub.garbled
                           EpPopular s)) H).
Defined.

(** The scenario of the specification: two rounds, then the answer. *)
Lemma finished_turn_shape_witness :
  let st := [HumanMessage Stub.question] in
  let s := Stub.start Stub.scenario 0 in
  exists s' final,
    @graph_invoke Stub.scenario st s = (s', Ok final) /\
    exists added,
      final = st ++ added /\ turn_shape added /\
      model_calls (events s') =
      model_calls (events s) + assistant_messages added.
Proof.
  intros st s.
  destruct (@graph_invoke Stub.scenario st s) as [s' [final | e]] eqn:E;
    [| vm_compute in E; discriminate].
  exists s', final. split; [reflexivity |].
  exact (@finished_turn_shape Stub.scenario st s s' final E).
Defined.

(** The user types QuIt. *)
Lemma repl_stops_at_quit_witness :
  let s := Stub.start Stub.refusing 0 in
  says_quit "QuIt" /\
  @repl_loop Stub.refusing ["QuIt"; "more"] [] [banner] s =
  (s, mkRepl [] ([banner] ++ ["> "]) ReplQuit).
Proof.
  intros s.
  assert (H : says_quit "QuIt").
  { exists "Q"%char, "u"%char, "I"%char, "t"%char.
    split; [reflexivity |]. repeat split; auto. }
  split; [exact H |].
  exact (proj1 (proj2 (@repl_stops_at_quit Stub.refusing "QuIt" ["more"] []
                         [banner] s)) H).
Defined.

(** One question, then Quit, then a line that is never read. *)
Lemma repl_keeps_the_conversation_witness :
  let s := Stub.start Stub.refusing 0 in
  let inputs := ["What's the weather today?"; "Quit"; "never read"] in
  exists s' r,
    @repl Stub.refusing inputs s = (s', r) /\
    ended_normally r /\
    user_lines (repl_messages r) = lines_before_quit inputs /\
    length (final_answers (repl_messages r)) =
      length (lines_before_quit inputs) /\
    repl_stdout r = banner :: transcript (final_answers (repl_messages r)) /\
    (repl_end r = ReplQuit <-> exists line, In line inputs /\ says_quit line).
Proof.
  intros s inputs.
  destruct (@repl Stub.refusing inputs s) as [s' r] eqn:E.
  assert (Hn : ended_normally r).
  { left. vm_compute in E. injection E as _ <-. reflexivity. }
  exists s', r. split; [reflexivity |]. split; [exact Hn |].
  exact (@repl_keeps_the_conversation Stub.refusing inputs s s' r E Hn).
Defined.

Lemma one_session_store_ok e w : @store_ok e (Stub.one_session e w).
Proof.
  intros sid session H. unfold Stub.one_session in H. simpl in H.
  apply lookup_insert_Some in H as [[<- <-] | [_ H]];
    [| by rewrite lookup_empty in H].
  split.
  - simpl. rewrite lookup_insert_eq. eauto.
  - intros sid' session' H' _. unfold Stub.one_session in H'. simpl in H'.
    apply lookup_insert_Some in H' as [[<- _] | [_ H']]; [reflexivity |].
    by rewrite lookup_empty in H'.
Qed.

(** Session ["s1"] is found; an identifier nobody has gets a new
    session under a new uuid. *)
Lemma session_found_or_created_witness :
  let srv := Stub.one_session Stub.scenario 7 in
  let old := mkSession
               [mkChatMessage "user" "Hello" 0%Z;
                mkChatMessage "assistant" "Hi! Ask me about movies." 1%Z]
               0%Z 2%Z 1%positive in
  ("s1" <> "" /\
   chat_sessions srv !! "s1" = Some old /\
   snd (@get_or_create_session Stub.scenario (Some "s1") srv) = "s1" /\
   heap (fst (@get_or_create_session Stub.scenario (Some "s1") srv)) =
   heap srv) /\
  (@known_session Stub.scenario (Some "nobody") srv = None /\
   snd (@get_or_create_session Stub.scenario (Some "nobody") srv) =
   snd (@uuid4 Stub.scenario (world (sys srv)))).
Proof.
  intros srv old.
  assert (H1 : "s1" <> "") by discriminate.
  assert (H2 : chat_sessions srv !! "s1" = Some old)
    by (vm_compute; reflexivity).
  assert (H3 : @known_session Stub.scenario (Some "nobody") srv = None)
    by (vm_compute; reflexivity).
  split.
  - split; [exact H1 |]. split; [exact H2 |].
    pose proof (@session_found_or_created Stub.scenario (Some "s1") srv) as H.
    cbv zeta in H. destruct H as (_ & _ & H & _).
    destruct (H "s1" old eq_refl H1 H2) as (Ha & Hb & _).
    split; [exact Ha | exact Hb].
  - split; [exact H3 |].
    pose proof (@session_found_or_created Stub.scenario (Some "nobody") srv)
      as H.
    cbv zeta in H. destruct H as (_ & _ & _ & H).
    exact (proj1 (H H3)).
Defined.


(** Session ["s1"] asks where to watch Inception. *)
Lemma successful_turn_commits_witness :
  let srv := Stub.one_session Stub.scenario 7 in
  exists srv' resp,
    @chat_with_agent Stub.scenario (Some "s1") Stub.question srv =
      (srv', Ok resp) /\
    exists session log0 hist added t1 t2,
      chat_sessions srv' !! cr_session_id resp = Some session /\
      s_messages session =
        log0 ++ [mkChatMessage "user" Stub.question t1;
                 mkChatMessage "assistant" (cr_response resp) t2] /\
      deref srv' (s_state session) =
        hist ++ [HumanMessage Stub.question] ++ added /\
      turn_shape added /\
      final_answers added = [cr_response resp] /\
      heap srv !! s_state session = None.
Proof.
  intros srv.
  destruct (@chat_with_agent Stub.scenario (Some "s1") Stub.question srv)
    as [srv' [resp | ex]] eqn:E; [| vm_compute in E; discriminate].
  exists srv', resp. split; [reflexivity |].
  destruct (@successful_turn_commits Stub.scenario (Some "s1") Stub.question
              srv srv' resp E)
    as (session & log0 & hist & added & t1 & t2 & H1 & H2 & H3 & H4 & H5 & H6
        & _).
  exists session, log0, hist, added, t1, t2. auto 10.
Defined.

(** The store with session ["s1"], and what the operations make of it. *)
Lemma sessions_never_share_state_witness :
  let srv := Stub.one_session Stub.scenario 7 in
  store_ok srv /\
  store_ok (fst (@get_or_create_session Stub.scenario None srv)) /\
  store_ok (fst (@reset_session Stub.scenario "s1" srv)) /\
  store_ok (fst (@delete_session Stub.scenario "s1" srv)) /\
  exists srv' r,
    @chat_with_agent Stub.scenario (Some "s1") Stub.question srv =
      (srv', r) /\
    store_ok srv'.
Proof.
  intros srv.
  pose proof (one_session_store_ok Stub.scenario 7 : store_ok srv) as Hok.
  pose proof (@sessions_never_share_state Stub.scenario)
    as (_ & Hg & Hc & Hr & Hd & _).
  split; [exact Hok |]. split; [exact (Hg None srv Hok) |].
  split; [exact (Hr "s1" srv Hok) |]. split; [exact (Hd "s1" srv Hok) |].
  destruct (@chat_with_agent Stub.scenario (Some "s1") Stub.question srv)
    as [srv' r] eqn:E.
  exists srv', r. split; [reflexivity |].
  exact (Hc (Some "s1") Stub.question srv srv' r E Hok).
Defined.

(** Session ["s1"] asks its question: the chat model is first called
    with the prompt, the earlier turn and the question. *)
Lemma turn_sends_the_stored_history_witness :
  let srv := Stub.one_session Stub.scenario 7 in
  0 < @recursion_limit Stub.scenario /\
  exists srv' r rest,
    @chat_with_agent Stub.scenario (Some "s1") Stub.question srv =
      (srv', r) /\
    events (sys srv') =
    events (sys srv) ++
    EvModelCall
      (system_prompt ::
       Stub.earlier_turn ++ [HumanMessage Stub.question]) :: rest.
Proof.
  intros srv.
  assert (Hl : 0 < @recursion_limit Stub.scenario) by (simpl; lia).
  split; [exact Hl |].
  destruct (@chat_with_agent Stub.scenario (Some "s1") Stub.question srv)
    as [srv' r] eqn:E.
  destruct (@turn_sends_the_stored_history Stub.scenario (Some "s1")
              Stub.question srv srv' r Hl E) as [rest H].
  exists srv', r, rest. split; [reflexivity |]. exact H.
Defined.

(** A caller without a session asks twice, the second time with the
    identifier it was answered with. *)
Lemma next_turn_continues_the_conversation_witness :
  let srv := Stub.one_session Stub.refusing 7 in
  exists srv1 resp srv2 r added rest,
    @chat_with_agent Stub.refusing None "Hello" srv = (srv1, Ok resp) /\
    cr_session_id resp <> "" /\
    @chat_with_agent Stub.refusing (Some (cr_session_id resp)) "And now?"
      srv1 = (srv2, r) /\
    turn_shape added /\
    final_answers added = [cr_response resp] /\
    events (sys srv2) =
    events (sys srv1) ++
    EvModelCall
      (system_prompt ::
       ([] ++ [HumanMessage "Hello"] ++ added) ++ [HumanMessage "And now?"])
    :: rest.
Proof.
  intros srv.
  destruct (@chat_with_agent Stub.refusing None "Hello" srv)
    as [srv1 [resp | ex]] eqn:E1; [| vm_compute in E1; discriminate].
  assert (Hne : cr_session_id resp <> "").
  { vm_compute in E1. injection E1 as _ <-. discriminate. }
  destruct (@chat_with_agent Stub.refusing (Some (cr_session_id resp))
              "And now?" srv1) as [srv2 r] eqn:E2.
  destruct (@next_turn_continues_the_conversation Stub.refusing None
              "Hello" "And now?" srv srv1 resp srv2 r E1 Hne E2)
    as (added & rest & H1 & H2 & H3).
  exists srv1, resp, srv2, r, added, rest. auto 10.
Defined.

(** A caller without a session asks; session ["s1"] is as it was. *)
Lemma turn_leaves_other_sessions_alone_witness :
  let srv := Stub.one_session Stub.refusing 7 in
  let old := mkSession
               [mkChatMessage "user" "Hello" 0%Z;
                mkChatMessage "assistant" "Hi! Ask me about movies." 1%Z]
               0%Z 2%Z 1%positive in
  store_ok srv /\
  chat_sessions srv !! "s1" = Some old /\
  "s1" <> snd (@get_or_create_session Stub.refusing None srv) /\
  exists srv' r,
    @chat_with_agent Stub.refusing None "Hello" srv = (srv', r) /\
    chat_sessions srv' !! "s1" = Some old /\
    stored_history srv' "s1" = stored_history srv "s1".
Proof.
  intros srv old.
  pose proof (one_session_store_ok Stub.refusing 7 : store_ok srv) as Hok.
  assert (H2 : chat_sessions srv !! "s1" = Some old)
    by (vm_compute; reflexivity).
  assert (H3 : "s1" <> snd (@get_or_create_session Stub.refusing None srv))
    by (vm_compute; discriminate).
  split; [exact Hok |]. split; [exact H2 |]. split; [exact H3 |].
  destruct (@chat_with_agent Stub.refusing None "Hello" srv)
    as [srv' r] eqn:E.
  exists srv', r. split; [reflexivity |].
  exact (@turn_leaves_other_sessions_alone Stub.refusing None "Hello" srv
           srv' r "s1" old Hok E H2 H3).
Defined.

(** Session ["s1"] is reset and then asks again. *)
Lemma reset_forgets_the_conversation_witness :
  let srv := Stub.one_session Stub.refusing 7 in
  let old := mkSession
               [mkChatMessage "user" "Hello" 0%Z;
                mkChatMessage "assistant" "Hi! Ask me about movies." 1%Z]
               0%Z 2%Z 1%positive in
  let srv1 := fst (@reset_session Stub.refusing "s1" srv) in
  chat_sessions srv !! "s1" = Some old /\
  get_session_messages "s1" srv1 = Ok [] /\
  stored_history srv1 "s1" = Some [] /\
  exists srv2 r rest,
    @chat_with_agent Stub.refusing (Some "s1") "Hello" srv1 = (srv2, r) /\
    events (sys srv2) =
    events (sys srv) ++
    EvModelCall [system_prompt; HumanMessage "Hello"] :: rest.
Proof.
  intros srv old srv1.
  assert (H : chat_sessions srv !! "s1" = Some old)
    by (vm_compute; reflexivity).
  pose proof (@reset_forgets_the_conversation Stub.refusing "s1" old srv H)
    as Hw.
  cbv zeta in Hw. destruct Hw as (Ha & Hb & _ & Hd).
  split; [exact H |]. split; [exact Ha |]. split; [exact Hb |].
  destruct (@chat_with_agent Stub.refusing (Some "s1") "Hello" srv1)
    as [srv2 r] eqn:E.
  assert (Hne : "s1" <> "") by discriminate.
  assert (Hl : 0 < @recursion_limit Stub.refusing) by (simpl; lia).
  destruct (Hd "Hello" srv2 r Hne Hl E) as [rest Hrest].
  exists srv2, r, rest. split; [reflexivity | exact Hrest].
Defined.

(** Session ["s1"] is deleted; a caller who still sends its identifier
    is answered under a new one. *)
Lemma deleted_session_is_gone_witness :
  let srv := Stub.one_session Stub.refusing 7 in
  let old := mkSession
               [mkChatMessage "user" "Hello" 0%Z;
                mkChatMessage "assistant" "Hi! Ask me about movies." 1%Z]
               0%Z 2%Z 1%positive in
  let srv1 := fst (@delete_session Stub.refusing "s1" srv) in
  chat_sessions srv !! "s1" = Some old /\
  get_session_messages "s1" srv1 =
    Raise (HTTPException 404 "Session not found") /\
  exists srv2 resp,
    @chat_with_agent Stub.refusing (Some "s1") "Hello" srv1 =
      (srv2, Ok resp) /\
    cr_session_id resp = snd (@uuid4 Stub.refusing (world (sys srv))).
Proof.
  intros srv old srv1.
  assert (H : chat_sessions srv !! "s1" = Some old)
    by (vm_compute; reflexivity).
  pose proof (@deleted_session_is_gone Stub.refusing "s1" old srv H) as Hw.
  cbv zeta in Hw. destruct Hw as (Ha & _ & _ & _ & Hd).
  split; [exact H |]. split; [exact Ha |].
  destruct (@chat_with_agent Stub.refusing (Some "s1") "Hello" srv1)
    as [srv2 [resp | ex]] eqn:E; [| vm_compute in E; discriminate].
  assert (Hl : 0 < @recursion_limit Stub.refusing) by (simpl; lia).
  exists srv2, resp. split; [reflexivity |].
  exact (proj2 (Hd "Hello" srv2 (Ok resp) Hl E) resp eq_refl).
Defined.

(** The search tool, asked for Inception. *)
Lemma tools_send_one_keyed_request_witness :
  let s := Stub.start Stub.scenario 0 in
  let args := tc_args Stub.search_call in
  @tools_by_name Stub.scenario tools "search_movies" =
    Some tool_search_movies /\
  ((fst (@invoke_tool Stub.scenario tool_search_movies args s) = s /\
    exists e,
      snd (@invoke_tool Stub.scenario tool_search_movies args s) = Raise e) \/
   (exists req,
       @tmdb_request Stub.scenario req /\
       events (fst (@invoke_tool Stub.scenario tool_search_movies args s)) =
       events s ++ [EvHttpGet req])).
Proof.
  intros s args.
  assert (H : @tools_by_name Stub.scenario tools "search_movies" =
              Some tool_search_movies) by reflexivity.
  split; [exact H |].
  exact (@tools_send_one_keyed_request Stub.scenario "search_movies"
           tool_search_movies args s H).
Defined.
